(** * Insurance claim pipeline: classifier, field extractor, liability evaluator

    A shallow embedding of the three services of
    [insurance_claim_web_app/backend/services] (document_classifier.py,
    keyword_extractor.py, liability_evaluator.py) and of the data model of
    [models/claim.py], followed by the properties established about them.

    Conventions of the embedding
    - a Python [str] is a list of Unicode code points ([pystr]); literals of
      the source are written as UTF-8 text and decoded by [py];
    - a Python [float] is read twice: as the exact rational that it
      denotes ([Q]), with every arithmetic formula the one of the source and
      no rounding, for statements about order and bounds; and as an IEEE 754
      binary64 number, every operation rounded as the interpreter rounds it
      (module [Binary64]), for statements about the values computed;
    - a Python [dict] used as a map is a [gmap]; the configuration tables,
      whose iteration order matters, are association lists;
    - code that can raise returns a [result];
    - [datetime.now()] is an explicit argument of every function that reads
      the clock. *)

From Stdlib Require Import ZArith NArith QArith Qround Qminmax Bool List Sorted String Ascii Lia Lqa.
From Stdlib Require Import Qabs Floats.SpecFloat.
From stdpp Require Import base option list gmap.
Import ListNotations.

Local Open Scope N_scope.

(** ** Python strings *)

Module PyStr.

Definition pystr := list N.

(** Decoding of the UTF-8 text of a literal into code points. *)
Fixpoint utf8_decode (bs : list N) : pystr :=
  match bs with
  | [] => []
  | b0 :: r0 =>
      if b0 <? 128 then b0 :: utf8_decode r0
      else if b0 <? 224 then
        match r0 with
        | b1 :: r1 => ((b0 - 192) * 64 + (b1 - 128)) :: utf8_decode r1
        | _ => []
        end
      else if b0 <? 240 then
        match r0 with
        | b1 :: b2 :: r2 =>
            ((b0 - 224) * 4096 + (b1 - 128) * 64 + (b2 - 128)) :: utf8_decode r2
        | _ => []
        end
      else
        match r0 with
        | b1 :: b2 :: b3 :: r3 =>
            ((b0 - 240) * 262144 + (b1 - 128) * 4096 + (b2 - 128) * 64 + (b3 - 128))
              :: utf8_decode r3
        | _ => []
        end
  end.

Definition py (s : string) : pystr :=
  utf8_decode (List.map N_of_ascii (list_ascii_of_string s)).

(** Control characters of non-raw literals. *)
Definition LF : N := 10.
Definition CR : N := 13.

(** *** Character tables

    The tables follow the Unicode character database used by CPython.
    White space and decimal digits are complete (Unicode 14); case
    mapping and the alphanumeric class cover the blocks listed below. *)

Definition in_range (lo hi c : N) : bool := (lo <=? c) && (c <=? hi).

Definition in_ranges (rs : list (N * N)) (c : N) : bool :=
  existsb (fun r => in_range (fst r) (snd r) c) rs.

(** [str.isspace] on one character; also the class [\s] and the set
    removed by [str.strip()]. *)
Definition whitespace_ranges : list (N * N) :=
  [(9, 13); (28, 32); (133, 133); (160, 160); (5760, 5760); (8192, 8202);
   (8232, 8233); (8239, 8239); (8287, 8287); (12288, 12288)].

Definition is_space (c : N) : bool := in_ranges whitespace_ranges c.

(** Code points of the digit zero of every decimal-digit block (general
    category Nd); the nine following code points are the digits 1..9. *)
Definition decimal_zeros : list N :=
  [48; 1632; 1776; 1984; 2406; 2534; 2662; 2790; 2918; 3046; 3174; 3302;
   3430; 3558; 3664; 3792; 3872; 4160; 4240; 6112; 6160; 6470; 6608; 6784;
   6800; 6992; 7088; 7232; 7248; 42528; 43216; 43264; 43472; 43504; 43600;
   44016; 65296; 66720; 68912; 69734; 69872; 69942; 70096; 70384; 70736;
   70864; 71248; 71360; 71472; 71904; 72016; 72784; 73040; 73120; 92768;
   92864; 93008; 120782; 120792; 120802; 120812; 120822; 123200; 123632;
   125264; 130032].

Fixpoint decimal_in (zs : list N) (c : N) : option N :=
  match zs with
  | [] => None
  | z :: zs' => if in_range z (z + 9) c then Some (c - z) else decimal_in zs' c
  end.

(** Value of a decimal digit, [None] for any other character. *)
Definition decimal_value (c : N) : option N := decimal_in decimal_zeros c.

Definition is_decimal (c : N) : bool :=
  match decimal_value c with Some _ => true | None => false end.

(** Characters that are digits for [str.isdigit] without being decimal
    digits (superscripts, subscripts, circled digits, ...). *)
Definition other_digit_ranges : list (N * N) :=
  [(178, 179); (185, 185); (4969, 4977); (6618, 6618); (8304, 8304);
   (8308, 8313); (8320, 8329); (9312, 9320); (9332, 9340); (9352, 9360);
   (9450, 9450); (9461, 9469); (9471, 9471); (10102, 10110); (10112, 10120);
   (10122, 10130); (68160, 68163); (69216, 69224); (69714, 69722);
   (127232, 127242)].

Definition is_digit (c : N) : bool :=
  is_decimal c || in_ranges other_digit_ranges c.

(** Letters and syllables of the alphanumeric class: Latin, Greek,
    Cyrillic, kana, CJK ideographs, Yi, Hangul, full-width forms. *)
Definition letter_ranges : list (N * N) :=
  [(65, 90); (97, 122); (170, 170); (181, 181); (186, 186); (192, 214);
   (216, 246); (248, 705); (904, 906); (910, 929); (931, 1013); (1015, 1153);
   (1162, 1327); (12353, 12438); (12449, 12538); (13312, 19903);
   (19968, 42124); (44032, 55203); (63744, 64109); (65313, 65338);
   (65345, 65370); (65382, 65470); (131072, 173791)].

(** The class [\w] of a [str] pattern: alphanumeric or underscore. *)
Definition is_word (c : N) : bool :=
  (c =? 95) || is_digit c || in_ranges letter_ranges c.

(** Simple lower-case mapping: Basic Latin, Latin-1, Greek, Cyrillic and
    full-width Latin capitals. Characters without case, among them all
    CJK text of the configuration tables, are left unchanged. *)
Definition lower_cp (c : N) : N :=
  if in_range 65 90 c then c + 32
  else if in_range 192 222 c && negb (c =? 215) then c + 32
  else if in_range 913 939 c && negb (c =? 930) then c + 32
  else if in_range 1040 1071 c then c + 32
  else if in_range 1024 1039 c then c + 80
  else if in_range 65313 65338 c then c + 32
  else c.

Definition upper_cp (c : N) : N :=
  if in_range 97 122 c then c - 32
  else if in_range 224 254 c && negb (c =? 247) then c - 32
  else if in_range 945 971 c && negb (c =? 962) then c - 32
  else if in_range 1072 1103 c then c - 32
  else if in_range 1104 1119 c then c - 80
  else if in_range 65345 65370 c then c - 32
  else c.

(** *** String methods *)

(** [s.lower()] *)
Definition lower (s : pystr) : pystr := List.map lower_cp s.

Fixpoint lstrip (s : pystr) : pystr :=
  match s with
  | [] => []
  | c :: s' => if is_space c then lstrip s' else s
  end.

Definition rstrip (s : pystr) : pystr := rev (lstrip (rev s)).

(** [s.strip()] *)
Definition strip (s : pystr) : pystr := lstrip (rstrip s).

Fixpoint startswith (p s : pystr) : bool :=
  match p, s with
  | [], _ => true
  | _ :: _, [] => false
  | a :: p', b :: s' => (a =? b) && startswith p' s'
  end.

(** [p in s] for two strings: [p] occurs as a substring of [s]. *)
Fixpoint str_in (p s : pystr) : bool :=
  startswith p s ||
  match s with
  | [] => false
  | _ :: s' => str_in p s'
  end.

(** [s.replace(old, new)] for a non-empty [old]: occurrences are replaced
    from left to right without overlap; [skip] counts the characters of
    the occurrence being replaced that are still to be dropped. *)
Fixpoint replace_from (old new : pystr) (skip : nat) (s : pystr) : pystr :=
  match s with
  | [] => []
  | c :: s' =>
      match skip with
      | S k => replace_from old new k s'
      | O =>
          if startswith old s
          then new ++ replace_from old new (length old - 1) s'
          else c :: replace_from old new O s'
      end
  end.

Definition replace (old new s : pystr) : pystr := replace_from old new O s.

(** [s.isdigit()] *)
Definition isdigit (s : pystr) : bool :=
  match s with
  | [] => false
  | _ => forallb is_digit s
  end.

(** [sep.join(parts)] *)
Fixpoint join (sep : pystr) (parts : list pystr) : pystr :=
  match parts with
  | [] => []
  | [p] => p
  | p :: ps => p ++ sep ++ join sep ps
  end.

(** Value of a string of decimal digits read in base ten, most significant
    digit first; [None] as soon as a character is not a decimal digit. *)
Fixpoint digits_value (acc : N) (s : pystr) : option N :=
  match s with
  | [] => Some acc
  | c :: s' =>
      match decimal_value c with
      | Some d => digits_value (10 * acc + d) s'
      | None => None
      end
  end.

(** [str(n)] for a non-negative integer. *)
Fixpoint str_of_pos_digits (fuel : nat) (n : N) (acc : pystr) : pystr :=
  match fuel with
  | O => acc
  | S f =>
      let acc' := (48 + n mod 10) :: acc in
      if n <? 10 then acc' else str_of_pos_digits f (n / 10) acc'
  end.

Definition str_of_nat (n : nat) : pystr :=
  str_of_pos_digits (S n) (N.of_nat n) [].

End PyStr.
Import PyStr.

(** ** Exceptions *)

Inductive exn :=
  ValueError | TypeError | KeyError | ValidationError | ReError
| OverflowError | ZeroDivisionError.

Inductive result (A : Type) :=
| Ok (a : A)
| Raise (e : exn).
Arguments Ok {A} a.
Arguments Raise {A} e.

Definition bind {A B} (m : result A) (f : A -> result B) : result B :=
  match m with
  | Ok a => f a
  | Raise e => Raise e
  end.

Notation "'try' x <- m ; k" := (bind m (fun x => k))
  (at level 10, x name, m at level 100, k at level 200).

(** ** Regular expressions ([re])

    The fragment of the pattern language used by the services: literals,
    escapes, character sets, groups, alternation and greedy repetition,
    matched by backtracking with the priorities of [re]. *)

Module Re.

Inductive citem :=
| CChar (c : N)
| CRange (lo hi : N)
| CDigit
| CSpace
| CWord.

Inductive regex :=
| REmpty
| RChar (c : N)
| RSet (negated : bool) (items : list citem)
| RSeq (a b : regex)
| RAlt (a b : regex)
| RRep (lo : nat) (hi : option nat) (a : regex)
| RGroup (i : nat) (a : regex).

(** *** Parsing of a pattern *)

Definition ascii_digit (c : N) : option nat :=
  if in_range 48 57 c then Some (N.to_nat (c - 48)) else None.

Fixpoint parse_nat_from (acc : nat) (s : pystr) : nat * pystr :=
  match s with
  | [] => (acc, [])
  | c :: s' =>
      match ascii_digit c with
      | Some d => parse_nat_from (10 * acc + d)%nat s'
      | None => (acc, s)
      end
  end.

Definition parse_nat (s : pystr) : option (nat * pystr) :=
  match s with
  | [] => None
  | c :: _ =>
      match ascii_digit c with
      | Some _ => Some (parse_nat_from O s)
      | None => None
      end
  end.

(** A class escape or an escaped literal. *)
Definition escape_item (c : N) : option citem :=
  if c =? 100 then Some CDigit            (* \d *)
  else if c =? 115 then Some CSpace       (* \s *)
  else if c =? 119 then Some CWord        (* \w *)
  else if c =? 110 then Some (CChar LF)   (* \n *)
  else if c =? 114 then Some (CChar CR)   (* \r *)
  else if c =? 116 then Some (CChar 9)    (* \t *)
  else if in_range 48 57 c || in_range 65 90 c || in_range 97 122 c then None
  else Some (CChar c).

(** Items of a set, up to and including the closing bracket. *)
Fixpoint parse_items (s : pystr) : option (list citem * pystr) :=
  match s with
  | [] => None
  | 93 :: s' => Some ([], s')
  | 92 :: c :: s' =>
      match escape_item c, parse_items s' with
      | Some it, Some (its, rest) => Some (it :: its, rest)
      | _, _ => None
      end
  | 92 :: [] => None
  | a :: 45 :: 93 :: s' => Some ([CChar a; CChar 45], s')
  | _ :: 45 :: 92 :: _ => None
  | a :: 45 :: b :: s' =>
      match parse_items s' with
      | Some (its, rest) => if b <? a then None else Some (CRange a b :: its, rest)
      | None => None
      end
  | a :: s' =>
      match parse_items s' with
      | Some (its, rest) => Some (CChar a :: its, rest)
      | None => None
      end
  end.

(** A quantifier after an atom, if there is one. *)
Definition parse_quant (a : regex) (s : pystr) : option (regex * pystr) :=
  let greedy (r : regex) (rest : pystr) :=
    match rest with
    | 63 :: _ => None                      (* lazy quantifiers *)
    | 43 :: _ => None                      (* possessive quantifiers *)
    | _ => Some (r, rest)
    end in
  match s with
  | 42 :: s' => greedy (RRep 0 None a) s'
  | 43 :: s' => greedy (RRep 1 None a) s'
  | 63 :: s' => greedy (RRep 0 (Some 1%nat) a) s'
  | 123 :: s' =>
      match parse_nat s' with
      | Some (m, 125 :: s'') => greedy (RRep m (Some m) a) s''
      | Some (m, 44 :: 125 :: s'') => greedy (RRep m None a) s''
      | Some (m, 44 :: s'') =>
          match parse_nat s'' with
          | Some (n, 125 :: s3) => greedy (RRep m (Some n) a) s3
          | _ => None
          end
      | _ => None
      end
  | _ => Some (a, s)
  end.

Definition seq_of (a b : regex) : regex :=
  match b with
  | REmpty => a
  | _ => RSeq a b
  end.

(** Alternation, sequence and atom; [g] is the number of groups opened
    so far, groups are numbered by their opening parenthesis. *)
Fixpoint parse_alt (fuel : nat) (s : pystr) (g : nat) : option (regex * pystr * nat) :=
  match fuel with
  | O => None
  | S f =>
      match parse_seq f s g with
      | Some (a, 124 :: s', g') =>
          match parse_alt f s' g' with
          | Some (b, s'', g'') => Some (RAlt a b, s'', g'')
          | None => None
          end
      | r => r
      end
  end
with parse_seq (fuel : nat) (s : pystr) (g : nat) : option (regex * pystr * nat) :=
  match fuel with
  | O => None
  | S f =>
      match s with
      | [] => Some (REmpty, s, g)
      | 124 :: _ => Some (REmpty, s, g)
      | 41 :: _ => Some (REmpty, s, g)
      | _ =>
          match parse_atom f s g with
          | Some (a, s', g') =>
              match parse_quant a s' with
              | Some (q, s'') =>
                  match parse_seq f s'' g' with
                  | Some (b, s3, g'') => Some (seq_of q b, s3, g'')
                  | None => None
                  end
              | None => None
              end
          | None => None
          end
      end
  end
with parse_atom (fuel : nat) (s : pystr) (g : nat) : option (regex * pystr * nat) :=
  match fuel with
  | O => None
  | S f =>
      match s with
      | [] => None
      | 40 :: 63 :: 58 :: s' =>
          match parse_alt f s' g with
          | Some (a, 41 :: s'', g') => Some (a, s'', g')
          | _ => None
          end
      | 40 :: 63 :: _ => None
      | 40 :: s' =>
          match parse_alt f s' (S g) with
          | Some (a, 41 :: s'', g') => Some (RGroup (S g) a, s'', g')
          | _ => None
          end
      | 91 :: 94 :: s' =>
          match parse_items s' with
          | Some (it :: its, rest) => Some (RSet true (it :: its), rest, g)
          | _ => None
          end
      | 91 :: s' =>
          match parse_items s' with
          | Some (it :: its, rest) => Some (RSet false (it :: its), rest, g)
          | _ => None
          end
      | 92 :: c :: s' =>
          match escape_item c with
          | Some (CChar x) => Some (RChar x, s', g)
          | Some it => Some (RSet false [it], s', g)
          | None => None
          end
      | 46 :: s' => Some (RSet true [CChar LF], s', g)
      | c :: s' =>
          if (c =? 42) || (c =? 43) || (c =? 63) || (c =? 123) || (c =? 92)
             || (c =? 94) || (c =? 36)
          then None
          else Some (RChar c, s', g)
      end
  end.

(** [re.compile(pattern)]: the syntax tree and the number of groups. *)
Definition compile (pattern : pystr) : option (regex * nat) :=
  match parse_alt (3 * length pattern + 3) pattern O with
  | Some (r, [], g) => Some (r, g)
  | _ => None
  end.

(** *** Matching *)

Definition citem_match (c : N) (it : citem) : bool :=
  match it with
  | CChar x => c =? x
  | CRange lo hi => in_range lo hi c
  | CDigit => is_decimal c
  | CSpace => is_space c
  | CWord => is_word c
  end.

(** A literal, with or without [re.IGNORECASE]. *)
Definition chr_match (ic : bool) (x c : N) : bool :=
  (c =? x) || (ic && (lower_cp c =? lower_cp x)).

(** A set, with or without [re.IGNORECASE]: under the flag a character
    belongs to the set when one of its case variants does. *)
Definition set_match (ic negated : bool) (items : list citem) (c : N) : bool :=
  xorb negated
    (existsb (citem_match c) items
     || (ic && (existsb (citem_match (lower_cp c)) items
                || existsb (citem_match (upper_cp c)) items))).

(** Captured groups, the most recent capture first. *)
Definition caps := list (nat * pystr).

(** The part of [s] consumed when [s'] is what remains of it. *)
Definition consumed (s s' : pystr) : pystr := firstn (length s - length s') s.

Definition under (hi : option nat) (n : nat) : bool :=
  match hi with
  | Some h => (n <? h)%nat
  | None => true
  end.

(** A matcher takes the input, the groups captured so far and the
    continuation [k], which is what remains to be matched. *)
Definition matcher (A : Type) : Type :=
  pystr -> caps -> (pystr -> caps -> option A) -> option A.

(** Greedy repetition of [body], [n] iterations done: below the lower
    bound an iteration is required; above it one more iteration is tried
    first and the continuation is the fallback. [last] is the length of
    the input at which the previous optional iteration started: no
    further iteration is tried at the place where the previous one
    started, which stops a body that matches the empty string. *)
Fixpoint rep_loop {A} (body : matcher A) (lo : nat) (hi : option nat)
    (k : pystr -> caps -> option A) (fuel n : nat) (last : option nat)
    (s : pystr) (cs : caps) : option A :=
  match fuel with
  | O => None
  | S fuel' =>
      if (n <? lo)%nat
      then body s cs (fun s' cs' => rep_loop body lo hi k fuel' (S n) last s' cs')
      else
        match
          (if under hi n && negb (bool_decide (last = Some (length s)))
           then body s cs (fun s' cs' =>
                  rep_loop body lo hi k fuel' (S n) (Some (length s)) s' cs')
           else None)
        with
        | Some x => Some x
        | None => k s cs
        end
  end.

(** Backtracking matcher in continuation-passing style, with the
    priorities of [re]: the first alternative first, as many iterations
    as possible first. *)
Fixpoint rmatch {A} (ic : bool) (r : regex) : matcher A :=
  fun s cs k =>
  match r with
  | REmpty => k s cs
  | RChar x =>
      match s with
      | c :: s' => if chr_match ic x c then k s' cs else None
      | [] => None
      end
  | RSet negated items =>
      match s with
      | c :: s' => if set_match ic negated items c then k s' cs else None
      | [] => None
      end
  | RSeq a b => rmatch ic a s cs (fun s' cs' => rmatch ic b s' cs' k)
  | RAlt a b =>
      match rmatch ic a s cs k with
      | Some x => Some x
      | None => rmatch ic b s cs k
      end
  | RGroup i a =>
      rmatch ic a s cs (fun s' cs' => k s' ((i, consumed s s') :: cs'))
  | RRep lo hi a =>
      rep_loop (rmatch ic a) lo hi k (lo + length s + 2)%nat O None s cs
  end.

(** One match: its text and the text of its groups. *)
Record rematch := { m_text : pystr; m_caps : caps }.

(** [group(i)], the empty string for a group that did not take part. *)
Fixpoint group (cs : caps) (i : nat) : pystr :=
  match cs with
  | [] => []
  | (j, t) :: cs' => if (i =? j)%nat then t else group cs' i
  end.

(** A match starting at the beginning of [s]; with [must_advance] an
    empty match is refused. The result is the match and the rest. *)
Definition match_here (ic : bool) (r : regex) (must_advance : bool) (s : pystr)
  : option (rematch * pystr) :=
  rmatch ic r s []
    (fun s' cs =>
       if must_advance && (length s' =? length s)%nat then None
       else Some ({| m_text := consumed s s'; m_caps := cs |}, s')).

(** [pattern.search]: the leftmost match. *)
Fixpoint search (ic : bool) (r : regex) (s : pystr) : option rematch :=
  match match_here ic r false s with
  | Some (m, _) => Some m
  | None =>
      match s with
      | [] => None
      | _ :: s' => search ic r s'
      end
  end.

(** All non-overlapping matches from left to right. After an empty match
    the scan resumes at the same place and has to advance. *)
Fixpoint finditer (fuel : nat) (ic : bool) (r : regex) (must_advance : bool)
    (s : pystr) : list rematch :=
  match fuel with
  | O => []
  | S f =>
      match match_here ic r must_advance s with
      | Some (m, rest) =>
          m :: (if (length rest =? length s)%nat
                then finditer f ic r true s
                else finditer f ic r false rest)
      | None =>
          match s with
          | [] => []
          | _ :: s' => finditer f ic r false s'
          end
      end
  end.

(** An element of the list returned by [re.findall]: a string, or a tuple
    of strings when the pattern has several groups. *)
Inductive item :=
| Str (s : pystr)
| Tuple (gs : list pystr).

Definition item_of (ngroups : nat) (m : rematch) : item :=
  match ngroups with
  | O => Str (m_text m)
  | 1%nat => Str (group (m_caps m) 1)
  | _ => Tuple (List.map (group (m_caps m)) (seq 1 ngroups))
  end.

(** [re.findall(pattern, string, flags)] *)
Definition findall (pattern : pystr) (s : pystr) (ic : bool) : result (list item) :=
  match compile pattern with
  | Some (r, g) =>
      Ok (List.map (item_of g) (finditer (2 * length s + 2) ic r false s))
  | None => Raise ReError
  end.

End Re.

(** ** Numbers *)

(** [a < b], and [min(a, b)] and [max(a, b)] of two numbers: the first
    argument is kept unless the second is strictly smaller (strictly
    larger). *)
Definition qlt (a b : Q) : bool := negb (Qle_bool b a).

Definition pymin (a b : Q) : Q := if qlt b a then b else a.
Definition pymax (a b : Q) : Q := if qlt a b then b else a.

(** Nearest integer, ties to the even one. *)
Definition round_half_even (x : Q) : Z :=
  let f := Qfloor x in
  match (x - inject_Z f) ?= (1 # 2) with
  | Lt => f
  | Gt => (f + 1)%Z
  | Eq => if Z.even f then f else (f + 1)%Z
  end%Q.

(** [round(x, 2)] *)
Definition round2 (x : Q) : Q := Qmake (round_half_even (x * 100)) 100.

(** ** Data model (models/claim.py) *)

Inductive DocumentType :=
| MEDICAL_RECORD
| ACCIDENT_REPORT
| INVOICE
| IDENTITY_CARD
| BANK_STATEMENT
| INSURANCE_CONTRACT.

#[global] Instance DocumentType_eq_dec : EqDecision DocumentType.
Proof. solve_decision. Defined.

Record ExtractedField := {
  field_name : pystr;
  field_value : pystr;
  confidence : Q;
  page_number : option Z;
  position : option (list (pystr * Z))
}.

Record ClassificationResult := {
  cr_document_id : pystr;
  predicted_type : DocumentType;
  cr_confidence : Q;
  alternative_types : option (list DocumentType)
}.

Record ExtractionResult := {
  er_document_id : pystr;
  extracted_fields : list ExtractedField;
  extraction_accuracy : Q
}.

Record LiabilityEvaluation := {
  coverage_applicable : bool;
  exclusion_factors : list pystr;
  coverage_limit : option Q;
  recommended_payout : Q;
  evaluation_reasons : list pystr;
  le_confidence : Q
}.

(** ** Classifier (services/document_classifier.py) *)

Module DocumentClassifier.

Definition supported_types : list DocumentType :=
  [MEDICAL_RECORD; ACCIDENT_REPORT; INVOICE; IDENTITY_CARD; BANK_STATEMENT;
   INSURANCE_CONTRACT].

(** The keyword table, in the insertion order of the dictionary. *)
Definition keyword_mapping : list (DocumentType * list pystr) :=
  [(MEDICAL_RECORD,
    List.map py ["病历"; "诊断"; "入院"; "出院"; "医嘱"; "检查"; "检验"; "病理"; "门诊"]%string);
   (ACCIDENT_REPORT,
    List.map py ["事故"; "现场"; "交警"; "认定书"; "碰撞"; "损伤"; "报案"; "调查"]%string);
   (INVOICE,
    List.map py ["发票"; "金额"; "费用"; "收据"; "结算"; "收费"; "凭证"]%string);
   (IDENTITY_CARD,
    List.map py ["身份证"; "姓名"; "性别"; "出生"; "地址"; "证件"]%string);
   (BANK_STATEMENT,
    List.map py ["银行"; "流水"; "转账"; "账户"; "存款"; "取款"; "余额"]%string);
   (INSURANCE_CONTRACT,
    List.map py ["保险"; "合同"; "条款"; "投保"; "受益"; "保费"; "保障"]%string)].

(** The inner loop of [_classify_content]: one point for every keyword
    whose lower-case form occurs in the lower-case content. *)
Fixpoint keyword_score (score : Z) (keywords : list pystr) (content_lower : pystr) : Z :=
  match keywords with
  | [] => score
  | keyword :: rest =>
      keyword_score
        (if str_in (lower keyword) content_lower then score + 1 else score)%Z
        rest content_lower
  end.

(** The dictionary [scores], in insertion order. *)
Definition scores_of (mapping : list (DocumentType * list pystr)) (content : pystr)
  : list (DocumentType * Z) :=
  let content_lower := lower content in
  List.map (fun entry => (fst entry, keyword_score 0 (snd entry) content_lower)) mapping.

(** [scores.get(doc_type)] and [scores[doc_type]]; no key is missing when
    they are called. *)
Fixpoint scores_get (scores : list (DocumentType * Z)) (t : DocumentType) : Z :=
  match scores with
  | [] => 0%Z
  | (t', v) :: rest => if decide (t' = t) then v else scores_get rest t
  end.

(** [max(scores, key=scores.get)]: the keys are visited in order and the
    current best is replaced only by a strictly larger one. *)
Fixpoint max_from (scores : list (DocumentType * Z)) (best : DocumentType)
    (keys : list DocumentType) : DocumentType :=
  match keys with
  | [] => best
  | t :: rest =>
      max_from scores
        (if (scores_get scores best <? scores_get scores t)%Z then t else best) rest
  end.

Definition max_key (scores : list (DocumentType * Z)) : result DocumentType :=
  match List.map fst scores with
  | [] => Raise ValueError
  | t :: rest => Ok (max_from scores t rest)
  end.

Definition _classify_content (content : pystr) : result (DocumentType * Q) :=
  let scores := scores_of keyword_mapping content in
  try predicted_type <- max_key scores;
  let max_score := scores_get scores predicted_type in
  let total_keywords :=
    fold_left Z.add (List.map (fun e => Z.of_nat (length (snd e))) keyword_mapping) 0%Z in
  let confidence :=
    pymin (inject_Z max_score
           / inject_Z (Z.max 1 (total_keywords / Z.of_nat (length keyword_mapping))))
          1 in
  if (max_score =? 0)%Z then Ok (MEDICAL_RECORD, 1 # 10)
  else Ok (predicted_type, confidence).

Definition _get_alternative_types (primary_type : DocumentType) : list DocumentType :=
  let alternatives :=
    List.filter (fun t => negb (bool_decide (t = primary_type))) supported_types in
  firstn 3 alternatives.

(** [classify_document]; the fresh identifier ([uuid4]) and the text read
    from the document are arguments. *)
Definition classify_document (doc_id content : pystr) : result ClassificationResult :=
  try r <- _classify_content content;
  let alternative_types := _get_alternative_types (fst r) in
  Ok {| cr_document_id := doc_id;
        predicted_type := fst r;
        cr_confidence := snd r;
        alternative_types := Some alternative_types |}.

End DocumentClassifier.

(** ** Field extractor (services/keyword_extractor.py) *)

Module KeywordExtractor.

Record FieldDef := {
  name : pystr;
  pattern : pystr;
  description : pystr
}.

Definition fd (n p d : string) : FieldDef :=
  {| name := py n; pattern := py p; description := py d |}.

Definition field_definitions : list (DocumentType * list FieldDef) :=
  [(MEDICAL_RECORD,
    [fd "patient_name" "患者[：:]\s*([^\n\r]+)" "患者姓名";
     fd "diagnosis" "(诊断|初步诊断)[：:]\s*([^\n\r]+)" "诊断结果";
     fd "admission_date"
        "(入院日期|住院日期)[：:]\s*(\d{4}[-年]\d{1,2}[-月]\d{1,2}[日天]?)" "入院日期";
     fd "discharge_date"
        "(出院日期)[：:]\s*(\d{4}[-年]\d{1,2}[-月]\d{1,2}[日天]?)" "出院日期";
     fd "hospital_name" "(医院|医疗机构)[：:]\s*([^\n\r]+)" "医院名称";
     fd "doctor_name" "(主治医师|医生)[：:]\s*([^\n\r]+)" "医生姓名"]);
   (ACCIDENT_REPORT,
    [fd "accident_date"
        "(事故日期|发生时间)[：:]\s*(\d{4}[-年]\d{1,2}[-月]\d{1,2}[日天]?)" "事故日期";
     fd "accident_location" "(事故地点|现场位置)[：:]\s*([^\n\r]+)" "事故地点";
     fd "parties_involved" "(当事人|涉事人员)[：:]\s*([^\n\r]+)" "涉及人员";
     fd "accident_description" "(事故经过|简要描述)[：:]\s*([^\n\r]+)" "事故描述";
     fd "police_station" "(交警队|派出所)[：:]\s*([^\n\r]+)" "执法单位"]);
   (INVOICE,
    [fd "invoice_number" "(发票号码|发票号)[：:]\s*([A-Z\d]+)" "发票号码";
     fd "invoice_amount" "(金额|合计)[：:]\s*([¥￥\$\w]+\d+(?:\.\d+)?)" "发票金额";
     fd "invoice_date"
        "(开票日期|日期)[：:]\s*(\d{4}[-年]\d{1,2}[-月]\d{1,2}[日天]?)" "开票日期";
     fd "provider" "(销售方|收款方|供应商)[：:]\s*([^\n\r]+)" "提供商";
     fd "recipient" "(购买方|付款方|客户)[：:]\s*([^\n\r]+)" "接收方"]);
   (IDENTITY_CARD,
    [fd "name" "姓名[：:]\s*([^\n\r]+)" "姓名";
     fd "id_number" "身份证号[：:]\s*(\d{17}[\dXx])" "身份证号";
     fd "gender" "性别[：:]\s*([^\n\r]+)" "性别";
     fd "birth_date" "出生[：:]\s*(\d{4}[-年]\d{1,2}[-月]\d{1,2}[日天]?)" "出生日期";
     fd "address" "住址[：:]\s*([^\n\r]+)" "地址"]);
   (BANK_STATEMENT,
    [fd "account_number" "(账号|卡号)[：:]\s*([\d\s]+)" "账户号码";
     fd "account_holder" "(户名|账户持有人)[：:]\s*([^\n\r]+)" "账户持有人";
     fd "balance" "(余额|当前余额)[：:]\s*([¥￥\$\w]+\d+(?:\.\d+)?)" "余额";
     fd "statement_period" "(账单期间|对账单期间)[：:]\s*([^\n\r]+)" "账单期间"]);
   (INSURANCE_CONTRACT,
    [fd "policy_number" "(保单号|保险单号)[：:]\s*([A-Z\d]+)" "保单号";
     fd "policy_holder" "(投保人)[：:]\s*([^\n\r]+)" "投保人";
     fd "insured_person" "(被保险人)[：:]\s*([^\n\r]+)" "被保险人";
     fd "coverage_amount" "(保险金额|保额)[：:]\s*([¥￥\$\w]+\d+(?:\.\d+)?)" "保险金额";
     fd "effective_date"
        "(生效日期|保险期间)[：:]\s*(\d{4}[-年]\d{1,2}[-月]\d{1,2}[日天]?)" "生效日期"])].

(** [self.field_definitions[doc_type]] after the membership test. *)
Fixpoint definitions_get (table : list (DocumentType * list FieldDef)) (t : DocumentType)
  : option (list FieldDef) :=
  match table with
  | [] => None
  | (t', defs) :: rest => if decide (t' = t) then Some defs else definitions_get rest t
  end.

(** [matches[0] if isinstance(matches[0], str) else matches[0][-1]] *)
Definition first_value (first : Re.item) : pystr :=
  match first with
  | Re.Str s => s
  | Re.Tuple gs => List.last gs []
  end.

(** The loop of [_extract_fields_by_type] over the field definitions;
    [extracted_fields] is the list built so far. *)
Fixpoint extract_loop (fields_to_extract : list FieldDef) (content : pystr)
    (extracted_fields : list ExtractedField) : result (list ExtractedField) :=
  match fields_to_extract with
  | [] => Ok extracted_fields
  | field_def :: rest =>
      try matches <- Re.findall (pattern field_def) content true;
      match matches with
      | first :: _ =>
          let field_value := first_value first in
          let confidence := (9 # 10)%Q in
          let extracted_field :=
            {| field_name := name field_def;
               field_value := strip field_value;
               confidence := confidence;
               page_number := None;
               position := None |} in
          extract_loop rest content (extracted_fields ++ [extracted_field])
      | [] => extract_loop rest content extracted_fields
      end
  end.

Definition _extract_fields_by_type (content : pystr) (doc_type : DocumentType)
  : result (list ExtractedField) :=
  match definitions_get field_definitions doc_type with
  | None => Ok []
  | Some fields_to_extract => extract_loop fields_to_extract content []
  end.

Definition _calculate_extraction_accuracy (extracted_fields : list ExtractedField) : Q :=
  match extracted_fields with
  | [] => 0
  | _ =>
      let total_confidence :=
        fold_left Qplus (List.map confidence extracted_fields) 0 in
      let avg_confidence :=
        total_confidence / inject_Z (Z.of_nat (length extracted_fields)) in
      let ideal_field_count := 5 in
      let field_ratio :=
        pymin (inject_Z (Z.of_nat (length extracted_fields)) / ideal_field_count) 1 in
      avg_confidence * (7 # 10) + field_ratio * (3 # 10)
  end%Q.

(** [extract_from_document]; the fresh identifier and the text of the
    document are arguments. *)
Definition extract_from_document (doc_id content : pystr) (document_type : DocumentType)
  : result ExtractionResult :=
  try extracted_fields <- _extract_fields_by_type content document_type;
  let accuracy := _calculate_extraction_accuracy extracted_fields in
  Ok {| er_document_id := doc_id;
        extracted_fields := extracted_fields;
        extraction_accuracy := accuracy |}.

End KeywordExtractor.

Definition field (n v : string) : ExtractedField :=
  {| field_name := py n; field_value := py v; confidence := 9 # 10;
     page_number := None; position := None |}.

(** The text returned for a document that is not a text file. *)
Definition simulated_content (document_path : pystr) : pystr :=
  py "模拟文档内容来自: " ++ document_path ++ [LF] ++ py "患者：张三" ++ [LF]
  ++ py "诊断：急性阑尾炎" ++ [LF] ++ py "入院日期：2023年10月5日" ++ [LF]
  ++ py "出院日期：2023年10月10日" ++ [LF] ++ py "医院：XX市人民医院" ++ [LF]
  ++ py "主治医师：李医生" ++ [LF] ++ py "发票号码：12345678" ++ [LF]
  ++ py "发票金额：¥5000.00" ++ [LF] ++ py "开票日期：2023年10月10日".

(** ** Dates ([datetime]) *)

Module Datetime.
Local Open Scope Z_scope.

Record datetime := {
  year : Z; month : Z; day : Z;
  hour : Z; minute : Z; second : Z; microsecond : Z
}.

Definition is_leap (y : Z) : bool :=
  (y mod 4 =? 0) && (negb (y mod 100 =? 0) || (y mod 400 =? 0)).

Definition days_in_month (y m : Z) : Z :=
  if m =? 2 then (if is_leap y then 29 else 28)
  else if (m =? 4) || (m =? 6) || (m =? 9) || (m =? 11) then 30
  else 31.

Definition days_before_year (y : Z) : Z :=
  let p := y - 1 in p * 365 + p / 4 - p / 100 + p / 400.

Definition days_before_month (y m : Z) : Z :=
  nth (Z.to_nat (m - 1)) [0; 31; 59; 90; 120; 151; 181; 212; 243; 273; 304; 334] 0
  + (if (2 <? m) && is_leap y then 1 else 0).

(** [d.toordinal()]: day 1 is 1 January of year 1. *)
Definition toordinal (d : datetime) : Z :=
  days_before_year (year d) + days_before_month (year d) (month d) + day d.

Definition microseconds_of_day (d : datetime) : Z :=
  ((hour d * 60 + minute d) * 60 + second d) * 1000000 + microsecond d.

(** [(a - b).days]: the difference is normalised so that its seconds and
    microseconds are not negative. *)
Definition sub_days (a b : datetime) : Z :=
  ((toordinal a - toordinal b) * 86400000000
   + (microseconds_of_day a - microseconds_of_day b)) / 86400000000.

(** The regular expression that [strptime] builds for the format
    ["%Y-%m-%d"]. *)
Definition format_regex : pystr :=
  py "(\d\d\d\d)-(1[0-2]|0[1-9]|[1-9])-(3[0-1]|[1-2]\d|0[1-9]|[1-9]| [1-9])".

(** [datetime.strptime(s, "%Y-%m-%d")]: the whole string has to match and
    the date has to exist. *)
Definition strptime (s : pystr) : result datetime :=
  match Re.compile format_regex with
  | Some (r, _) =>
      match Re.match_here true r false s with
      | Some (m, []) =>
          let g := Re.group (Re.m_caps m) in
          match digits_value 0 (g 1%nat), digits_value 0 (g 2%nat),
                digits_value 0 (strip (g 3%nat)) with
          | Some y, Some mo, Some d =>
              let y := Z.of_N y in
              let mo := Z.of_N mo in
              let d := Z.of_N d in
              if (1 <=? y) && (1 <=? d) && (d <=? days_in_month y mo)
              then Ok {| year := y; month := mo; day := d;
                         hour := 0; minute := 0; second := 0; microsecond := 0 |}
              else Raise ValueError
          | _, _, _ => Raise ValueError
          end
      | _ => Raise ValueError
      end
  | None => Raise ReError
  end.

End Datetime.
Import Datetime.

(** ** Liability evaluator (services/liability_evaluator.py) *)

Module LiabilityEvaluator.

(** A value of the [limits] dictionary of a policy. *)
Inductive pyval :=
| VNum (q : Q)
| VStr (s : pystr).

Record PolicyTerms := {
  name : pystr;
  coverage : list pystr;
  exclusions : list pystr;
  limits : list (pystr * pyval);
  waiting_period : Z
}.

Definition health_insurance_basic : PolicyTerms :=
  {| name := py "基本医疗保险";
     coverage := List.map py ["住院费用"; "手术费用"; "药品费用(医保目录内)"]%string;
     exclusions := List.map py ["既往症"; "美容手术"; "牙科治疗"; "生育相关"]%string;
     limits := [(py "年度报销上限", VNum 100000);
                (py "单次住院上限", VNum 30000);
                (py "自付比例", VNum (1 # 10))];
     waiting_period := 30 |}.

Definition accident_insurance : PolicyTerms :=
  {| name := py "意外伤害保险";
     coverage := List.map py ["意外身故"; "意外伤残"; "意外医疗费用"]%string;
     exclusions := List.map py ["自杀"; "酒驾"; "战争"; "高风险运动"]%string;
     limits := [(py "意外身故", VNum 500000);
                (py "意外医疗", VNum 50000);
                (py "伤残给付比例", VStr (py "按伤残等级"))];
     waiting_period := 0 |}.

(** The policy terms library, a dictionary from product key to terms. *)
Definition policy_terms_db : list (pystr * PolicyTerms) :=
  [(py "health_insurance_basic", health_insurance_basic);
   (py "accident_insurance", accident_insurance)].

(** Lookup in a dictionary written as an association list. *)
Fixpoint assoc {V} (key : pystr) (d : list (pystr * V)) : option V :=
  match d with
  | [] => None
  | (k, v) :: rest => if decide (k = key) then Some v else assoc key rest
  end.

(** One entry of the merged fields: [{'value': ..., 'confidence': ...}]. *)
Record FieldEntry := {
  value : pystr;
  entry_confidence : Q
}.

(** [fields.get(key, {}).get("value", default)] *)
Definition get_value (fields : gmap pystr FieldEntry) (key : string) (default : pystr)
  : pystr :=
  match fields !! py key with
  | Some e => value e
  | None => default
  end.

(** The mock of the claim store: no extraction and no classification
    result, whatever the claim. *)
Definition _get_claim_data (claim_id : pystr)
  : list ExtractionResult * list ClassificationResult :=
  ([], []).

Definition _merge_extraction_results (extraction_results : list ExtractionResult)
  : gmap pystr FieldEntry :=
  fold_left
    (fun merged_fields result =>
       fold_left
         (fun merged_fields field =>
            <[field_name field :=
                {| value := field_value field;
                   entry_confidence := confidence field |}]> merged_fields)
         (extracted_fields result) merged_fields)
    extraction_results ∅.

(** [if contract_terms:] is false for [None] and for the empty string. *)
Definition truthy (contract_terms : option pystr) : bool :=
  match contract_terms with
  | Some (_ :: _) => true
  | _ => false
  end.

Definition db_get (key : string) : result PolicyTerms :=
  match assoc (py key) policy_terms_db with
  | Some p => Ok p
  | None => Raise KeyError
  end.

Definition _parse_policy_terms (contract_terms : option pystr) : result PolicyTerms :=
  if truthy contract_terms
  then db_get "health_insurance_basic"
  else db_get "health_insurance_basic".

Definition nonempty {A} (l : list A) : bool :=
  match l with
  | [] => false
  | _ => true
  end.

Definition _check_coverage (fields : gmap pystr FieldEntry) (policy_info : PolicyTerms)
  : bool * list pystr :=
  let issues : list pystr := [] in
  let _ :=
    if bool_decide (is_Some (fields !! py "incident_date"))
       && (0 <? waiting_period policy_info)%Z
    then tt else tt in
  let diagnosis := get_value fields "diagnosis" [] in
  if nonempty diagnosis then
    let coverage_items := coverage policy_info in
    let is_covered := true in
    (is_covered, issues)
  else
    let is_covered := false in
    (is_covered, issues ++ [py "缺少诊断信息，无法确认是否在保障范围内"]).

Definition _check_exclusions (fields : gmap pystr FieldEntry) (policy_info : PolicyTerms)
  : list pystr :=
  let exclusions := exclusions policy_info in
  let diagnosis := lower (get_value fields "diagnosis" []) in
  let treatment := lower (get_value fields "treatment_details" []) in
  fold_left
    (fun exclusion_factors exclusion =>
       if str_in (lower exclusion) diagnosis || str_in (lower exclusion) treatment
       then exclusion_factors ++ [exclusion]
       else exclusion_factors)
    exclusions [].

(** [int(s)] for a string accepted by [isdigit]: digits that are not
    decimal digits are refused, and so is a numeral of more than 4300
    digits, the limit that the interpreter puts on the conversion of a
    string to an int. *)
Definition pyint (s : pystr) : result Z :=
  match s with
  | [] => Raise ValueError
  | _ =>
      if (4300 <? Z.of_nat (length s))%Z then Raise ValueError
      else
        match digits_value 0 s with
        | Some n => Ok (Z.of_N n)
        | None => Raise ValueError
        end
  end.

(** The [try] block of [_check_gender_age_inconsistency]: the age in
    years at the time [now]. *)
Definition age_from_birth_date (now : datetime) (birth_date : pystr) : result Z :=
  try birth_dt <-
    strptime (replace (py "日") []
                (replace (py "月") (py "-") (replace (py "年") (py "-") birth_date)));
  Ok (sub_days now birth_dt / 365)%Z.

Definition _check_gender_age_inconsistency (now : datetime)
    (fields : gmap pystr FieldEntry) : result bool :=
  let gender := lower (get_value fields "gender" []) in
  let age_str := get_value fields "age" [] in
  let check (age : Z) : result bool :=
    if str_in (py "女") gender && (age <? 18)%Z then
      let diagnosis := lower (get_value fields "diagnosis" []) in
      if existsb (fun keyword => str_in keyword diagnosis)
           (List.map py ["孕"; "产"; "妇科"]%string)
      then Ok true
      else Ok false
    else Ok false in
  if negb (isdigit age_str) then
    let birth_date := get_value fields "birth_date" [] in
    if nonempty birth_date then
      match age_from_birth_date now birth_date with
      | Ok age => check age
      | Raise _ => Ok false
      end
    else Ok false
  else
    try age <- pyint age_str;
    check age.

Definition _check_pre_existing_conditions (fields : gmap pystr FieldEntry) : bool :=
  let medical_history := lower (get_value fields "medical_history" []) in
  let diagnosis := lower (get_value fields "diagnosis" []) in
  if nonempty medical_history && nonempty diagnosis
  then str_in diagnosis medical_history
  else false.

(** [float(s)] for an unsigned decimal numeral: digits, optionally a
    point and digits, with at least one digit. *)
Fixpoint split_point (s : pystr) : pystr * option pystr :=
  match s with
  | [] => ([], None)
  | c :: s' =>
      if c =? 46 then ([], Some s')
      else let (a, b) := split_point s' in (c :: a, b)
  end.

Fixpoint pow10 (n : nat) : positive :=
  match n with
  | O => 1%positive
  | S k => (10 * pow10 k)%positive
  end.

Definition pyfloat (s : pystr) : result Q :=
  let (int_part, frac) := split_point s in
  let frac_part := default [] frac in
  match int_part ++ frac_part with
  | [] => Raise ValueError
  | digits =>
      match digits_value 0 digits with
      | Some n => Ok (Qmake (Z.of_N n) (pow10 (length frac_part)))
      | None => Raise ValueError
      end
  end.

Definition number_pattern : pystr := py "\d+(?:\.\d+)?".

(** The amount read from the invoice-amount field, as both
    [_calculate_recommended_payout] and [_check_abnormal_cost] do:
    [None] when the text holds no number. *)
Definition first_number (invoice_amount_str : pystr) : result (option Q) :=
  try numbers <- Re.findall number_pattern (replace (py ",") [] invoice_amount_str) false;
  match numbers with
  | Re.Str n :: _ => try x <- pyfloat n; Ok (Some x)
  | Re.Tuple _ :: _ => Raise TypeError
  | [] => Ok None
  end.

Definition _check_abnormal_cost (fields : gmap pystr FieldEntry) : result bool :=
  let invoice_amount_str := get_value fields "invoice_amount" (py "0") in
  try numbers <- first_number invoice_amount_str;
  match numbers with
  | Some amount => Ok (qlt 20000 amount)
  | None => Ok false
  end.

Definition _check_medication_diagnosis_match (fields : gmap pystr FieldEntry) : bool :=
  let diagnosis := lower (get_value fields "diagnosis" []) in
  let medications := lower (get_value fields "medications" []) in
  if str_in (py "抗生素") medications
     && negb (str_in (py "感染") diagnosis)
     && negb (str_in (py "炎症") diagnosis)
  then true
  else false.

Record RiskRule := {
  rule_name : pystr;
  condition : datetime -> gmap pystr FieldEntry -> result bool;
  severity : pystr;
  rule_description : pystr
}.

Record RiskFactor := {
  rf_name : pystr;
  rf_severity : pystr;
  rf_description : pystr
}.

Definition risk_rules : list RiskRule :=
  [{| rule_name := py "性别年龄不符";
      condition := fun now fields => _check_gender_age_inconsistency now fields;
      severity := py "high";
      rule_description := py "被保险人性别与年龄不匹配" |};
   {| rule_name := py "既往症检测";
      condition := fun _ fields => Ok (_check_pre_existing_conditions fields);
      severity := py "high";
      rule_description := py "疑似既往症" |};
   {| rule_name := py "费用异常高";
      condition := fun _ fields => _check_abnormal_cost fields;
      severity := py "medium";
      rule_description := py "费用超出合理范围" |};
   {| rule_name := py "诊断与用药不符";
      condition := fun _ fields => Ok (_check_medication_diagnosis_match fields);
      severity := py "high";
      rule_description := py "药物与诊断不匹配" |}].

Fixpoint apply_rules (rules : list RiskRule) (now : datetime)
    (fields : gmap pystr FieldEntry) (risk_factors : list RiskFactor)
  : result (list RiskFactor) :=
  match rules with
  | [] => Ok risk_factors
  | rule :: rest =>
      try fired <- condition rule now fields;
      apply_rules rest now fields
        (if fired
         then risk_factors ++ [{| rf_name := rule_name rule;
                                  rf_severity := severity rule;
                                  rf_description := rule_description rule |}]
         else risk_factors)
  end.

Definition _apply_risk_rules (now : datetime) (fields : gmap pystr FieldEntry)
  : result (list RiskFactor) :=
  apply_rules risk_rules now fields [].

(** A numeric limit of the policy: [None] when the key is missing, an
    error when the value is not a number. *)
Definition limit_number (limits : list (pystr * pyval)) (key : string)
  : result (option Q) :=
  match assoc (py key) limits with
  | None => Ok None
  | Some (VNum q) => Ok (Some q)
  | Some (VStr _) => Raise TypeError
  end.

Definition _calculate_recommended_payout (fields : gmap pystr FieldEntry)
    (policy_info : PolicyTerms) (coverage_applicable : bool)
    (exclusion_factors : list pystr) : result Q :=
  if negb coverage_applicable || nonempty exclusion_factors then Ok 0%Q
  else
    let invoice_amount_str := get_value fields "invoice_amount" (py "0") in
    try numbers <- first_number invoice_amount_str;
    let invoice_amount := match numbers with Some x => x | None => 0%Q end in
    let limits := limits policy_info in
    (* the default of the upper limit is float('inf'): no cap *)
    try max_coverage <- limit_number limits "年度报销上限";
    try ratio <- limit_number limits "自付比例";
    let self_pay_ratio := match ratio with Some x => x | None => 0%Q end in
    let payout := (invoice_amount * (1 - self_pay_ratio))%Q in
    let payout := match max_coverage with Some m => pymin payout m | None => payout end in
    Ok (round2 payout).

Definition _calculate_evaluation_confidence (coverage_applicable : bool)
    (exclusion_count risk_count : Z) : Q :=
  let base_confidence := (9 # 10)%Q in
  let base_confidence :=
    if negb coverage_applicable then (base_confidence - (3 # 10))%Q
    else base_confidence in
  let base_confidence :=
    if (0 <? exclusion_count)%Z
    then (base_confidence - (2 # 10) * inject_Z exclusion_count)%Q
    else base_confidence in
  let base_confidence :=
    if (0 <? risk_count)%Z
    then (base_confidence - (1 # 10) * inject_Z risk_count)%Q
    else base_confidence in
  pymax base_confidence (1 # 10).

Definition _generate_evaluation_reasons (coverage_applicable : bool)
    (coverage_issues exclusion_factors : list pystr) (risk_factors : list RiskFactor)
  : list pystr :=
  let reasons :=
    if coverage_applicable then [py "案件在保险保障范围内"]
    else [py "案件可能不在保障范围内"] ++ coverage_issues in
  let reasons :=
    if nonempty exclusion_factors
    then reasons ++ [py "发现" ++ str_of_nat (length exclusion_factors)
                     ++ py "个免责因素: " ++ join (py ", ") exclusion_factors]
    else reasons in
  let reasons :=
    if nonempty risk_factors
    then
      let risk_names := List.map rf_name risk_factors in
      reasons ++ [py "检测到" ++ str_of_nat (length risk_factors)
                  ++ py "个风险点: " ++ join (py ", ") risk_names]
    else reasons in
  if negb (nonempty coverage_issues) && negb (nonempty exclusion_factors)
     && negb (nonempty risk_factors)
  then reasons ++ [py "未发现明显风险或免责情况"]
  else reasons.

Definition len {A} (l : list A) : Z := Z.of_nat (length l).

(** The body of [evaluate_claim] from the merged fields on: the rule
    engine proper. [now] is the reading of the clock. *)
Definition evaluate (now : datetime) (all_extracted_fields : gmap pystr FieldEntry)
    (contract_terms : option pystr) : result LiabilityEvaluation :=
  try policy_info <- _parse_policy_terms contract_terms;
  let '(coverage_applicable, coverage_issues) :=
    _check_coverage all_extracted_fields policy_info in
  let exclusion_factors := _check_exclusions all_extracted_fields policy_info in
  try risk_factors <- _apply_risk_rules now all_extracted_fields;
  try recommended_payout <-
    _calculate_recommended_payout all_extracted_fields policy_info
      coverage_applicable exclusion_factors;
  let confidence :=
    _calculate_evaluation_confidence coverage_applicable
      (len exclusion_factors) (len risk_factors) in
  let evaluation_reasons :=
    _generate_evaluation_reasons coverage_applicable coverage_issues
      exclusion_factors risk_factors in
  try coverage_limit <-
    match assoc (py "年度报销上限") (limits policy_info) with
    | None => Ok None
    | Some (VNum q) => Ok (Some q)
    | Some (VStr _) => Raise ValidationError
    end;
  Ok {| coverage_applicable := coverage_applicable;
        exclusion_factors := exclusion_factors;
        coverage_limit := coverage_limit;
        recommended_payout := recommended_payout;
        evaluation_reasons := evaluation_reasons;
        le_confidence := confidence |}.

Definition evaluate_claim (now : datetime) (claim_id : pystr)
    (contract_terms : option pystr) : result LiabilityEvaluation :=
  let '(extraction_results, classification_results) := _get_claim_data claim_id in
  let all_extracted_fields := _merge_extraction_results extraction_results in
  evaluate now all_extracted_fields contract_terms.

End LiabilityEvaluator.

Import LiabilityEvaluator.

(** A merged field map from (name, value) pairs, all of confidence 0.9. *)
Definition fields_of (l : list (string * string)) : gmap pystr FieldEntry :=
  list_to_map
    (List.map (fun p => (py (fst p), {| value := py (snd p); entry_confidence := 9 # 10 |})) l).

Definition noon (y m d : Z) : datetime :=
  {| year := y; month := m; day := d; hour := 12; minute := 0; second := 0;
     microsecond := 0 |}.


(** ** Notions of the specification

    Definitions that follow the words of the specification; the
    properties below compare them with the code. *)

Module Spec.

(** "occur as case-insensitive substrings anywhere in text": some part of
    the text equals the keyword up to case. *)
Definition occurs_ci (keyword text : pystr) : Prop :=
  exists before found after,
    text = before ++ found ++ after /\ lower found = lower keyword.

(** The same, decided by looking at every window of the text that has
    the length of the keyword. *)
Definition occurs_ci_b (keyword text : pystr) : bool :=
  existsb
    (fun i => bool_decide (lower (firstn (length keyword) (skipn i text)) = lower keyword))
    (seq 0 (S (length text))).

(** The configured keywords of a document type. *)
Fixpoint keywords_in (table : list (DocumentType * list pystr)) (t : DocumentType)
  : list pystr :=
  match table with
  | [] => []
  | (t', kws) :: rest => if decide (t' = t) then kws else keywords_in rest t
  end.

Definition keywords_of (t : DocumentType) : list pystr :=
  keywords_in DocumentClassifier.keyword_mapping t.

(** "score = count of its configured keywords that occur as
    case-insensitive substrings anywhere in text" *)
Definition presence_score (t : DocumentType) (text : pystr) : Z :=
  Z.of_nat (length (List.filter (fun kw => occurs_ci_b kw text) (keywords_of t))).

(** Position of a document type in the enumeration. *)
Definition enum_index (t : DocumentType) : nat :=
  match t with
  | MEDICAL_RECORD => 0
  | ACCIDENT_REPORT => 1
  | INVOICE => 2
  | IDENTITY_CARD => 3
  | BANK_STATEMENT => 4
  | INSURANCE_CONTRACT => 5
  end.

End Spec.

Module ExtractorSpec.

Import KeywordExtractor.

(** The field definitions configured for a document type. *)
Definition definitions_of (t : DocumentType) : list FieldDef :=
  default [] (definitions_get field_definitions t).

(** The text that becomes the value of a field, before trimming: the
    last group of the match when the pattern has groups, the whole match
    when it has none. *)
Definition selected_text (ngroups : nat) (m : Re.rematch) : pystr :=
  match ngroups with
  | O => Re.m_text m
  | _ => Re.group (Re.m_caps m) ngroups
  end.

(** The field obtained from the first match of the pattern of a
    definition, if the pattern matches at all. *)
Definition field_of_first_match (content : pystr) (d : FieldDef) : list ExtractedField :=
  match Re.compile (pattern d) with
  | Some (r, g) =>
      match Re.search true r content with
      | Some m =>
          [{| field_name := name d;
              field_value := strip (selected_text g m);
              confidence := 9 # 10;
              page_number := None;
              position := None |}]
      | None => []
      end
  | None => []
  end.

(** The pattern of a definition matches somewhere in the text. *)
Definition has_match (content : pystr) (d : FieldDef) : bool :=
  match Re.compile (pattern d) with
  | Some (r, _) =>
      match Re.search true r content with
      | Some _ => true
      | None => false
      end
  | None => false
  end.

(** The pattern of a definition is accepted by [re.compile]. *)
Definition compiles (d : FieldDef) : Prop := Re.compile (pattern d) <> None.

(** A string without white space at either end. *)
Definition trimmed (s : pystr) : Prop :=
  (forall c rest, s = c :: rest -> is_space c = false)
  /\ (forall c front, s = front ++ [c] -> is_space c = false).

End ExtractorSpec.

Module EvaluatorSpec.

(** All extracted fields of a claim, in processing order. *)
Definition fields_in_order (results : list ExtractionResult) : list ExtractedField :=
  flat_map extracted_fields results.

(** The last field of a list that has the given name. *)
Fixpoint last_with_name (n : pystr) (fs : list ExtractedField) : option ExtractedField :=
  match fs with
  | [] => None
  | f :: rest =>
      match last_with_name n rest with
      | Some g => Some g
      | None => if decide (field_name f = n) then Some f else None
      end
  end.

(** The entry of the merged map written for a field. *)
Definition entry_of (f : ExtractedField) : FieldEntry :=
  {| value := field_value f; entry_confidence := confidence f |}.

(** One assignment [merged_fields[field.field_name] = {...}]. *)
Definition write (merged_fields : gmap pystr FieldEntry) (f : ExtractedField)
  : gmap pystr FieldEntry :=
  <[field_name f := entry_of f]> merged_fields.

(** "removing thousands separators" *)
Definition remove_commas (s : pystr) : pystr :=
  List.filter (fun c => negb (c =? 44)) s.

(** The longest prefix of decimal digits, and what follows it. *)
Fixpoint take_digits (s : pystr) : pystr * pystr :=
  match s with
  | [] => ([], [])
  | c :: s' =>
      if is_decimal c
      then let (ds, rest) := take_digits s' in (c :: ds, rest)
      else ([], s)
  end.

(** "the first numeric token (integer or decimal)": the digits found at
    the first decimal digit of the text, with the digits that follow a
    decimal point, if there are any; [None] without a digit. *)
Fixpoint first_numeric_token (s : pystr) : option (pystr * pystr) :=
  match s with
  | [] => None
  | c :: s' =>
      if is_decimal c then
        let (int_part, rest) := take_digits s in
        match rest with
        | 46 :: after_point => Some (int_part, fst (take_digits after_point))
        | _ => Some (int_part, [])
        end
      else first_numeric_token s'
  end.

(** The text of a token. *)
Definition token_text (tok : pystr * pystr) : pystr :=
  match snd tok with
  | [] => fst tok
  | frac_part => fst tok ++ 46 :: frac_part
  end.

Definition digits_to_N (s : pystr) : N :=
  fold_left (fun acc c => 10 * acc + default 0 (decimal_value c)) s 0.

(** The number written by a token. *)
Definition numeral_value (tok : pystr * pystr) : Q :=
  Qmake (Z.of_N (digits_to_N (fst tok ++ snd tok))) (pow10 (length (snd tok))).

(** The parsed invoice amount: "missing or unparseable amount defaults
    to 0". *)
Definition invoice_amount (fields : gmap pystr FieldEntry) : Q :=
  match fields !! py "invoice_amount" with
  | Some e =>
      match first_numeric_token (remove_commas (value e)) with
      | Some tok => numeral_value tok
      | None => 0
      end
  | None => 0
  end.

(** The syntax tree of the pattern [\d+(?:\.\d+)?]. *)
Definition digit_set : Re.regex := Re.RSet false [Re.CDigit].

Definition number_regex : Re.regex :=
  Re.RSeq (Re.RRep 1 None digit_set)
    (Re.RRep 0 (Some 1%nat) (Re.RSeq (Re.RChar 46) (Re.RRep 1 None digit_set))).

(** [y] is [x] "rounded to 2 decimal places". *)
Definition rounded_to_cents (x y : Q) : Prop :=
  (exists n : Z, y = Qmake n 100)
  /\ (- (1 # 200) <= y - x)%Q /\ (y - x <= 1 # 200)%Q.

(** The confidence rule: "start at 0.9; subtract 0.3 if not covered;
    subtract 0.2 per exclusion factor; subtract 0.1 per triggered risk
    rule; floor the result at 0.1". *)
Definition confidence_rule (covered : bool) (exclusions risks : nat) : Q :=
  Qmax ((9 # 10) - (if covered then 0 else 3 # 10)
        - (2 # 10) * inject_Z (Z.of_nat exclusions)
        - (1 # 10) * inject_Z (Z.of_nat risks))
       (1 # 10).

(** The part of the evaluation that does not read the clock, for the
    default policy: everything but the triggered risk factors. *)
Definition covered (fields : gmap pystr FieldEntry) : bool :=
  nonempty (get_value fields "diagnosis" []).

Definition payout_rule (fields : gmap pystr FieldEntry) (covered : bool)
    (exclusion_factors : list pystr) (ratio limit : Q) : Q :=
  if negb covered || nonempty exclusion_factors then 0
  else round2 (Qmin (invoice_amount fields * (1 - ratio)) limit).

End EvaluatorSpec.

(** * The rest of the services and the API layer *)

(** ** Documents of a claim (document_classifier.py, keyword_extractor.py) *)

Module Documents.

(** The file system: the text read at a path, or the exception raised. *)
Definition filesystem := pystr -> result pystr.

(** [s.endswith(suffix)] *)
Definition endswith (suffix s : pystr) : bool := startswith (rev suffix) (rev s).

(** [os.path.basename(p)] on POSIX paths: what follows the last slash. *)
Fixpoint basename (p : pystr) : pystr :=
  match p with
  | [] => []
  | _ :: p' => if existsb (N.eqb 47) p then basename p' else p
  end.

(** The stream of identifiers returned by [uuid.uuid4()], by rank. *)
Definition uuids := nat -> pystr.

Module Classifier.

Import DocumentClassifier.

Definition _extract_text_from_document (fs : filesystem) (document_path : pystr)
  : result pystr :=
  if endswith (py ".txt") document_path then fs document_path
  else Ok (py "模拟文档内容来自: " ++ basename document_path).

(** [classify_document] of the source, from the path of the document;
    [doc_id] is the identifier drawn for it. *)
Definition classify_document_at (fs : filesystem) (doc_id document_path : pystr)
  : result ClassificationResult :=
  try content <- _extract_text_from_document fs document_path;
  classify_document doc_id content.

Definition _get_claim_documents (claim_id : pystr) : list pystr :=
  List.map (fun i => py "/tmp/claims/" ++ claim_id ++ py "/doc_" ++ str_of_nat i ++ py ".pdf")
    [1; 2; 3]%nat.

(** The loop of [classify_claim_documents]; [rank] counts the identifiers
    drawn so far. *)
Fixpoint classify_loop (fs : filesystem) (fresh : uuids) (rank : nat)
    (document_paths : list pystr) (classification_results : list ClassificationResult)
  : result (list ClassificationResult) :=
  match document_paths with
  | [] => Ok classification_results
  | doc_path :: rest =>
      try r <- classify_document_at fs (fresh rank) doc_path;
      classify_loop fs fresh (S rank) rest (classification_results ++ [r])
  end.

(** [classify_claim_documents]; saving the results only prints a line. *)
Definition classify_claim_documents (fs : filesystem) (fresh : uuids) (claim_id : pystr)
  : result (list ClassificationResult) :=
  let document_paths := _get_claim_documents claim_id in
  classify_loop fs fresh O document_paths [].

End Classifier.

Module Extractor.

Import KeywordExtractor.

Definition _extract_text_from_document (fs : filesystem) (document_path : pystr)
  : result pystr :=
  if endswith (py ".txt") document_path then fs document_path
  else Ok (simulated_content document_path).

(** [extract_from_document] of the source, from the path of the
    document. *)
Definition extract_from_document_at (fs : filesystem) (doc_id document_path : pystr)
    (document_type : DocumentType) : result ExtractionResult :=
  try content <- _extract_text_from_document fs document_path;
  extract_from_document doc_id content document_type.

Definition _get_claim_documents_with_types (claim_id : pystr)
  : list (pystr * DocumentType) :=
  [(py "/tmp/claims/" ++ claim_id ++ py "/medical_record.pdf", MEDICAL_RECORD);
   (py "/tmp/claims/" ++ claim_id ++ py "/invoice.pdf", INVOICE);
   (py "/tmp/claims/" ++ claim_id ++ py "/contract.pdf", INSURANCE_CONTRACT)].

Fixpoint extract_loop_docs (fs : filesystem) (fresh : uuids) (rank : nat)
    (documents_info : list (pystr * DocumentType))
    (extraction_results : list ExtractionResult) : result (list ExtractionResult) :=
  match documents_info with
  | [] => Ok extraction_results
  | (doc_path, doc_type) :: rest =>
      try r <- extract_from_document_at fs (fresh rank) doc_path doc_type;
      extract_loop_docs fs fresh (S rank) rest (extraction_results ++ [r])
  end.

(** [extract_claim_information]; saving the results only prints a line. *)
Definition extract_claim_information (fs : filesystem) (fresh : uuids) (claim_id : pystr)
  : result (list ExtractionResult) :=
  let documents_info := _get_claim_documents_with_types claim_id in
  extract_loop_docs fs fresh O documents_info [].

End Extractor.

End Documents.

(** ** API endpoints (api/claims.py)

    The endpoints act on the dictionary [claims_storage]; each one is a
    function from the storage to the new storage and the answer. A
    background task is returned with the answer and run afterwards. *)

Module Api.

Import Documents.

Inductive ClaimStatus :=
| UPLOADED
| CLASSIFYING
| EXTRACTING
| EVALUATING
| COMPLETED
| REJECTED.

(** A claim record, as [ClaimModel.dict()] stores it. *)
Record ClaimModel := {
  id : pystr;
  status : ClaimStatus;
  documents : list pystr;
  policy_holder : option pystr;
  insured_person : option pystr;
  incident_date : option datetime;
  claim_amount : option Q;
  classification_results : option (list ClassificationResult);
  extraction_results : option (list ExtractionResult);
  liability_evaluation : option LiabilityEvaluation;
  created_at : datetime;
  updated_at : datetime
}.

(** [claim_data["status"] = s] and the other assignments to a record. *)
Definition set_status (c : ClaimModel) (s : ClaimStatus) : ClaimModel :=
  {| id := id c; status := s; documents := documents c;
     policy_holder := policy_holder c; insured_person := insured_person c;
     incident_date := incident_date c; claim_amount := claim_amount c;
     classification_results := classification_results c;
     extraction_results := extraction_results c;
     liability_evaluation := liability_evaluation c;
     created_at := created_at c; updated_at := updated_at c |}.

Definition set_classification_results (c : ClaimModel) (r : list ClassificationResult)
  : ClaimModel :=
  {| id := id c; status := status c; documents := documents c;
     policy_holder := policy_holder c; insured_person := insured_person c;
     incident_date := incident_date c; claim_amount := claim_amount c;
     classification_results := Some r;
     extraction_results := extraction_results c;
     liability_evaluation := liability_evaluation c;
     created_at := created_at c; updated_at := updated_at c |}.

Definition set_extraction_results (c : ClaimModel) (r : list ExtractionResult)
  : ClaimModel :=
  {| id := id c; status := status c; documents := documents c;
     policy_holder := policy_holder c; insured_person := insured_person c;
     incident_date := incident_date c; claim_amount := claim_amount c;
     classification_results := classification_results c;
     extraction_results := Some r;
     liability_evaluation := liability_evaluation c;
     created_at := created_at c; updated_at := updated_at c |}.

Definition set_liability_evaluation (c : ClaimModel) (e : LiabilityEvaluation)
  : ClaimModel :=
  {| id := id c; status := status c; documents := documents c;
     policy_holder := policy_holder c; insured_person := insured_person c;
     incident_date := incident_date c; claim_amount := claim_amount c;
     classification_results := classification_results c;
     extraction_results := extraction_results c;
     liability_evaluation := Some e;
     created_at := created_at c; updated_at := updated_at c |}.

(** How a call can fail: an [HTTPException], or an exception that
    nothing catches. *)
Inductive failure :=
| HTTPException (status_code : Z) (detail : pystr)
| Uncaught (e : exn).

Inductive outcome (A : Type) :=
| Done (a : A)
| Fail (f : failure).
Arguments Done {A} a.
Arguments Fail {A} f.

Inductive task :=
| PerformClassification (claim_id : pystr)
| PerformExtraction (claim_id : pystr).

Definition not_found {A} : outcome A :=
  Fail (HTTPException 404 (py "理赔记录不存在")).

Record UploadResponse := {
  up_claim_id : pystr;
  up_message : pystr;
  document_count : Z
}.

(** [upload_claim_documents]; [claim_id] is the identifier drawn and
    [filenames] the names of the uploaded files. The defaults of
    [created_at] and [updated_at] are two readings of the clock made when
    the model class is defined: [created_default] and [updated_default]. *)
Definition upload_claim_documents (created_default updated_default : datetime)
    (claim_id : pystr) (filenames : list pystr) (claims_storage : gmap pystr ClaimModel)
  : gmap pystr ClaimModel * UploadResponse :=
  let file_paths :=
    List.map (fun filename => py "uploads/" ++ claim_id ++ py "/" ++ filename) filenames in
  let claim :=
    {| id := claim_id; status := UPLOADED; documents := file_paths;
       policy_holder := None; insured_person := None; incident_date := None;
       claim_amount := None; classification_results := None;
       extraction_results := None; liability_evaluation := None;
       created_at := created_default; updated_at := updated_default |} in
  (<[claim_id := claim]> claims_storage,
   {| up_claim_id := claim_id;
      up_message := py "文档上传成功";
      document_count := len filenames |}).

Definition get_claim (claim_id : pystr) (claims_storage : gmap pystr ClaimModel)
  : outcome ClaimModel :=
  match claims_storage !! claim_id with
  | None => not_found
  | Some claim_data => Done claim_data
  end.

Record TaskResponse := {
  tr_claim_id : pystr;
  tr_message : pystr
}.

(** [classify_documents]: the answer and the task handed to
    [background_tasks]. *)
Definition classify_documents (claim_id : pystr) (claims_storage : gmap pystr ClaimModel)
  : gmap pystr ClaimModel * outcome (TaskResponse * task) :=
  match claims_storage !! claim_id with
  | None => (claims_storage, not_found)
  | Some claim_data =>
      let claim_data := set_status claim_data CLASSIFYING in
      (<[claim_id := claim_data]> claims_storage,
       Done ({| tr_claim_id := claim_id; tr_message := py "文档分类任务已启动" |},
             PerformClassification claim_id))
  end.

Definition extract_information (claim_id : pystr) (claims_storage : gmap pystr ClaimModel)
  : gmap pystr ClaimModel * outcome (TaskResponse * task) :=
  match claims_storage !! claim_id with
  | None => (claims_storage, not_found)
  | Some claim_data =>
      let claim_data := set_status claim_data EXTRACTING in
      (<[claim_id := claim_data]> claims_storage,
       Done ({| tr_claim_id := claim_id; tr_message := py "信息提取任务已启动" |},
             PerformExtraction claim_id))
  end.

Record EvaluationResponse := {
  ev_claim_id : pystr;
  liability_result : LiabilityEvaluation
}.

(** [evaluate_liability]; [now] is the reading of the clock. *)
Definition evaluate_liability (now : datetime) (claim_id : pystr)
    (contract_terms : option pystr) (claims_storage : gmap pystr ClaimModel)
  : gmap pystr ClaimModel * outcome EvaluationResponse :=
  match claims_storage !! claim_id with
  | None => (claims_storage, not_found)
  | Some claim_data =>
      let claim_data := set_status claim_data EVALUATING in
      let claims_storage := <[claim_id := claim_data]> claims_storage in
      match evaluate_claim now claim_id contract_terms with
      | Raise e => (claims_storage, Fail (Uncaught e))
      | Ok liability_result =>
          let claim_data := set_liability_evaluation claim_data liability_result in
          let claim_data := set_status claim_data COMPLETED in
          (<[claim_id := claim_data]> claims_storage,
           Done {| ev_claim_id := claim_id; liability_result := liability_result |})
      end
  end.

Record Report := {
  rp_claim_id : pystr;
  summary : pystr;
  rp_status : ClaimStatus;
  rp_document_count : Z;
  rp_classification_results : option (list ClassificationResult);
  rp_extraction_results : option (list ExtractionResult);
  rp_liability_evaluation : option LiabilityEvaluation;
  recommendation : pystr
}.

Definition generate_report (claim_id : pystr) (claims_storage : gmap pystr ClaimModel)
  : outcome Report :=
  match claims_storage !! claim_id with
  | None => not_found
  | Some claim_data =>
      Done {| rp_claim_id := claim_id;
              summary := py "理赔案件 " ++ claim_id ++ py " 处理报告";
              rp_status := status claim_data;
              rp_document_count := len (documents claim_data);
              rp_classification_results := classification_results claim_data;
              rp_extraction_results := extraction_results claim_data;
              rp_liability_evaluation := liability_evaluation claim_data;
              recommendation := py "根据AI评估结果，建议按责任范围进行赔付" |}
  end.

(** [claims_storage[claim_id]] inside a background task. *)
Definition storage_get (claim_id : pystr) (claims_storage : gmap pystr ClaimModel)
  : result ClaimModel :=
  match claims_storage !! claim_id with
  | Some claim_data => Ok claim_data
  | None => Raise KeyError
  end.

(** The [except] branch of both background tasks: the claim is marked
    rejected; a missing record raises again, out of the task. *)
Definition reject (claim_id : pystr) (claims_storage : gmap pystr ClaimModel)
  : gmap pystr ClaimModel * option exn :=
  match storage_get claim_id claims_storage with
  | Ok claim_data =>
      (<[claim_id := set_status claim_data REJECTED]> claims_storage, None)
  | Raise e => (claims_storage, Some e)
  end.

(** [_perform_classification]: the new storage and the exception that
    leaves the task, if any. *)
Definition _perform_classification (fs : filesystem) (fresh : uuids) (claim_id : pystr)
    (claims_storage : gmap pystr ClaimModel) : gmap pystr ClaimModel * option exn :=
  let attempt :=
    try classification_results <- Classifier.classify_claim_documents fs fresh claim_id;
    try claim_data <- storage_get claim_id claims_storage;
    let claim_data := set_classification_results claim_data classification_results in
    let claim_data := set_status claim_data EXTRACTING in
    Ok (<[claim_id := claim_data]> claims_storage) in
  match attempt with
  | Ok claims_storage' => (claims_storage', None)
  | Raise _ => reject claim_id claims_storage
  end.

Definition _perform_extraction (fs : filesystem) (fresh : uuids) (claim_id : pystr)
    (claims_storage : gmap pystr ClaimModel) : gmap pystr ClaimModel * option exn :=
  let attempt :=
    try extraction_results <- Extractor.extract_claim_information fs fresh claim_id;
    try claim_data <- storage_get claim_id claims_storage;
    let claim_data := set_extraction_results claim_data extraction_results in
    let claim_data := set_status claim_data EVALUATING in
    Ok (<[claim_id := claim_data]> claims_storage) in
  match attempt with
  | Ok claims_storage' => (claims_storage', None)
  | Raise _ => reject claim_id claims_storage
  end.

Definition run_task (fs : filesystem) (fresh : uuids) (t : task)
    (claims_storage : gmap pystr ClaimModel) : gmap pystr ClaimModel * option exn :=
  match t with
  | PerformClassification claim_id => _perform_classification fs fresh claim_id claims_storage
  | PerformExtraction claim_id => _perform_extraction fs fresh claim_id claims_storage
  end.

(** A call of the application: an endpoint with its arguments and what
    it reads from the outside (the identifier drawn, the clock), or the
    run of a background task. *)
Inductive request :=
| Upload (claim_id : pystr) (filenames : list pystr)
| GetClaim (claim_id : pystr)
| Classify (claim_id : pystr)
| Extract (claim_id : pystr)
| Evaluate (now : datetime) (claim_id : pystr) (contract_terms : option pystr)
| GenerateReport (claim_id : pystr)
| Background (fs : filesystem) (fresh : uuids) (t : task).

(** The claim a call is about. *)
Definition target (r : request) : pystr :=
  match r with
  | Upload claim_id _ | GetClaim claim_id | Classify claim_id | Extract claim_id
  | Evaluate _ claim_id _ | GenerateReport claim_id
  | Background _ _ (PerformClassification claim_id)
  | Background _ _ (PerformExtraction claim_id) => claim_id
  end.

(** The storage after a call. *)
Definition handle (created_default updated_default : datetime) (r : request)
    (claims_storage : gmap pystr ClaimModel) : gmap pystr ClaimModel :=
  match r with
  | Upload claim_id filenames =>
      fst (upload_claim_documents created_default updated_default claim_id filenames
             claims_storage)
  | GetClaim _ | GenerateReport _ => claims_storage
  | Classify claim_id => fst (classify_documents claim_id claims_storage)
  | Extract claim_id => fst (extract_information claim_id claims_storage)
  | Evaluate now claim_id contract_terms =>
      fst (evaluate_liability now claim_id contract_terms claims_storage)
  | Background fs fresh t => fst (run_task fs fresh t claims_storage)
  end.

(** The storage after a sequence of calls on the empty storage of a
    freshly started application. *)
Definition run (created_default updated_default : datetime) (calls : list request)
  : gmap pystr ClaimModel :=
  fold_left (fun claims_storage r => handle created_default updated_default r claims_storage)
    calls ∅.

End Api.

(** ** What holds of every stored claim *)

Module ApiSpec.

Import Api.

(** The state of a claim stored under the key [k], in an application
    whose model class was defined with the defaults [created_default] and
    [updated_default]. *)
Record claim_invariant (created_default updated_default : datetime) (k : pystr)
    (c : ClaimModel) : Prop := {
  inv_id : id c = k;
  inv_status : status c <> REJECTED;
  inv_created_at : created_at c = created_default;
  inv_updated_at : updated_at c = updated_default;
  inv_policy_holder : policy_holder c = None;
  inv_insured_person : insured_person c = None;
  inv_incident_date : incident_date c = None;
  inv_claim_amount : claim_amount c = None;
  inv_documents :
    Forall (fun p => startswith (py "uploads/" ++ k ++ py "/") p = true) (documents c);
  inv_completed : status c = COMPLETED -> liability_evaluation c <> None;
  inv_uploaded :
    status c = UPLOADED ->
    classification_results c = None /\ extraction_results c = None
    /\ liability_evaluation c = None;
  inv_evaluation :
    forall ev, liability_evaluation c = Some ev ->
      coverage_applicable ev = false /\ exclusion_factors ev = []
      /\ recommended_payout ev = 0%Q;
  inv_classification :
    forall rs, classification_results c = Some rs ->
      length rs = 3%nat
      /\ Forall (fun r => predicted_type r = MEDICAL_RECORD
                          /\ cr_confidence r = (1 # 10)%Q) rs;
  inv_extraction :
    forall rs, extraction_results c = Some rs ->
      List.map extracted_fields rs
      = List.map (fun p => flat_map (ExtractorSpec.field_of_first_match
                                       (simulated_content (fst p)))
                             (ExtractorSpec.definitions_of (snd p)))
          (Documents.Extractor._get_claim_documents_with_types k)
}.

End ApiSpec.

(** ** The language of a pattern

    What a pattern can match, independently of the order in which the
    matcher tries the alternatives, and what every match has to begin
    with. *)

Module RegexSpec.

Import Re.

(** The concatenations of [n] words of [L]. *)
Fixpoint power (L : pystr -> Prop) (n : nat) (w : pystr) : Prop :=
  match n with
  | O => w = []
  | S n' => exists u v, w = u ++ v /\ L u /\ power L n' v
  end.

(** The words of a pattern; of the bounds of a repetition the lower one
    is kept. *)
Fixpoint lang (ic : bool) (r : regex) (w : pystr) : Prop :=
  match r with
  | REmpty => w = []
  | RChar x => exists c, w = [c] /\ chr_match ic x c = true
  | RSet negated items => exists c, w = [c] /\ set_match ic negated items c = true
  | RSeq a b => exists u v, w = u ++ v /\ lang ic a u /\ lang ic b v
  | RAlt a b => lang ic a w \/ lang ic b w
  | RRep lo hi a => exists n, (lo <= n)%nat /\ power (lang ic a) n w
  | RGroup _ a => lang ic a w
  end.

(** [t] is a contiguous part of [s]. *)
Definition part_of (t s : pystr) : Prop := exists pre post, s = pre ++ t ++ post.

(** Letters that have another case (in the blocks known to [lower_cp]
    and [upper_cp]); any other character matches itself only, with or
    without [re.IGNORECASE]. *)
Definition cased_ranges : list (N * N) :=
  [(65, 90); (97, 122); (192, 254); (913, 971); (1024, 1119);
   (65313, 65338); (65345, 65370)].

Definition caseless (x : N) : bool := negb (in_ranges cased_ranges x).

(** The characters of a set made of caseless literals only. *)
Fixpoint literal_set (items : list citem) : option (list N) :=
  match items with
  | [] => Some []
  | CChar x :: rest =>
      if caseless x
      then match literal_set rest with Some l => Some (x :: l) | None => None end
      else None
  | _ :: _ => None
  end.

(** Literal beginnings of the words of a pattern: every word begins with
    one of the strings, and is one of them when the flag is set. *)
Fixpoint heads (r : regex) : list pystr * bool :=
  match r with
  | REmpty => ([[]], true)
  | RChar x => if caseless x then ([[x]], true) else ([[]], false)
  | RSet false items =>
      match literal_set items with
      | Some l => (List.map (fun x => [x]) l, true)
      | None => ([[]], false)
      end
  | RSet true _ => ([[]], false)
  | RSeq a b =>
      let (la, exact_a) := heads a in
      if exact_a
      then let (lb, exact_b) := heads b in
           (flat_map (fun u => List.map (fun v => u ++ v) lb) la, exact_b)
      else (la, false)
  | RAlt a b =>
      let (la, exact_a) := heads a in
      let (lb, exact_b) := heads b in
      (la ++ lb, exact_a && exact_b)
  | RRep _ _ _ => ([[]], false)
  | RGroup _ a => heads a
  end.

(** What a matcher owes: it calls its continuation on what is left
    after a word of the language, and every capture it adds is a part of
    the text. *)
Definition sound_matcher {A} (L : pystr -> Prop) (m : Re.matcher A) : Prop :=
  forall s cs k x,
    m s cs k = Some x ->
    exists w s' cs',
      s = w ++ s' /\ L w /\ k s' cs' = Some x
      /\ forall top, part_of s top ->
           Forall (fun c => part_of (snd c) top) cs ->
           Forall (fun c => part_of (snd c) top) cs'.

(** The literal beginnings of the matches of a field definition. *)
Definition heads_of (d : KeywordExtractor.FieldDef) : list pystr :=
  match compile (KeywordExtractor.pattern d) with
  | Some (r, _) => fst (heads r)
  | None => []
  end.

(** No match of the field definition begins with the character [c]. *)
Definition cannot_begin (d : KeywordExtractor.FieldDef) (c : N) : bool :=
  forallb (fun h => match h with [] => false | x :: _ => negb (x =? c) end)
    (heads_of d).

End RegexSpec.

(** ** The numeric functions in binary64

    The interpreter computes with IEEE 754 binary64 numbers, each operation
    rounded to the nearest double with ties to the even mantissa. The
    definitions above compute with exact rationals; this part gives the
    numeric functions of the services once more as the interpreter
    evaluates them, over the binary64 format of the Standard Library
    ([SpecFloat], precision 53, exponents below 1024). Everything that
    does not compute with floats is shared with the definitions above. *)

Module Binary64.

Definition prec : Z := 53.
Definition emax : Z := 1024.

Definition float := spec_float.

(** The double nearest to the ratio [n / d], with the given sign: what
    [float] makes of a decimal numeral, and what the interpreter makes of a
    float literal, of an int used as a float and of the quotient of two
    ints. A ratio beyond the range of the format gives an infinity. *)
Definition of_ratio (negative : bool) (n : N) (d : positive) : float :=
  match n with
  | N0 => S754_zero negative
  | Npos p => SFdiv prec emax (S754_finite negative p 0) (S754_finite false d 0)
  end.

Definition of_Z (z : Z) : float := of_ratio (z <? 0)%Z (Z.abs_N z) 1.

Definition of_Q (q : Q) : float :=
  of_ratio (Qnum q <? 0)%Z (Z.abs_N (Qnum q)) (Qden q).

Definition pow2Q (e : Z) : Q :=
  match e with
  | Z0 => 1
  | Zpos p => inject_Z (2 ^ Zpos p)
  | Zneg p => 1 # (2 ^ p)
  end.

(** The exact value of a finite double. *)
Definition to_Q (x : float) : option Q :=
  match x with
  | S754_zero _ => Some 0%Q
  | S754_finite s m e =>
      Some (Qred ((if s then - inject_Z (Zpos m) else inject_Z (Zpos m)) * pow2Q e))
  | _ => None
  end.

Definition sign_of (x : float) : bool :=
  match x with
  | S754_zero s | S754_infinity s | S754_finite s _ _ => s
  | S754_nan => false
  end.

(** [round(x, 2)] of a float: the exact value of [x] is rounded to the
    nearest multiple of 1/100, ties to the even one, and the result is the
    double nearest to that multiple. Infinities and NaN are returned as
    they are. *)
Definition round2 (x : float) : float :=
  match to_Q x with
  | Some q => of_ratio (sign_of x) (Z.abs_N (round_half_even (q * 100))) 100
  | None => x
  end.

Definition add : float -> float -> float := SFadd prec emax.
Definition sub : float -> float -> float := SFsub prec emax.
Definition mul : float -> float -> float := SFmul prec emax.
Definition div : float -> float -> float := SFdiv prec emax.

(** [x < y] and [x <= y] on floats: false when one of them is NaN. *)
Definition ltb (x y : float) : bool :=
  match SFcompare x y with
  | Some Lt => true
  | _ => false
  end.

Definition leb (x y : float) : bool :=
  match SFcompare x y with
  | Some (Lt | Eq) => true
  | _ => false
  end.

(** The same double. *)
Definition eqb (x y : float) : bool :=
  match x, y with
  | S754_zero s, S754_zero t => Bool.eqb s t
  | S754_infinity s, S754_infinity t => Bool.eqb s t
  | S754_nan, S754_nan => true
  | S754_finite s m e, S754_finite t n f =>
      Bool.eqb s t && (m =? n)%positive && (e =? f)%Z
  | _, _ => false
  end.

(** *** Python numbers *)

(** A number is an [int] or a [float]; arithmetic on two ints is exact,
    an int that meets a float is converted to float first. *)
Inductive number :=
| Int (z : Z)
| Float (x : float).

(** [float(n)]: an int too large for the format is an OverflowError. *)
Definition to_float (n : number) : result float :=
  match n with
  | Float x => Ok x
  | Int z =>
      match of_Z z with
      | S754_infinity _ => Raise OverflowError
      | x => Ok x
      end
  end.

(** The comparison of a float with an int is exact. *)
Definition compare_float_int (x : float) (z : Z) : option comparison :=
  match x with
  | S754_nan => None
  | S754_infinity s => Some (if s then Lt else Gt)
  | _ =>
      match to_Q x with
      | Some q => Some (q ?= inject_Z z)%Q
      | None => None
      end
  end.

Definition compare (a b : number) : option comparison :=
  match a, b with
  | Int x, Int y => Some (x ?= y)%Z
  | Float x, Float y => SFcompare x y
  | Float x, Int y => compare_float_int x y
  | Int x, Float y => option_map CompOpp (compare_float_int y x)
  end.

(** [a < b] *)
Definition lt (a b : number) : bool :=
  match compare a b with
  | Some Lt => true
  | _ => false
  end.

(** [a > b] *)
Definition gt (a b : number) : bool := lt b a.

(** [min(a, b)] and [max(a, b)]: the first argument unless the second is
    strictly smaller (larger). *)
Definition pymin (a b : number) : number := if lt b a then b else a.
Definition pymax (a b : number) : number := if gt b a then b else a.

Definition arith (on_int : Z -> Z -> Z) (on_float : float -> float -> float)
    (a b : number) : result number :=
  match a, b with
  | Int x, Int y => Ok (Int (on_int x y))
  | _, _ =>
      try x <- to_float a;
      try y <- to_float b;
      Ok (Float (on_float x y))
  end.

(** [a + b], [a - b], [a * b] *)
Definition plus : number -> number -> result number := arith Z.add add.
Definition minus : number -> number -> result number := arith Z.sub sub.
Definition times : number -> number -> result number := arith Z.mul mul.

Definition is_zero (x : float) : bool :=
  match x with
  | S754_zero _ => true
  | _ => false
  end.

(** [a / b]: the quotient of two ints is rounded once, from the exact
    quotient. *)
Definition truediv (a b : number) : result float :=
  match a, b with
  | Int x, Int y =>
      if (y =? 0)%Z then Raise ZeroDivisionError
      else
        match of_ratio (xorb (x <? 0)%Z (y <? 0)%Z) (Z.abs_N x) (Z.to_pos (Z.abs y)) with
        | S754_infinity _ => Raise OverflowError
        | q => Ok q
        end
  | _, _ =>
      try x <- to_float a;
      try y <- to_float b;
      if is_zero y then Raise ZeroDivisionError else Ok (div x y)
  end.

(** [round(a, 2)]: an int is returned as it is. *)
Definition round_2 (a : number) : number :=
  match a with
  | Int z => Int z
  | Float x => Float (round2 x)
  end.

(** A value of a dictionary of the configuration: a number or a string. *)
Inductive object :=
| Num (n : number)
| Str (s : pystr).

(** The number that a literal of the configuration denotes: the tables
    write whole numbers as ints ([100000]) and the others as float
    literals ([0.1]). *)
Definition literal (q : Q) : number :=
  if (Qden q =? 1)%positive then Int (Qnum q) else Float (of_Q q).

(** A number used in arithmetic or in a comparison with a number: a
    string in its place is a TypeError. *)
Definition numeric (o : object) : result number :=
  match o with
  | Num n => Ok n
  | Str _ => Raise TypeError
  end.

Module KeywordExtractor.

(** [sum(field.confidence for field in extracted_fields)]: the
    confidences, which the model stores as floats, are added from the
    left, starting from the int 0. (Interpreters from 3.12 on compensate
    the rounding errors of [sum]; for the up to six confidences of an
    extraction, all 0.9, the two sums are the same double.) *)
Definition sum_of_confidences (extracted_fields : list ExtractedField) : result number :=
  fold_left
    (fun total field => try t <- total; plus t (Float (of_Q (confidence field))))
    extracted_fields (Ok (Int 0)).

Definition _calculate_extraction_accuracy (extracted_fields : list ExtractedField)
  : result float :=
  match extracted_fields with
  | [] => Ok (S754_zero false)
  | _ =>
      try total_confidence <- sum_of_confidences extracted_fields;
      try avg_confidence <-
        truediv total_confidence (Int (Z.of_nat (length extracted_fields)));
      let ideal_field_count := Int 5 in
      try ratio <- truediv (Int (Z.of_nat (length extracted_fields))) ideal_field_count;
      let field_ratio := pymin (Float ratio) (Float (of_Q 1)) in
      try weighted_confidence <- times (Float avg_confidence) (Float (of_Q (7 # 10)));
      try weighted_ratio <- times field_ratio (Float (of_Q (3 # 10)));
      try accuracy <- plus weighted_confidence weighted_ratio;
      to_float accuracy
  end.

(** [ExtractionResult] with the accuracy as the float that is stored. *)
Record ExtractionResult := {
  er_document_id : pystr;
  extracted_fields : list ExtractedField;
  extraction_accuracy : float
}.

Definition extract_from_document (doc_id content : pystr) (document_type : DocumentType)
  : result ExtractionResult :=
  try extracted_fields <- KeywordExtractor._extract_fields_by_type content document_type;
  try accuracy <- _calculate_extraction_accuracy extracted_fields;
  Ok {| er_document_id := doc_id;
        extracted_fields := extracted_fields;
        extraction_accuracy := accuracy |}.

End KeywordExtractor.

Module LiabilityEvaluator.

Import LiabilityEvaluator.

(** [float(s)] for an unsigned decimal numeral: the double nearest to the
    number that the numeral writes. *)
Definition pyfloat (s : pystr) : result float :=
  let (int_part, frac) := split_point s in
  let frac_part := default [] frac in
  match int_part ++ frac_part with
  | [] => Raise ValueError
  | digits =>
      match digits_value 0 digits with
      | Some n => Ok (of_ratio false n (pow10 (length frac_part)))
      | None => Raise ValueError
      end
  end.

Definition first_number (invoice_amount_str : pystr) : result (option float) :=
  try numbers <- Re.findall number_pattern (replace (py ",") [] invoice_amount_str) false;
  match numbers with
  | Re.Str n :: _ => try x <- pyfloat n; Ok (Some x)
  | Re.Tuple _ :: _ => Raise TypeError
  | [] => Ok None
  end.

Definition _check_abnormal_cost (fields : gmap pystr FieldEntry) : result bool :=
  let invoice_amount_str := get_value fields "invoice_amount" (py "0") in
  try numbers <- first_number invoice_amount_str;
  match numbers with
  | Some amount => Ok (gt (Float amount) (Int 20000))
  | None => Ok false
  end.

Definition risk_rules : list RiskRule :=
  [{| rule_name := py "性别年龄不符";
      condition := fun now fields => _check_gender_age_inconsistency now fields;
      severity := py "high";
      rule_description := py "被保险人性别与年龄不匹配" |};
   {| rule_name := py "既往症检测";
      condition := fun _ fields => Ok (_check_pre_existing_conditions fields);
      severity := py "high";
      rule_description := py "疑似既往症" |};
   {| rule_name := py "费用异常高";
      condition := fun _ fields => _check_abnormal_cost fields;
      severity := py "medium";
      rule_description := py "费用超出合理范围" |};
   {| rule_name := py "诊断与用药不符";
      condition := fun _ fields => Ok (_check_medication_diagnosis_match fields);
      severity := py "high";
      rule_description := py "药物与诊断不匹配" |}].

Definition _apply_risk_rules (now : datetime) (fields : gmap pystr FieldEntry)
  : result (list RiskFactor) :=
  apply_rules risk_rules now fields [].

(** [limits.get(key, default)] *)
Definition limits_get (limits : list (pystr * pyval)) (key : string) (default : object)
  : object :=
  match assoc (py key) limits with
  | Some (VNum q) => Num (literal q)
  | Some (VStr s) => Str s
  | None => default
  end.

Definition _calculate_recommended_payout (fields : gmap pystr FieldEntry)
    (policy_info : PolicyTerms) (coverage_applicable : bool)
    (exclusion_factors : list pystr) : result number :=
  if negb coverage_applicable || nonempty exclusion_factors
  then Ok (Float (S754_zero false))
  else
    let invoice_amount_str := get_value fields "invoice_amount" (py "0") in
    try numbers <- first_number invoice_amount_str;
    let invoice_amount :=
      match numbers with Some x => x | None => S754_zero false end in
    let limits := limits policy_info in
    let max_coverage :=
      limits_get limits "年度报销上限" (Num (Float (S754_infinity false))) in
    let self_pay_ratio := limits_get limits "自付比例" (Num (Int 0)) in
    try ratio <- numeric self_pay_ratio;
    try kept <- minus (Int 1) ratio;
    try payout <- times (Float invoice_amount) kept;
    try cap <- numeric max_coverage;
    let payout := pymin payout cap in
    Ok (round_2 payout).

Definition _calculate_evaluation_confidence (coverage_applicable : bool)
    (exclusion_count risk_count : Z) : result float :=
  let base_confidence := Float (of_Q (9 # 10)) in
  try base_confidence <-
    (if negb coverage_applicable
     then minus base_confidence (Float (of_Q (3 # 10)))
     else Ok base_confidence);
  try base_confidence <-
    (if (0 <? exclusion_count)%Z
     then try penalty <- times (Float (of_Q (2 # 10))) (Int exclusion_count);
          minus base_confidence penalty
     else Ok base_confidence);
  try base_confidence <-
    (if (0 <? risk_count)%Z
     then try penalty <- times (Float (of_Q (1 # 10))) (Int risk_count);
          minus base_confidence penalty
     else Ok base_confidence);
  to_float (pymax base_confidence (Float (of_Q (1 # 10)))).

(** [LiabilityEvaluation] with its numbers as the floats that the model
    stores. *)
Record LiabilityEvaluation := {
  coverage_applicable : bool;
  exclusion_factors : list pystr;
  coverage_limit : option float;
  recommended_payout : float;
  evaluation_reasons : list pystr;
  le_confidence : float
}.

(** A number given for a [float] field of a model. *)
Definition validated (n : number) : result float :=
  match to_float n with
  | Ok x => Ok x
  | Raise _ => Raise ValidationError
  end.

Definition evaluate (now : datetime) (all_extracted_fields : gmap pystr FieldEntry)
    (contract_terms : option pystr) : result LiabilityEvaluation :=
  try policy_info <- _parse_policy_terms contract_terms;
  let '(coverage_applicable, coverage_issues) :=
    _check_coverage all_extracted_fields policy_info in
  let exclusion_factors := _check_exclusions all_extracted_fields policy_info in
  try risk_factors <- _apply_risk_rules now all_extracted_fields;
  try recommended_payout <-
    _calculate_recommended_payout all_extracted_fields policy_info
      coverage_applicable exclusion_factors;
  try confidence <-
    _calculate_evaluation_confidence coverage_applicable
      (len exclusion_factors) (len risk_factors);
  let evaluation_reasons :=
    _generate_evaluation_reasons coverage_applicable coverage_issues
      exclusion_factors risk_factors in
  try coverage_limit <-
    match assoc (py "年度报销上限") (limits policy_info) with
    | None => Ok None
    | Some (VNum q) => try x <- validated (literal q); Ok (Some x)
    | Some (VStr _) => Raise ValidationError
    end;
  try recommended_payout <- validated recommended_payout;
  Ok {| coverage_applicable := coverage_applicable;
        exclusion_factors := exclusion_factors;
        coverage_limit := coverage_limit;
        recommended_payout := recommended_payout;
        evaluation_reasons := evaluation_reasons;
        le_confidence := confidence |}.

Definition evaluate_claim (now : datetime) (claim_id : pystr)
    (contract_terms : option pystr) : result LiabilityEvaluation :=
  let '(extraction_results, classification_results) := _get_claim_data claim_id in
  let all_extracted_fields := _merge_extraction_results extraction_results in
  evaluate now all_extracted_fields contract_terms.

End LiabilityEvaluator.

(** *** The rules of the specification, evaluated in binary64 *)

Module Rules.

(** "start at 0.9; subtract 0.3 if not covered; subtract 0.2 per
    exclusion factor; subtract 0.1 per triggered risk rule; floor the
    result at 0.1", with the numbers of the rule read as doubles, one
    product per kind of penalty and every step rounded. *)
Definition confidence_rule (covered : bool) (exclusions risks : nat) : float :=
  let start := of_Q (9 # 10) in
  let start := if covered then start else sub start (of_Q (3 # 10)) in
  let start :=
    match exclusions with
    | O => start
    | _ => sub start (mul (of_Q (2 # 10)) (of_Z (Z.of_nat exclusions)))
    end in
  let start :=
    match risks with
    | O => start
    | _ => sub start (mul (of_Q (1 # 10)) (of_Z (Z.of_nat risks)))
    end in
  if ltb start (of_Q (1 # 10)) then of_Q (1 # 10) else start.

(** [x] is a finite double whose exact value is within [eps] of [q]. *)
Definition within (eps : Q) (x : float) (q : Q) : bool :=
  match to_Q x with
  | Some v => Qle_bool (Qabs (v - q)) eps
  | None => false
  end.

(** "payout = amount × (1 − self_pay_ratio), then cap at the policy's
    annual limit; round to 2 decimal places": the amount is the double
    nearest to the number read, the ratio and the limit are the numbers
    of the policy. *)
Definition payout_rule (amount : Q) (ratio limit : number) : result number :=
  try kept <- minus (Int 1) ratio;
  try payout <- times (Float (of_Q amount)) kept;
  Ok (round_2 (pymin payout limit)).

(** The same with the ratio 0.1 and the limit 100000 of the default
    policy, as the float that an evaluation stores. *)
Definition default_payout (amount : Q) : float :=
  let payout := mul (of_Q amount) (sub (of_Z 1) (of_Q (1 # 10))) in
  if lt (Int 100000) (Float payout) then of_Z 100000 else round2 payout.

(** The accuracy of an extraction that found the given number of
    fields, up to six (no document type has more fields), as it is
    printed. *)
Definition accuracy_of_count (count : nat) : float :=
  match count with
  | 0 => S754_zero false
  | 1 => of_Q (69 # 100)
  | 2 => of_Q (75 # 100)
  | 3 => of_Q (81 # 100)
  | 4 => of_Q (87 # 100)
  | _ => of_Q (9299999999999999 # 10000000000000000)
  end%nat.

End Rules.

End Binary64.

(** * Properties *)

(** ** Sanity checks of the embedding on concrete inputs *)

Example py_diagnosis : py "诊断" = [35786; 26029].
Proof. reflexivity. Qed.

Example py_ascii : py "diagnosis" = [100; 105; 97; 103; 110; 111; 115; 105; 115].
Proof. reflexivity. Qed.

Example lower_mixed : lower (py "Ab诊Z") = py "ab诊z".
Proof. reflexivity. Qed.

Example strip_ideographic : strip (12288 :: py " 张三 " ++ [LF]) = py "张三".
Proof. reflexivity. Qed.

Example replace_year : replace (py "年") (py "-") (py "2010年1月") = py "2010-1月".
Proof. reflexivity. Qed.

Example str_of_nat_120 : str_of_nat 120 = py "120".
Proof. reflexivity. Qed.

Example compile_number :
  Re.compile (py "\d+(?:\.\d+)?") =
  Some (Re.RSeq (Re.RRep 1 None (Re.RSet false [Re.CDigit]))
          (Re.RRep 0 (Some 1%nat)
             (Re.RSeq (Re.RChar 46) (Re.RRep 1 None (Re.RSet false [Re.CDigit])))),
        O).
Proof. reflexivity. Qed.

Example findall_number :
  Re.findall (py "\d+(?:\.\d+)?") (py "¥25000.00 and 3.") false
  = Ok [Re.Str (py "25000.00"); Re.Str (py "3")].
Proof. reflexivity. Qed.

Example findall_groups :
  Re.findall (py "(诊断|初步诊断)[：:]\s*([^\n\r]+)") (py "初步诊断： 感冒 ") true
  = Ok [Re.Tuple [py "初步诊断"; py "感冒 "]].
Proof. reflexivity. Qed.

Example findall_one_group :
  Re.findall (py "患者[：:]\s*([^\n\r]+)") (py "患者： ") true = Ok [Re.Str (py " ")].
Proof. reflexivity. Qed.

Example findall_empty_matches :
  Re.findall (py "x*") (py "abxd") false
  = Ok [Re.Str []; Re.Str []; Re.Str (py "x"); Re.Str []; Re.Str []].
Proof. reflexivity. Qed.

Example classify_scenario_a :
  DocumentClassifier._classify_content
    (py "患者：张三" ++ [LF] ++ py "诊断：急性阑尾炎" ++ [LF] ++ py "入院日期：2023年10月5日")
  = Ok (MEDICAL_RECORD, (2 / 7)%Q).
Proof. reflexivity. Qed.

Example classify_tie :
  DocumentClassifier._classify_content (py "发票 事故")
  = Ok (ACCIDENT_REPORT, (1 / 7)%Q).
Proof. reflexivity. Qed.

Example extract_medical_record :
  KeywordExtractor._extract_fields_by_type (simulated_content (py "a.pdf")) MEDICAL_RECORD
  = Ok [field "patient_name" "张三"; field "diagnosis" "急性阑尾炎";
        field "admission_date" "2023年10月5日"; field "discharge_date" "2023年10月10日";
        field "hospital_name" "XX市人民医院"; field "doctor_name" "李医生"].
Proof. vm_compute. reflexivity. Qed.

Example extract_invoice :
  KeywordExtractor._extract_fields_by_type (simulated_content (py "a.pdf")) INVOICE
  = Ok [field "invoice_number" "12345678"; field "invoice_amount" "¥5000.00";
        field "invoice_date" "2023年10月5日"].
Proof. vm_compute. reflexivity. Qed.

Example strptime_ok :
  strptime (py "2010-1-05")
  = Ok {| year := 2010; month := 1; day := 5;
          hour := 0; minute := 0; second := 0; microsecond := 0 |}.
Proof. vm_compute. reflexivity. Qed.

Example strptime_trailing : strptime (py "2010-1-057") = Raise ValueError.
Proof. vm_compute. reflexivity. Qed.

Example strptime_no_such_day : strptime (py "2011-02-29") = Raise ValueError.
Proof. vm_compute. reflexivity. Qed.

Example toordinal_2023 :
  toordinal {| year := 2023; month := 10; day := 5;
               hour := 0; minute := 0; second := 0; microsecond := 0 |} = 738798%Z.
Proof. reflexivity. Qed.

Example scenario_b :
  evaluate (noon 2026 11 3)
    (fields_of [("diagnosis", "阑尾炎"); ("invoice_amount", "¥25000.00")]%string) None
  = Ok {| coverage_applicable := true;
          exclusion_factors := [];
          coverage_limit := Some 100000%Q;
          recommended_payout := (2250000 # 100)%Q;
          evaluation_reasons :=
            [py "案件在保险保障范围内"; py "检测到1个风险点: 费用异常高"];
          le_confidence := ((9 # 10) - (1 # 10) * 1)%Q |}.
Proof. vm_compute. reflexivity. Qed.

Example scenario_c :
  evaluate (noon 2026 11 3) (fields_of [("invoice_amount", "5000")]%string) None
  = Ok {| coverage_applicable := false;
          exclusion_factors := [];
          coverage_limit := Some 100000%Q;
          recommended_payout := 0%Q;
          evaluation_reasons :=
            [py "案件可能不在保障范围内";
             py "缺少诊断信息，无法确认是否在保障范围内"];
          le_confidence := ((9 # 10) - (3 # 10))%Q |}.
Proof. vm_compute. reflexivity. Qed.

Example scenario_d :
  evaluate (noon 2026 11 3)
    (fields_of [("diagnosis", "既往症复查"); ("invoice_amount", "5000")]%string)
    (Some (py "terms"))
  = Ok {| coverage_applicable := true;
          exclusion_factors := [py "既往症"];
          coverage_limit := Some 100000%Q;
          recommended_payout := 0%Q;
          evaluation_reasons :=
            [py "案件在保险保障范围内"; py "发现1个免责因素: 既往症"];
          le_confidence := ((9 # 10) - (2 # 10) * 1)%Q |}.
Proof. vm_compute. reflexivity. Qed.

Example evaluate_claim_of_mock_store :
  evaluate_claim (noon 2026 11 3) (py "claim-1") None
  = Ok {| coverage_applicable := false;
          exclusion_factors := [];
          coverage_limit := Some 100000%Q;
          recommended_payout := 0%Q;
          evaluation_reasons :=
            [py "案件可能不在保障范围内";
             py "缺少诊断信息，无法确认是否在保障范围内"];
          le_confidence := ((9 # 10) - (3 # 10))%Q |}.
Proof. vm_compute. reflexivity. Qed.

Example non_decimal_age_raises :
  evaluate (noon 2026 11 3)
    (fields_of [("diagnosis", "感冒"); ("age", "²")]%string) None
  = Raise ValueError.
Proof. vm_compute. reflexivity. Qed.

Example accuracy_of_three_fields :
  (KeywordExtractor._calculate_extraction_accuracy
     [field "a" "1"; field "b" "2"; field "c" "3"] == 81 # 100)%Q.
Proof. vm_compute. reflexivity. Qed.

(** The binary64 functions on concrete inputs, with the values that the
    interpreter prints. *)

Example float_of_a_numeral :
  Binary64.LiabilityEvaluator.pyfloat (py "5000.0499999999999")
  = Ok (Binary64.of_Q (500005 # 100)).
Proof. vm_compute. reflexivity. Qed.

Example payout_of_ninety_five_cents :
  Binary64.LiabilityEvaluator._calculate_recommended_payout
    (fields_of [("invoice_amount", "0.95")]%string) health_insurance_basic true []
  = Ok (Binary64.Float (Binary64.of_Q (85 # 100))).
Proof. vm_compute. reflexivity. Qed.

Example payout_of_a_tie :
  Binary64.LiabilityEvaluator._calculate_recommended_payout
    (fields_of [("invoice_amount", "5000.05")]%string) health_insurance_basic true []
  = Ok (Binary64.Float (Binary64.of_Q (450005 # 100))).
Proof. vm_compute. reflexivity. Qed.

Example payout_above_the_limit :
  Binary64.LiabilityEvaluator._calculate_recommended_payout
    (fields_of [("invoice_amount", "¥250,000.00")]%string) health_insurance_basic true []
  = Ok (Binary64.Int 100000).
Proof. vm_compute. reflexivity. Qed.

Example confidence_when_not_covered :
  Binary64.LiabilityEvaluator._calculate_evaluation_confidence false 1 0
  = Ok (Binary64.of_Q (4000000000000001 # 10000000000000000)).
Proof. vm_compute. reflexivity. Qed.

Example accuracy_of_five_fields :
  Binary64.KeywordExtractor._calculate_extraction_accuracy
    [field "a" "1"; field "b" "2"; field "c" "3"; field "d" "4"; field "e" "5"]
  = Ok (Binary64.of_Q (9299999999999999 # 10000000000000000)).
Proof. vm_compute. reflexivity. Qed.

Example float_of_a_large_int :
  Binary64.to_float (Binary64.Int (10 ^ 400)) = Raise OverflowError.
Proof. vm_compute. reflexivity. Qed.

Example round_of_a_double :
  Binary64.round2 (Binary64.of_Q (2675 # 1000)) = Binary64.of_Q (267 # 100).
Proof. vm_compute. reflexivity. Qed.

(** ** Strings *)

Section StringFacts.

Lemma startswith_spec (p s : pystr) :
  startswith p s = true <-> exists t, s = p ++ t.
Proof.
  revert s. induction p as [|a p IH]; intros s; simpl.
  - split; [intros _; now exists s | reflexivity].
  - destruct s as [|b s].
    + split; [discriminate | intros [t Ht]; discriminate].
    + rewrite andb_true_iff, N.eqb_eq, IH. split.
      * intros [-> [t ->]]. now exists t.
      * intros [t Ht]. injection Ht as -> ->. split; [reflexivity | now exists t].
Qed.

Lemma str_in_spec (p s : pystr) :
  str_in p s = true <-> exists a b, s = a ++ p ++ b.
Proof.
  induction s as [|c s IH].
  - simpl. rewrite orb_false_r, startswith_spec. split.
    + intros [t Ht]. exists [], t. exact Ht.
    + intros [a [b H]]. destruct a; [now exists b | discriminate].
  - cbn [str_in]. rewrite orb_true_iff, startswith_spec, IH. split.
    + intros [[t Ht] | [a [b Hab]]].
      * exists [], t. exact Ht.
      * exists (c :: a), b. now rewrite Hab.
    + intros [a [b Hab]]. destruct a as [|x a].
      * left. now exists b.
      * right. injection Hab as -> ->. now exists a, b.
Qed.

Lemma str_in_app_l (p s t : pystr) :
  str_in p s = true -> str_in p (s ++ t) = true.
Proof.
  rewrite !str_in_spec. intros [a [b ->]]. exists a, (b ++ t).
  now rewrite <- !app_assoc.
Qed.

Lemma str_in_app_r (p s : pystr) : str_in p (s ++ p) = true.
Proof. apply str_in_spec. exists s, []. now rewrite app_nil_r. Qed.

Lemma lower_app (s t : pystr) : lower (s ++ t) = lower s ++ lower t.
Proof. apply map_app. Qed.

Lemma lower_length (s : pystr) : length (lower s) = length s.
Proof. apply length_map. Qed.

(** The test of the code, [keyword.lower() in content.lower()], is the
    case-insensitive occurrence of the specification. *)
Lemma str_in_lower_occurs (keyword text : pystr) :
  str_in (lower keyword) (lower text) = true <-> Spec.occurs_ci keyword text.
Proof.
  rewrite str_in_spec. unfold Spec.occurs_ci, lower. split.
  - intros [a [b H]].
    apply map_eq_app in H as [a' [r [-> [Ha Hr]]]].
    apply map_eq_app in Hr as [m [b' [-> [Hm Hb]]]].
    now exists a', m, b'.
  - intros [a [m [b [-> Hm]]]].
    exists (List.map lower_cp a), (List.map lower_cp b).
    now rewrite !map_app, Hm.
Qed.

Lemma occurs_ci_b_spec (keyword text : pystr) :
  Spec.occurs_ci_b keyword text = true <-> Spec.occurs_ci keyword text.
Proof.
  unfold Spec.occurs_ci_b, Spec.occurs_ci. rewrite existsb_exists. split.
  - intros [i [_ Hi]]. apply bool_decide_eq_true in Hi.
    exists (firstn i text), (firstn (length keyword) (skipn i text)),
           (skipn (length keyword) (skipn i text)).
    split; [|exact Hi].
    now rewrite !firstn_skipn.
  - intros [a [m [b [-> Hm]]]]. exists (length a). split.
    + apply in_seq. rewrite !length_app. lia.
    + apply bool_decide_eq_true.
      assert (Hlen : length m = length keyword).
      { rewrite <- (lower_length m), Hm. apply lower_length. }
      rewrite skipn_app, skipn_all, Nat.sub_diag, skipn_O, app_nil_l.
      rewrite <- Hlen, firstn_app, firstn_all, Nat.sub_diag, firstn_O.
      now rewrite app_nil_r.
Qed.

Lemma occurs_ci_b_str_in (keyword text : pystr) :
  Spec.occurs_ci_b keyword text = str_in (lower keyword) (lower text).
Proof.
  apply eq_true_iff_eq. now rewrite occurs_ci_b_spec, str_in_lower_occurs.
Qed.

End StringFacts.

(** ** Classifier *)

Section ClassifierFacts.

Import DocumentClassifier.

Lemma keyword_score_filter (keywords : list pystr) (content_lower : pystr) (score : Z) :
  keyword_score score keywords content_lower
  = (score + Z.of_nat (length (List.filter (fun kw => str_in (lower kw) content_lower)
                                 keywords)))%Z.
Proof.
  revert score. induction keywords as [|kw kws IH]; intros score; simpl.
  - lia.
  - rewrite IH. destruct (str_in (lower kw) content_lower); simpl; lia.
Qed.

(** The entry of [scores] for a type is the presence score of the
    specification. *)
Lemma scores_get_in (mapping : list (DocumentType * list pystr)) (content : pystr)
    (t : DocumentType) :
  scores_get (scores_of mapping content) t
  = Z.of_nat (length (List.filter (fun kw => Spec.occurs_ci_b kw content)
                        (Spec.keywords_in mapping t))).
Proof.
  induction mapping as [|[t' kws] rest IH]; simpl.
  - reflexivity.
  - destruct (decide (t' = t)) as [_|_]; [|exact IH].
    rewrite keyword_score_filter, Z.add_0_l. do 2 f_equal.
    apply filter_ext. intros kw. symmetry. apply occurs_ci_b_str_in.
Qed.

Lemma scores_get_presence (content : pystr) (t : DocumentType) :
  scores_get (scores_of keyword_mapping content) t = Spec.presence_score t content.
Proof. apply scores_get_in. Qed.

Lemma presence_score_nonneg (t : DocumentType) (content : pystr) :
  (0 <= Spec.presence_score t content)%Z.
Proof. unfold Spec.presence_score. lia. Qed.

Lemma max_key_scores (content : pystr) :
  max_key (scores_of keyword_mapping content)
  = Ok (max_from (scores_of keyword_mapping content) MEDICAL_RECORD
          [ACCIDENT_REPORT; INVOICE; IDENTITY_CARD; BANK_STATEMENT; INSURANCE_CONTRACT]).
Proof. reflexivity. Qed.

(** A keyword that does not occur contributes nothing. *)
Lemma presence_score_zero (t : DocumentType) (content : pystr) :
  (forall kw, In kw (Spec.keywords_of t) -> ~ Spec.occurs_ci kw content) ->
  Spec.presence_score t content = 0%Z.
Proof.
  intros H. unfold Spec.presence_score.
  replace (List.filter _ _) with (@nil pystr); [reflexivity|].
  symmetry. induction (Spec.keywords_of t) as [|kw kws IH]; [reflexivity|].
  simpl. destruct (Spec.occurs_ci_b kw content) eqn:E.
  - apply occurs_ci_b_spec in E. exfalso. apply (H kw); [now left | exact E].
  - apply IH. intros k Hk. apply H. now right.
Qed.

(** Text added at the end keeps every occurrence. *)
Lemma presence_score_app (t : DocumentType) (content extra : pystr) :
  (Spec.presence_score t content <= Spec.presence_score t (content ++ extra))%Z.
Proof.
  unfold Spec.presence_score. apply inj_le.
  induction (Spec.keywords_of t) as [|kw kws IH]; [reflexivity|].
  simpl. rewrite !occurs_ci_b_str_in.
  destruct (str_in (lower kw) (lower content)) eqn:E.
  - rewrite lower_app, (str_in_app_l _ _ _ E). simpl. lia.
  - destruct (str_in (lower kw) (lower (content ++ extra))); simpl; lia.
Qed.

(** [max(scores, key=scores.get)] over keys listed in increasing
    enumeration order: the result is one of the keys, no key scores
    more, and a key with the same score does not come before it. *)
Lemma max_from_first_maximum (scores : list (DocumentType * Z)) (keys : list DocumentType) :
  forall best,
    StronglySorted lt (List.map Spec.enum_index (best :: keys)) ->
    let r := max_from scores best keys in
    In r (best :: keys)
    /\ (forall t, In t (best :: keys) -> scores_get scores t <= scores_get scores r)%Z
    /\ (forall t, In t (best :: keys) -> scores_get scores t = scores_get scores r ->
                  (Spec.enum_index r <= Spec.enum_index t)%nat).
Proof.
  induction keys as [|k ks IH]; intros best Hs.
  - simpl. repeat split.
    + now left.
    + intros t [<-|[]]. lia.
    + intros t [<-|[]] _. lia.
  - cbn [max_from]. cbn [List.map] in Hs.
    apply StronglySorted_inv in Hs as [Hs Hbest].
    assert (Hk := Hs). apply StronglySorted_inv in Hk as [Hks Hkall].
    apply Forall_cons_iff in Hbest as [Hbk Hbest].
    destruct (Z.ltb_spec (scores_get scores best) (scores_get scores k)) as [Hlt|Hle].
    + destruct (IH k) as [Hin [Hmax Hfirst]]; [exact Hs|].
      pose proof (Hmax k (or_introl eq_refl)) as Hge.
      repeat split.
      * right. exact Hin.
      * intros t [<-|Ht]; [lia | now apply Hmax].
      * intros t [<-|Ht] He; [lia | now apply Hfirst].
    + destruct (IH best) as [Hin [Hmax Hfirst]].
      { cbn [List.map]. now constructor. }
      pose proof (Hmax best (or_introl eq_refl)) as Hge.
      repeat split.
      * destruct Hin as [<-|Hin]; [now left | right; now right].
      * intros t [<-|[<-|Ht]]; [exact Hge | lia | apply Hmax; now right].
      * intros t [<-|[<-|Ht]] He.
        -- apply Hfirst; [now left | exact He].
        -- assert (Hr : (Spec.enum_index (max_from scores best ks)
                         <= Spec.enum_index best)%nat).
           { apply Hfirst; [now left | lia]. }
           lia.
        -- apply Hfirst; [now right | exact He].
Qed.

End ClassifierFacts.

Import DocumentClassifier.

(** C8. For every text the classifier returns a type, this type has the
    largest presence score, and no type that comes earlier in the
    enumeration has the same score. *)
Theorem classifier_predicts_first_maximum (content : pystr) :
  exists t c,
    _classify_content content = Ok (t, c)
    /\ (forall t', Spec.presence_score t' content <= Spec.presence_score t content)%Z
    /\ (forall t', Spec.presence_score t' content = Spec.presence_score t content ->
                   (Spec.enum_index t <= Spec.enum_index t')%nat).
Proof.
  assert (Hall : forall t,
             In t [MEDICAL_RECORD; ACCIDENT_REPORT; INVOICE; IDENTITY_CARD;
                   BANK_STATEMENT; INSURANCE_CONTRACT]).
  { intros []; simpl; tauto. }
  unfold _classify_content. rewrite max_key_scores. cbn [bind].
  set (scores := scores_of keyword_mapping content).
  destruct (max_from_first_maximum scores
              [ACCIDENT_REPORT; INVOICE; IDENTITY_CARD; BANK_STATEMENT;
               INSURANCE_CONTRACT] MEDICAL_RECORD) as [_ [Hmax Hfirst]].
  { repeat constructor. }
  set (r := max_from scores MEDICAL_RECORD _) in *.
  assert (Hmax' : forall t,
             (Spec.presence_score t content <= Spec.presence_score r content)%Z).
  { intros t. rewrite <- !scores_get_presence. apply Hmax, Hall. }
  assert (Hfirst' : forall t,
             Spec.presence_score t content = Spec.presence_score r content ->
             (Spec.enum_index r <= Spec.enum_index t)%nat).
  { intros t. rewrite <- !scores_get_presence. apply Hfirst, Hall. }
  unfold scores at 1. rewrite scores_get_presence.
  destruct (Z.eqb_spec (Spec.presence_score r content) 0) as [Hz|Hnz].
  - exists MEDICAL_RECORD, (1 # 10)%Q. split; [reflexivity|].
    assert (Hzero : forall t, Spec.presence_score t content = 0%Z).
    { intros t. pose proof (Hmax' t). pose proof (presence_score_nonneg t content). lia. }
    split; intros t; rewrite ?Hzero; intros; simpl; lia.
  - eexists r, _. split; [reflexivity|]. split; assumption.
Qed.

Lemma classifier_predicts_first_maximum_witness :
  exists t c,
    _classify_content (py "发票 事故") = Ok (t, c)
    /\ (forall t', Spec.presence_score t' (py "发票 事故")
                   <= Spec.presence_score t (py "发票 事故"))%Z
    /\ (forall t', Spec.presence_score t' (py "发票 事故")
                   = Spec.presence_score t (py "发票 事故") ->
                   (Spec.enum_index t <= Spec.enum_index t')%nat).
Proof. exact (classifier_predicts_first_maximum (py "发票 事故")). Defined.

(** C6. When no configured keyword of any document type occurs in the
    text as a case-insensitive substring, the classification is
    medical_record with confidence 0.1, and the alternative types are
    accident_report, invoice and identity_card. *)
Theorem classify_without_keyword (doc_id content : pystr) :
  (forall t kw, In kw (Spec.keywords_of t) -> ~ Spec.occurs_ci kw content) ->
  classify_document doc_id content
  = Ok {| cr_document_id := doc_id;
          predicted_type := MEDICAL_RECORD;
          cr_confidence := 1 # 10;
          alternative_types := Some [ACCIDENT_REPORT; INVOICE; IDENTITY_CARD] |}.
Proof.
  intros Hnone.
  unfold classify_document, _classify_content.
  rewrite max_key_scores. cbn [bind]. rewrite scores_get_presence.
  rewrite presence_score_zero by (intros kw; apply Hnone).
  reflexivity.
Qed.

Lemma classify_without_keyword_witness :
  classify_document (py "doc-1") (py "Hello, world")
  = Ok {| cr_document_id := py "doc-1";
          predicted_type := MEDICAL_RECORD;
          cr_confidence := 1 # 10;
          alternative_types := Some [ACCIDENT_REPORT; INVOICE; IDENTITY_CARD] |}.
Proof.
  apply classify_without_keyword.
  intros t kw Hin Hocc. apply occurs_ci_b_spec in Hocc.
  destruct t; vm_compute in Hin;
    repeat (destruct Hin as [Hin|Hin];
            [rewrite <- Hin in Hocc; vm_compute in Hocc; discriminate Hocc|]);
    exact Hin.
Defined.

(** C9. Appending one of the configured keywords of a document type to a
    text never lowers the score of that type, and the keyword occurs in
    the new text. *)
Theorem appending_keyword_is_monotonic (t : DocumentType) (content kw : pystr) :
  In kw (Spec.keywords_of t) ->
  (scores_get (scores_of keyword_mapping content) t
   <= scores_get (scores_of keyword_mapping (content ++ kw)) t)%Z
  /\ Spec.occurs_ci kw (content ++ kw)
  /\ (1 <= scores_get (scores_of keyword_mapping (content ++ kw)) t)%Z.
Proof.
  intros Hin. rewrite !scores_get_presence.
  assert (Hocc : Spec.occurs_ci kw (content ++ kw)).
  { exists content, kw, []. now rewrite app_nil_r. }
  split; [apply presence_score_app|]. split; [exact Hocc|].
  unfold Spec.presence_score.
  apply occurs_ci_b_spec in Hocc.
  induction (Spec.keywords_of t) as [|k ks IH]; [destruct Hin|].
  simpl. destruct Hin as [->|Hin].
  - rewrite Hocc. simpl. lia.
  - specialize (IH Hin). destruct (Spec.occurs_ci_b k (content ++ kw)); simpl; lia.
Qed.

Lemma appending_keyword_is_monotonic_witness :
  (scores_get (scores_of keyword_mapping (py "发票 2023")) MEDICAL_RECORD
   <= scores_get (scores_of keyword_mapping (py "发票 2023" ++ py "诊断")) MEDICAL_RECORD)%Z
  /\ Spec.occurs_ci (py "诊断") (py "发票 2023" ++ py "诊断")
  /\ (1 <= scores_get (scores_of keyword_mapping (py "发票 2023" ++ py "诊断"))
            MEDICAL_RECORD)%Z.
Proof.
  apply (appending_keyword_is_monotonic MEDICAL_RECORD (py "发票 2023") (py "诊断")).
  vm_compute. right. left. reflexivity.
Defined.

(** ** Regular expressions *)

Section RegexFacts.

(** The first element of [finditer] is the leftmost match. *)
Lemma finditer_head (ic : bool) (r : Re.regex) (s : pystr) :
  forall fuel, (length s < fuel)%nat ->
    hd_error (Re.finditer fuel ic r false s) = Re.search ic r s.
Proof.
  induction s as [|c s IH]; intros fuel Hfuel;
    (destruct fuel as [|fuel]; [inversion Hfuel|]); cbn [Re.finditer Re.search].
  - destruct (Re.match_here ic r false []) as [[m rest]|]; reflexivity.
  - destruct (Re.match_here ic r false (c :: s)) as [[m rest]|]; [reflexivity|].
    apply IH. simpl in Hfuel. lia.
Qed.

Lemma findall_head (pattern s : pystr) (ic : bool) (r : Re.regex) (g : nat) :
  Re.compile pattern = Some (r, g) ->
  exists items,
    Re.findall pattern s ic = Ok items
    /\ hd_error items = option_map (Re.item_of g) (Re.search ic r s).
Proof.
  intros Hc. unfold Re.findall. rewrite Hc. eexists. split; [reflexivity|].
  rewrite <- (finditer_head ic r s (2 * length s + 2)) by lia.
  now destruct (Re.finditer _ ic r false s).
Qed.

Lemma last_map_seq {A} (f : nat -> A) (n : nat) (d : A) :
  List.last (List.map f (seq 1 (S n))) d = f (S n).
Proof. rewrite seq_S, map_app. simpl. apply last_last. Qed.

(** What the extractor reads from an element of [re.findall]. *)
Lemma first_value_item_of (g : nat) (m : Re.rematch) :
  KeywordExtractor.first_value (Re.item_of g m) = ExtractorSpec.selected_text g m.
Proof.
  destruct g as [|[|g]]; try reflexivity.
  unfold Re.item_of, KeywordExtractor.first_value. apply last_map_seq.
Qed.

End RegexFacts.

(** ** Field extractor *)

Section ExtractorFacts.

Import KeywordExtractor.

Lemma extract_loop_spec (content : pystr) (defs : list FieldDef) :
  Forall ExtractorSpec.compiles defs ->
  forall acc,
    extract_loop defs content acc
    = Ok (acc ++ flat_map (ExtractorSpec.field_of_first_match content) defs).
Proof.
  induction 1 as [|d defs Hd _ IH]; intros acc; cbn [extract_loop flat_map].
  - now rewrite app_nil_r.
  - unfold ExtractorSpec.compiles in Hd. unfold ExtractorSpec.field_of_first_match at 1.
    destruct (Re.compile (pattern d)) as [[r g]|] eqn:Hc; [|congruence].
    destruct (findall_head (pattern d) content true r g Hc) as [items [-> Hhd]].
    cbn [bind].
    destruct (Re.search true r content) as [m|]; simpl in Hhd.
    + destruct items as [|first items]; [discriminate|].
      injection Hhd as ->. rewrite IH, first_value_item_of, <- app_assoc. reflexivity.
    + destruct items; [|discriminate]. rewrite IH. reflexivity.
Qed.

(** Every configured pattern is accepted by [re.compile]. *)
Lemma configured_patterns_compile (t : DocumentType) :
  Forall ExtractorSpec.compiles (ExtractorSpec.definitions_of t).
Proof.
  destruct t; repeat constructor; unfold ExtractorSpec.compiles; vm_compute; discriminate.
Qed.

Lemma extract_fields_spec (content : pystr) (t : DocumentType) :
  _extract_fields_by_type content t
  = Ok (flat_map (ExtractorSpec.field_of_first_match content)
          (ExtractorSpec.definitions_of t)).
Proof.
  pose proof (configured_patterns_compile t) as Hc.
  unfold _extract_fields_by_type, ExtractorSpec.definitions_of in *.
  destruct (definitions_get field_definitions t) as [defs|]; [|reflexivity].
  simpl in Hc. now rewrite extract_loop_spec.
Qed.

Lemma lstrip_head (s : pystr) (c : N) (rest : pystr) :
  lstrip s = c :: rest -> is_space c = false.
Proof.
  induction s as [|x s IH]; simpl; [discriminate|].
  destruct (is_space x) eqn:E; [exact IH|].
  intros H. injection H as <- _. exact E.
Qed.

Lemma lstrip_suffix (s : pystr) : exists pre, s = pre ++ lstrip s.
Proof.
  induction s as [|x s [pre IH]]; simpl.
  - now exists [].
  - destruct (is_space x); [|now exists []].
    exists (x :: pre). simpl. now rewrite <- IH.
Qed.

Lemma strip_trimmed (s : pystr) : ExtractorSpec.trimmed (strip s).
Proof.
  unfold strip. split.
  - intros c rest. apply lstrip_head.
  - intros c front Hs.
    destruct (lstrip_suffix (rstrip s)) as [pre Hpre].
    rewrite Hs, app_assoc in Hpre. unfold rstrip in Hpre.
    apply (f_equal (@rev N)) in Hpre. rewrite rev_involutive, rev_app_distr in Hpre.
    simpl in Hpre. now apply lstrip_head in Hpre.
Qed.

End ExtractorFacts.

Import KeywordExtractor.

(** C2, as stated, fails: a match whose value is blank is not skipped.
    For the text "患者： " (a colon followed by one space) the pattern of
    patient_name matches with the space as its group, and the field is
    extracted with the empty string as value. *)
Lemma blank_value_is_extracted :
  _extract_fields_by_type (py "患者： ") MEDICAL_RECORD
  = Ok [{| field_name := py "patient_name"; field_value := [];
           confidence := 9 # 10; page_number := None; position := None |}].
Proof. vm_compute. reflexivity. Qed.

(** C2, amended. The extractor always returns; the value of every
    extracted field is trimmed (no white space at either end, possibly
    empty); and the extracted fields are, in order, those of the field
    definitions whose pattern matches: a field is omitted only when its
    pattern has no match. *)
Theorem extracted_values_are_trimmed (content : pystr) (t : DocumentType) :
  exists fields,
    _extract_fields_by_type content t = Ok fields
    /\ Forall (fun f => ExtractorSpec.trimmed (field_value f)) fields
    /\ List.map field_name fields
       = List.map name
           (List.filter (ExtractorSpec.has_match content) (ExtractorSpec.definitions_of t)).
Proof.
  eexists. split; [apply extract_fields_spec|].
  induction (ExtractorSpec.definitions_of t) as [|d defs [IH1 IH2]]; cbn [flat_map List.filter].
  - split; [constructor | reflexivity].
  - unfold ExtractorSpec.field_of_first_match at 1 3, ExtractorSpec.has_match at 1.
    destruct (Re.compile (pattern d)) as [[r g]|]; [|now split].
    destruct (Re.search true r content) as [m|]; [|now split].
    split.
    + constructor; [apply strip_trimmed | exact IH1].
    + cbn [app List.map field_name]. now rewrite IH2.
Qed.

(** C3, as stated, fails for a pattern with exactly one group: the value
    is the group, not the whole match. The pattern of patient_name has
    one group; in "患者：张三" its first match is the whole text, and
    the extracted value is "张三". *)
Lemma single_group_value_is_the_group :
  exists d r m f,
    In d (ExtractorSpec.definitions_of MEDICAL_RECORD)
    /\ Re.compile (pattern d) = Some (r, 1%nat)
    /\ Re.search true r (py "患者：张三") = Some m
    /\ Re.m_text m = py "患者：张三"
    /\ _extract_fields_by_type (py "患者：张三") MEDICAL_RECORD = Ok [f]
    /\ field_name f = name d
    /\ field_value f = py "张三"
    /\ field_value f <> strip (Re.m_text m).
Proof.
  eexists (fd "patient_name" "患者[：:]\s*([^\n\r]+)" "患者姓名"), _, _, _.
  split; [left; reflexivity|].
  split; [vm_compute; reflexivity|].
  split; [vm_compute; reflexivity|].
  split; [reflexivity|].
  split; [vm_compute; reflexivity|].
  split; [reflexivity|].
  split; [reflexivity|].
  vm_compute. discriminate.
Qed.

(** C3, amended. For every text and document type the extractor returns,
    for each field definition in order, the field read from the first
    (leftmost) match of its pattern, matched case-insensitively: the
    value is the last group of that match when the pattern has at least
    one group, the whole match when it has none, trimmed in both cases;
    a definition whose pattern does not match yields no field. Every
    configured pattern has one or two groups, so that every value is a
    group of the match. *)
Theorem field_value_is_last_group_of_first_match (content : pystr) (t : DocumentType) :
  _extract_fields_by_type content t
  = Ok (flat_map (ExtractorSpec.field_of_first_match content)
          (ExtractorSpec.definitions_of t))
  /\ Forall (fun d => exists r g,
                Re.compile (pattern d) = Some (r, g) /\ (1 <= g <= 2)%nat)
       (ExtractorSpec.definitions_of t).
Proof.
  split; [apply extract_fields_spec|].
  destruct t; repeat constructor; eexists _, _;
    (split; [vm_compute; reflexivity | lia]).
Qed.

(** ** Merging of extraction results *)

Section MergeFacts.

Import EvaluatorSpec.

Lemma merge_is_fold (results : list ExtractionResult) :
  _merge_extraction_results results = fold_left write (fields_in_order results) ∅.
Proof.
  unfold _merge_extraction_results, fields_in_order.
  generalize (∅ : gmap pystr FieldEntry).
  induction results as [|r rs IH]; intros m; simpl; [reflexivity|].
  rewrite fold_left_app. apply IH.
Qed.

Lemma fold_write_lookup (fs : list ExtractedField) (n : pystr) :
  forall m : gmap pystr FieldEntry,
    fold_left write fs m !! n
    = match last_with_name n fs with
      | Some f => Some (entry_of f)
      | None => m !! n
      end.
Proof.
  induction fs as [|f fs IH]; intros m; simpl; [reflexivity|].
  rewrite IH. destruct (last_with_name n fs); [reflexivity|].
  unfold write. destruct (decide (field_name f = n)) as [->|Hne].
  - apply lookup_insert_eq.
  - now apply lookup_insert_ne.
Qed.

Lemma last_with_name_app (n : pystr) (a b : list ExtractedField) :
  last_with_name n (a ++ b)
  = match last_with_name n b with
    | Some g => Some g
    | None => last_with_name n a
    end.
Proof.
  induction a as [|f a IH]; simpl.
  - now destruct (last_with_name n b).
  - rewrite IH. now destruct (last_with_name n b).
Qed.

Lemma last_with_name_none (n : pystr) (fs : list ExtractedField) :
  (forall f, In f fs -> field_name f <> n) -> last_with_name n fs = None.
Proof.
  induction fs as [|f fs IH]; intros H; simpl; [reflexivity|].
  rewrite IH by (intros g Hg; apply H; now right).
  destruct (decide (field_name f = n)) as [E|_]; [|reflexivity].
  exfalso. apply (H f); [now left | exact E].
Qed.

Lemma last_with_name_in (n : pystr) (fs : list ExtractedField) (g : ExtractedField) :
  last_with_name n fs = Some g -> In g fs /\ field_name g = n.
Proof.
  induction fs as [|x fs IH]; simpl; [discriminate|].
  destruct (last_with_name n fs) as [h|].
  - intros E. injection E as ->. destruct (IH eq_refl) as [Hin Hn].
    split; [now right | exact Hn].
  - destruct (decide (field_name x = n)) as [Hx|_]; [|discriminate].
    intros E. injection E as ->. split; [now left | exact Hx].
Qed.

Lemma last_with_name_some (n : pystr) (fs : list ExtractedField) (f : ExtractedField) :
  In f fs -> field_name f = n ->
  exists g, last_with_name n fs = Some g /\ In g fs /\ field_name g = n.
Proof.
  intros Hin Hn.
  assert (Hsome : last_with_name n fs <> None).
  { induction fs as [|x fs IH]; [destruct Hin|]. simpl.
    destruct (last_with_name n fs); [discriminate|].
    destruct Hin as [->|Hin]; [|now elim IH].
    destruct (decide (field_name f = n)); [discriminate | contradiction]. }
  destruct (last_with_name n fs) as [g|] eqn:E; [|contradiction].
  exists g. split; [reflexivity|]. now apply last_with_name_in.
Qed.

End MergeFacts.

(** C7. The merged field map holds, under each field name, the value and
    the confidence of the last field of that name in processing order;
    in particular, when several documents yield a field of the same
    name, the entry comes from the document processed last among them,
    whatever the earlier documents hold. *)
Theorem merge_last_write_wins (results : list ExtractionResult) (n : pystr) :
  _merge_extraction_results results !! n
  = option_map EvaluatorSpec.entry_of
      (EvaluatorSpec.last_with_name n (EvaluatorSpec.fields_in_order results))
  /\ (forall earlier later after f,
        results = earlier ++ later :: after ->
        In f (extracted_fields later) -> field_name f = n ->
        (forall r f', In r after -> In f' (extracted_fields r) -> field_name f' <> n) ->
        exists g, In g (extracted_fields later) /\ field_name g = n
                  /\ _merge_extraction_results results !! n
                     = Some {| value := field_value g; entry_confidence := confidence g |}).
Proof.
  assert (Hgen : forall rs,
             _merge_extraction_results rs !! n
             = option_map EvaluatorSpec.entry_of
                 (EvaluatorSpec.last_with_name n (EvaluatorSpec.fields_in_order rs))).
  { intros rs. rewrite merge_is_fold, fold_write_lookup.
    destruct (EvaluatorSpec.last_with_name n _); [reflexivity | apply lookup_empty]. }
  split; [apply Hgen|].
  intros earlier later after f -> Hin Hn Hafter.
  destruct (last_with_name_some n (extracted_fields later) f Hin Hn) as [g [Hg [Hing Hng]]].
  exists g. split; [exact Hing|]. split; [exact Hng|].
  rewrite Hgen. unfold EvaluatorSpec.fields_in_order.
  rewrite flat_map_app. cbn [flat_map].
  rewrite last_with_name_app, last_with_name_app.
  rewrite (last_with_name_none n (flat_map extracted_fields after)).
  - now rewrite Hg.
  - intros f' Hf'. apply in_flat_map in Hf' as [r [Hr Hf']]. now apply (Hafter r).
Qed.

Lemma merge_last_write_wins_witness :
  exists g,
    In g [field "diagnosis" "急性阑尾炎"]
    /\ field_name g = py "diagnosis"
    /\ _merge_extraction_results
         [ {| er_document_id := py "a";
              extracted_fields := [field "patient_name" "张三"; field "diagnosis" "感冒"];
              extraction_accuracy := 1 |};
           {| er_document_id := py "b";
              extracted_fields := [field "diagnosis" "急性阑尾炎"];
              extraction_accuracy := 1 |};
           {| er_document_id := py "c";
              extracted_fields := [field "invoice_amount" "¥5000.00"];
              extraction_accuracy := 1 |} ] !! py "diagnosis"
       = Some {| value := field_value g; entry_confidence := confidence g |}.
Proof.
  apply (proj2 (merge_last_write_wins _ (py "diagnosis"))
           [ {| er_document_id := py "a";
                extracted_fields := [field "patient_name" "张三"; field "diagnosis" "感冒"];
                extraction_accuracy := 1 |} ]
           {| er_document_id := py "b";
              extracted_fields := [field "diagnosis" "急性阑尾炎"];
              extraction_accuracy := 1 |}
           [ {| er_document_id := py "c";
                extracted_fields := [field "invoice_amount" "¥5000.00"];
                extraction_accuracy := 1 |} ]
           (field "diagnosis" "急性阑尾炎")).
  - reflexivity.
  - left. reflexivity.
  - reflexivity.
  - intros r f' [<-|[]] [<-|[]]. vm_compute. discriminate.
Defined.

(** ** Numbers *)

Section NumberFacts.

Lemma qlt_spec (a b : Q) : qlt a b = true <-> (a < b)%Q.
Proof.
  unfold qlt. rewrite negb_true_iff, <- not_true_iff_false, Qle_bool_iff.
  split; [apply Qnot_le_lt | apply Qlt_not_le].
Qed.

Lemma pymax_Qmax (a b : Q) : pymax a b = Qmax a b.
Proof.
  unfold pymax, Qmax, GenericMinMax.gmax.
  destruct (qlt a b) eqn:E.
  - apply qlt_spec in E. pose proof (proj1 (Qlt_alt a b) E) as C. now rewrite C.
  - destruct (a ?= b)%Q eqn:C; try reflexivity.
    apply Qlt_alt, qlt_spec in C. congruence.
Qed.

Lemma pymin_Qmin (a b : Q) : pymin a b = Qmin a b.
Proof.
  unfold pymin, Qmin, GenericMinMax.gmin.
  destruct (qlt b a) eqn:E.
  - apply qlt_spec in E. pose proof (proj1 (Qgt_alt a b) E) as C. now rewrite C.
  - destruct (a ?= b)%Q eqn:C; try reflexivity.
    apply Qgt_alt, qlt_spec in C. congruence.
Qed.

Lemma round_half_even_near (x : Q) :
  (- (1 # 2) <= inject_Z (round_half_even x) - x)%Q
  /\ (inject_Z (round_half_even x) - x <= 1 # 2)%Q.
Proof.
  unfold round_half_even.
  pose proof (Qfloor_le x) as Hlo. pose proof (Qlt_floor x) as Hhi.
  rewrite inject_Z_plus in Hhi. change (inject_Z 1) with 1%Q in Hhi.
  destruct (x - inject_Z (Qfloor x) ?= 1 # 2)%Q eqn:C.
  - apply Qeq_alt in C.
    destruct (Z.even (Qfloor x)); rewrite ?inject_Z_plus;
      change (inject_Z 1) with 1%Q; lra.
  - apply Qlt_alt in C. lra.
  - apply Qgt_alt in C. rewrite inject_Z_plus. change (inject_Z 1) with 1%Q. lra.
Qed.

Lemma round2_rounded (x : Q) : EvaluatorSpec.rounded_to_cents x (round2 x).
Proof.
  unfold EvaluatorSpec.rounded_to_cents, round2. split; [now eexists|].
  destruct (round_half_even_near (x * 100)) as [Hlo Hhi].
  generalize dependent (round_half_even (x * 100)). intros n Hlo Hhi.
  assert (E : (n # 100) == inject_Z n * (1 # 100)).
  { unfold Qeq. simpl. lia. }
  rewrite E. split; lra.
Qed.

End NumberFacts.

(** ** The amount read from a text

    The pattern [\d+(?:\.\d+)?] of the evaluator, run by the backtracking
    matcher, finds the first numeric token of the specification. *)

Section NumberPattern.

Import EvaluatorSpec.

Lemma compile_number_pattern : Re.compile number_pattern = Some (number_regex, O).
Proof. reflexivity. Qed.

Lemma take_digits_app (s : pystr) :
  s = fst (take_digits s) ++ snd (take_digits s).
Proof.
  induction s as [|c s IH]; simpl; [reflexivity|].
  destruct (is_decimal c); [|reflexivity].
  destruct (take_digits s) as [ds rest]. simpl in *. now rewrite <- IH.
Qed.

Lemma take_digits_all (s : pystr) : forallb is_decimal (fst (take_digits s)) = true.
Proof.
  induction s as [|c s IH]; simpl; [reflexivity|].
  destruct (is_decimal c) eqn:E; [|reflexivity].
  destruct (take_digits s) as [ds rest]. simpl in *. now rewrite E.
Qed.

Lemma take_digits_length (s : pystr) :
  (length (snd (take_digits s)) <= length s)%nat.
Proof.
  rewrite (take_digits_app s) at 2. rewrite length_app. lia.
Qed.

Lemma digit_set_match {A} (s : pystr) (cs : Re.caps) (k : pystr -> Re.caps -> option A) :
  Re.rmatch false digit_set s cs k
  = match s with
    | c :: s' => if is_decimal c then k s' cs else None
    | [] => None
    end.
Proof.
  destruct s as [|c s]; [reflexivity|].
  unfold digit_set. cbn [Re.rmatch]. unfold Re.set_match.
  cbn [existsb Re.citem_match]. now destruct (is_decimal c).
Qed.

Lemma rep_loop_step {A} (body : Re.matcher A) (lo : nat) (hi : option nat)
    (k : pystr -> Re.caps -> option A) (fuel n : nat) (last : option nat)
    (s : pystr) (cs : Re.caps) :
  Re.rep_loop body lo hi k (S fuel) n last s cs
  = if (n <? lo)%nat
    then body s cs (fun s' cs' => Re.rep_loop body lo hi k fuel (S n) last s' cs')
    else
      match
        (if Re.under hi n && negb (bool_decide (last = Some (length s)))
         then body s cs (fun s' cs' =>
                Re.rep_loop body lo hi k fuel (S n) (Some (length s)) s' cs')
         else None)
      with
      | Some x => Some x
      | None => k s cs
      end.
Proof. reflexivity. Qed.

Lemma rmatch_rep {A} (ic : bool) (lo : nat) (hi : option nat) (a : Re.regex)
    (s : pystr) (cs : Re.caps) (k : pystr -> Re.caps -> option A) :
  Re.rmatch ic (Re.RRep lo hi a) s cs k
  = Re.rep_loop (Re.rmatch ic a) lo hi k (S (S (lo + length s))) O None s cs.
Proof. cbn [Re.rmatch]. now rewrite Nat.add_comm. Qed.

Lemma rmatch_point {A} (s : pystr) (cs : Re.caps) (k : pystr -> Re.caps -> option A) :
  Re.rmatch false (Re.RChar 46) s cs k
  = match s with
    | 46 :: s' => k s' cs
    | _ => None
    end.
Proof.
  destruct s as [|c s]; [reflexivity|].
  cbn [Re.rmatch]. unfold Re.chr_match. cbn [andb]. rewrite orb_false_r.
  destruct (N.eqb_spec c 46) as [->|Hc]; [reflexivity|].
  destruct c as [|p]; [reflexivity|].
  do 6 (destruct p as [p|p|]; try reflexivity); now elim Hc.
Qed.

(** Once the lower bound is met, the loop over digits runs to the end of
    the digits, provided the continuation accepts there. *)
Lemma rep_digits_greedy {A} (k : pystr -> Re.caps -> option A) (cs : Re.caps) :
  forall fuel n last s,
    (1 <= n)%nat -> (length s < fuel)%nat -> last <> Some (length s) ->
    k (snd (take_digits s)) cs <> None ->
    Re.rep_loop (Re.rmatch false digit_set) 1 None k fuel n last s cs
    = k (snd (take_digits s)) cs.
Proof.
  induction fuel as [|fuel IH]; intros n last s Hn Hfuel Hlast Hk; [inversion Hfuel|].
  rewrite rep_loop_step.
  replace (n <? 1)%nat with false by (symmetry; apply Nat.ltb_ge; lia).
  rewrite (bool_decide_eq_false_2 _ Hlast). cbn [Re.under andb negb].
  rewrite digit_set_match.
  destruct s as [|c s]; [reflexivity|].
  cbn [take_digits] in *. destruct (is_decimal c); [|reflexivity].
  destruct (take_digits s) as [ds rest] eqn:E. cbn [snd] in *.
  rewrite IH; [| lia | simpl in Hfuel; lia | simpl; intros [=]; lia | now rewrite E].
  rewrite E. cbn [snd]. now destruct (k rest cs).
Qed.

(** [\d+] followed by a continuation that accepts after the digits. *)
Lemma digits_plus_match {A} (k : pystr -> Re.caps -> option A) (cs : Re.caps) (s : pystr) :
  k (snd (take_digits s)) cs <> None ->
  Re.rmatch false (Re.RRep 1 None digit_set) s cs k
  = match s with
    | c :: _ => if is_decimal c then k (snd (take_digits s)) cs else None
    | [] => None
    end.
Proof.
  intros Hk. rewrite rmatch_rep, rep_loop_step.
  change (0 <? 1)%nat with true. cbv iota.
  rewrite digit_set_match. destruct s as [|c s]; [reflexivity|].
  cbn [take_digits] in *. destruct (is_decimal c); [|reflexivity].
  destruct (take_digits s) as [ds rest] eqn:E. cbn [snd] in *.
  rewrite rep_digits_greedy; rewrite ?E; cbn [snd]; try assumption; try reflexivity;
    try discriminate; simpl; lia.
Qed.

(** The optional fraction [(?:\.\d+)?] followed by a continuation that
    accepts everywhere. *)
Lemma fraction_match {A} (k : pystr -> Re.caps -> option A) (cs : Re.caps) (s : pystr) :
  (forall s' cs', k s' cs' <> None) ->
  Re.rmatch false
    (Re.RRep 0 (Some 1%nat) (Re.RSeq (Re.RChar 46) (Re.RRep 1 None digit_set))) s cs k
  = match s with
    | 46 :: after_point =>
        match fst (take_digits after_point) with
        | [] => k s cs
        | _ => k (snd (take_digits after_point)) cs
        end
    | _ => k s cs
    end.
Proof.
  intros Hk. rewrite rmatch_rep. cbn [Nat.add]. rewrite rep_loop_step.
  change (0 <? 0)%nat with false. cbn [Re.under]. change (0 <? 1)%nat with true.
  rewrite bool_decide_eq_false_2 by discriminate. cbn [andb negb].
  match goal with
  | |- context [Re.rmatch false (Re.RSeq _ _) s cs ?kk] => set (k2 := kk)
  end.
  assert (Hk2 : forall s', k2 s' cs = k s' cs).
  { intros s'. unfold k2. rewrite rep_loop_step.
    change (1 <? 0)%nat with false. cbn [Re.under].
    change (1 <? 1)%nat with false. reflexivity. }
  change (Re.rmatch false (Re.RSeq (Re.RChar 46) (Re.RRep 1 None digit_set)) s cs k2)
    with (Re.rmatch false (Re.RChar 46) s cs
            (fun s' cs' => Re.rmatch false (Re.RRep 1 None digit_set) s' cs' k2)).
  rewrite rmatch_point.
  destruct s as [|c s]; [reflexivity|].
  destruct c as [|p]; [reflexivity|].
  do 6 (destruct p as [p|p|]; try reflexivity).
  rewrite digits_plus_match by (rewrite Hk2; apply Hk).
  rewrite Hk2. clear Hk2 k2.
  destruct s as [|d s]; [reflexivity|].
  cbn [take_digits] in *. destruct (is_decimal d); [|reflexivity].
  destruct (take_digits s) as [ds rest]. cbn [fst snd] in *.
  pose proof (Hk rest cs). now destruct (k rest cs).
Qed.

Lemma consumed_app (pre rest : pystr) : Re.consumed (pre ++ rest) rest = pre.
Proof.
  unfold Re.consumed. rewrite length_app, Nat.add_sub, firstn_app, Nat.sub_diag.
  rewrite firstn_all, firstn_O. apply app_nil_r.
Qed.

(** A match of the pattern at the beginning of a text. *)
Lemma match_here_number (s : pystr) :
  Re.match_here false number_regex false s
  = match s with
    | c :: _ =>
        if is_decimal c then
          let rest := snd (take_digits s) in
          let whole := Re.consumed s rest in
          match rest with
          | 46 :: after_point =>
              match fst (take_digits after_point) with
              | [] => Some ({| Re.m_text := whole; Re.m_caps := [] |}, rest)
              | _ =>
                  Some ({| Re.m_text := Re.consumed s (snd (take_digits after_point));
                           Re.m_caps := [] |}, snd (take_digits after_point))
              end
          | _ => Some ({| Re.m_text := whole; Re.m_caps := [] |}, rest)
          end
        else None
    | [] => None
    end.
Proof.
  unfold Re.match_here, number_regex. cbn [Re.rmatch andb].
  change (Re.rep_loop (Re.rmatch false digit_set) 1 None ?k (1 + length s + 2) 0 None s [])
    with (Re.rmatch false (Re.RRep 1 None digit_set) s [] k).
  match goal with
  | |- Re.rmatch false _ s [] ?kk = _ => set (k1 := kk)
  end.
  assert (Hk1 : forall s' cs',
             k1 s' cs'
             = Re.rmatch false
                 (Re.RRep 0 (Some 1%nat)
                    (Re.RSeq (Re.RChar 46) (Re.RRep 1 None digit_set))) s' cs'
                 (fun s'' cs'' =>
                    Some ({| Re.m_text := Re.consumed s s''; Re.m_caps := cs'' |}, s'')))
    by reflexivity.
  assert (Hk1' : forall s' cs', k1 s' cs' <> None).
  { intros s' cs'. rewrite Hk1, fraction_match by discriminate.
    destruct s' as [|c s']; [discriminate|].
    destruct c as [|p]; [discriminate|].
    do 6 (destruct p as [p|p|]; try discriminate).
    destruct (fst (take_digits s')); discriminate. }
  rewrite digits_plus_match by apply Hk1'.
  destruct s as [|c s]; [reflexivity|].
  destruct (is_decimal c); [|reflexivity].
  rewrite Hk1, fraction_match by discriminate. reflexivity.
Qed.

Lemma search_number (s : pystr) :
  Re.search false number_regex s
  = option_map (fun tok => {| Re.m_text := token_text tok; Re.m_caps := [] |})
      (first_numeric_token s).
Proof.
  induction s as [|c s IH]; cbn [Re.search first_numeric_token];
    rewrite match_here_number; [reflexivity|].
  destruct (is_decimal c) eqn:Hc; [|exact IH]. clear IH.
  pose proof (take_digits_app (c :: s)) as Happ.
  destruct (take_digits (c :: s)) as [int_part rest] eqn:E. cbn [fst snd] in *.
  cbv zeta.
  assert (Hwhole : Re.consumed (c :: s) rest = int_part).
  { rewrite Happ. apply consumed_app. }
  destruct rest as [|d after_point]; [now rewrite Hwhole|].
  destruct d as [|p]; [now rewrite Hwhole|].
  do 6 (destruct p as [p|p|]; try now rewrite Hwhole).
  pose proof (take_digits_app after_point) as Hfrac.
  destruct (take_digits after_point) as [frac_part rest'] eqn:E'. cbn [fst snd] in *.
  destruct frac_part as [|f frac_part]; [now rewrite Hwhole|].
  cbn [option_map]. do 2 f_equal. unfold token_text. cbn [fst snd].
  rewrite Happ, Hfrac.
  change (int_part ++ 46 :: (f :: frac_part) ++ rest')
    with (int_part ++ (46 :: f :: frac_part) ++ rest').
  rewrite app_assoc. apply consumed_app.
Qed.

(** The token found is well formed: digits, at least one before the
    point. *)
Lemma first_numeric_token_digits (s : pystr) (tok : pystr * pystr) :
  first_numeric_token s = Some tok ->
  fst tok <> [] /\ forallb is_decimal (fst tok) = true
  /\ forallb is_decimal (snd tok) = true.
Proof.
  induction s as [|c s IH]; cbn [first_numeric_token]; [discriminate|].
  destruct (is_decimal c) eqn:Hc; [|exact IH]. clear IH.
  pose proof (take_digits_all (c :: s)) as Hall.
  assert (Hne : fst (take_digits (c :: s)) <> []).
  { cbn [take_digits]. rewrite Hc. now destruct (take_digits s). }
  destruct (take_digits (c :: s)) as [int_part rest]. cbn [fst] in *.
  assert (Hsimple : Some (int_part, @nil N) = Some tok ->
                    fst tok <> [] /\ forallb is_decimal (fst tok) = true
                    /\ forallb is_decimal (snd tok) = true).
  { intros H. injection H as <-. now repeat split. }
  destruct rest as [|d after_point]; [exact Hsimple|].
  destruct d as [|p]; [exact Hsimple|].
  do 6 (destruct p as [p|p|]; try exact Hsimple).
  intros H. injection H as <-. cbn [fst snd]. repeat split; try assumption.
  apply take_digits_all.
Qed.

Lemma decimal_is_not_point (c : N) : is_decimal c = true -> (c =? 46) = false.
Proof.
  intros H. destruct (N.eqb_spec c 46) as [->|]; [|reflexivity].
  vm_compute in H. discriminate.
Qed.

Lemma split_point_digits (ds rest : pystr) :
  forallb is_decimal ds = true ->
  split_point (ds ++ rest) = (ds ++ fst (split_point rest), snd (split_point rest)).
Proof.
  induction ds as [|c ds IH]; intros H; cbn [app split_point].
  - now destruct (split_point rest).
  - cbn [forallb] in H. apply andb_true_iff in H as [Hc Hds].
    rewrite (decimal_is_not_point c Hc), (IH Hds). reflexivity.
Qed.

Lemma digits_value_digits (ds : pystr) :
  forallb is_decimal ds = true ->
  forall acc,
    digits_value acc ds
    = Some (fold_left (fun a c => 10 * a + default 0 (decimal_value c)) ds acc).
Proof.
  induction ds as [|c ds IH]; intros H acc; cbn [digits_value fold_left]; [reflexivity|].
  cbn [forallb] in H. apply andb_true_iff in H as [Hc Hds].
  unfold is_decimal in Hc. destruct (decimal_value c) as [d|]; [|discriminate].
  now rewrite IH.
Qed.

(** [float] reads the text of a well-formed token as its value. *)
Lemma pyfloat_token (tok : pystr * pystr) :
  fst tok <> [] -> forallb is_decimal (fst tok) = true ->
  forallb is_decimal (snd tok) = true ->
  pyfloat (token_text tok) = Ok (numeral_value tok).
Proof.
  destruct tok as [int_part frac_part]. cbn [fst snd]. intros Hne Hint Hfrac.
  assert (Hall : forallb is_decimal (int_part ++ frac_part) = true).
  { rewrite forallb_app, Hint, Hfrac. reflexivity. }
  unfold pyfloat, numeral_value, token_text, digits_to_N. cbn [fst snd].
  destruct frac_part as [|f frac_part].
  - rewrite <- (app_nil_r int_part) at 1. rewrite (split_point_digits _ _ Hint).
    cbn [split_point fst snd default]. rewrite !app_nil_r in *.
    destruct int_part as [|c int_part]; [contradiction|].
    now rewrite (digits_value_digits _ Hint).
  - rewrite (split_point_digits _ _ Hint). cbn [split_point fst snd default].
    rewrite N.eqb_refl, app_nil_r. cbn [default].
    destruct int_part as [|c int_part]; [contradiction|].
    cbn [app] in *. now rewrite (digits_value_digits _ Hall).
Qed.

Lemma replace_commas (s : pystr) : replace (py ",") [] s = remove_commas s.
Proof.
  unfold replace, remove_commas. change (py ",") with [44].
  induction s as [|c s IH]; cbn [replace_from List.filter startswith]; [reflexivity|].
  rewrite andb_true_r, N.eqb_sym.
  destruct (c =? 44); cbn [negb app length Nat.sub]; now rewrite IH.
Qed.

(** The amount that the evaluator reads from a text is the value of the
    first numeric token of the text without its commas; reading it never
    fails. *)
Lemma first_number_spec (text : pystr) :
  first_number text
  = Ok (option_map numeral_value (first_numeric_token (remove_commas text))).
Proof.
  unfold first_number. rewrite replace_commas.
  destruct (findall_head number_pattern (remove_commas text) false _ _
              compile_number_pattern) as [items [-> Hhd]].
  cbn [bind]. rewrite search_number in Hhd.
  destruct (first_numeric_token (remove_commas text)) as [tok|] eqn:E;
    cbn [option_map] in *.
  - destruct items as [|first items]; [discriminate|].
    injection Hhd as ->. cbn [Re.item_of Re.m_text].
    destruct (first_numeric_token_digits _ _ E) as [Hne [Hint Hfrac]].
    now rewrite pyfloat_token.
  - destruct items; [reflexivity | discriminate].
Qed.

End NumberPattern.

(** ** Liability evaluator *)

Section EvaluatorFacts.

Import EvaluatorSpec.

Lemma parse_policy_terms_default (contract_terms : option pystr) :
  _parse_policy_terms contract_terms = Ok health_insurance_basic.
Proof. unfold _parse_policy_terms. destruct (truthy contract_terms); reflexivity. Qed.

Lemma default_limits :
  limit_number (limits health_insurance_basic) "年度报销上限" = Ok (Some 100000%Q)
  /\ limit_number (limits health_insurance_basic) "自付比例" = Ok (Some (1 # 10)%Q)
  /\ assoc (py "年度报销上限") (limits health_insurance_basic) = Some (VNum 100000).
Proof. repeat split. Qed.

(** The amount used by the payout and by the abnormal-cost rule. *)
Lemma read_invoice_amount (fields : gmap pystr FieldEntry) :
  exists numbers,
    first_number (get_value fields "invoice_amount" (py "0")) = Ok numbers
    /\ match numbers with Some x => x | None => 0%Q end = invoice_amount fields.
Proof.
  eexists. split; [apply first_number_spec|].
  unfold get_value, invoice_amount.
  destruct (fields !! py "invoice_amount") as [e|]; [|reflexivity].
  now destruct (first_numeric_token (remove_commas (value e))).
Qed.

Lemma payout_spec (fields : gmap pystr FieldEntry) (policy_info : PolicyTerms)
    (covered : bool) (exclusion_factors : list pystr) (limit ratio : Q) :
  limit_number (limits policy_info) "年度报销上限" = Ok (Some limit) ->
  limit_number (limits policy_info) "自付比例" = Ok (Some ratio) ->
  _calculate_recommended_payout fields policy_info covered exclusion_factors
  = Ok (payout_rule fields covered exclusion_factors ratio limit).
Proof.
  intros Hlimit Hratio. unfold _calculate_recommended_payout, payout_rule.
  destruct (negb covered || nonempty exclusion_factors); [reflexivity|].
  destruct (read_invoice_amount fields) as [numbers [-> <-]].
  cbn [bind]. rewrite Hlimit, Hratio. cbn [bind]. now rewrite pymin_Qmin.
Qed.

Lemma abnormal_cost_spec (fields : gmap pystr FieldEntry) :
  exists fired, _check_abnormal_cost fields = Ok fired.
Proof.
  unfold _check_abnormal_cost.
  destruct (read_invoice_amount fields) as [numbers [-> _]].
  cbn [bind]. destruct numbers; eexists; reflexivity.
Qed.

(** The only exception of the risk rules is the [ValueError] of [int]. *)
Lemma gender_rule_raises (now : datetime) (fields : gmap pystr FieldEntry) (e : exn) :
  _check_gender_age_inconsistency now fields = Raise e -> e = ValueError.
Proof.
  unfold _check_gender_age_inconsistency.
  set (check := fun age : Z => _).
  assert (Hcheck : forall age, check age <> Raise e).
  { intros age. unfold check.
    destruct (_ && _); [|discriminate]. destruct (existsb _ _); discriminate. }
  destruct (negb (isdigit _)).
  - destruct (nonempty _); [|discriminate].
    destruct (age_from_birth_date now _) as [age|]; [|discriminate].
    intros H. now elim (Hcheck age).
  - unfold pyint. destruct (get_value fields "age" []) as [|c s]; [now intros [= <-]|].
    destruct (4300 <? _)%Z; [now intros [= <-]|].
    destruct (digits_value 0 (c :: s)) as [n|]; [|now intros [= <-]].
    cbn [bind]. intros H. now elim (Hcheck (Z.of_N n)).
Qed.

Lemma apply_risk_rules_raises (now : datetime) (fields : gmap pystr FieldEntry) (e : exn) :
  _apply_risk_rules now fields = Raise e -> e = ValueError.
Proof.
  unfold _apply_risk_rules, risk_rules. cbn [apply_rules condition].
  destruct (_check_gender_age_inconsistency now fields) as [g|e'] eqn:Hg; cbn [bind].
  - destruct (abnormal_cost_spec fields) as [c ->]. cbn [bind]. discriminate.
  - intros [= <-]. now apply gender_rule_raises in Hg.
Qed.

(** The clock is read by the first risk rule only. *)
Lemma apply_risk_rules_clock (now1 now2 : datetime) (fields : gmap pystr FieldEntry) :
  _check_gender_age_inconsistency now1 fields = _check_gender_age_inconsistency now2 fields ->
  _apply_risk_rules now1 fields = _apply_risk_rules now2 fields.
Proof.
  intros H. unfold _apply_risk_rules, risk_rules. cbn [apply_rules condition].
  now rewrite H.
Qed.

(** The evaluation, once the policy is known to be the default one. *)
Lemma evaluate_spec (now : datetime) (fields : gmap pystr FieldEntry)
    (contract_terms : option pystr) :
  evaluate now fields contract_terms
  = (try risk_factors <- _apply_risk_rules now fields;
     let exclusion_factors := _check_exclusions fields health_insurance_basic in
     let coverage_issues :=
       if covered fields then []
       else [py "缺少诊断信息，无法确认是否在保障范围内"] in
     Ok {| coverage_applicable := covered fields;
           exclusion_factors := exclusion_factors;
           coverage_limit := Some 100000%Q;
           recommended_payout :=
             payout_rule fields (covered fields) exclusion_factors (1 # 10) 100000;
           evaluation_reasons :=
             _generate_evaluation_reasons (covered fields) coverage_issues
               exclusion_factors risk_factors;
           le_confidence :=
             _calculate_evaluation_confidence (covered fields)
               (len exclusion_factors) (len risk_factors) |}).
Proof.
  unfold evaluate. rewrite parse_policy_terms_default. cbn [bind].
  destruct default_limits as [Hlimit [Hratio Hassoc]].
  assert (Hcov : _check_coverage fields health_insurance_basic
                 = (covered fields,
                    if covered fields then []
                    else [py "缺少诊断信息，无法确认是否在保障范围内"])).
  { unfold _check_coverage, covered. now destruct (nonempty _). }
  rewrite Hcov.
  destruct (_apply_risk_rules now fields) as [risk_factors|e]; [|reflexivity].
  cbn [bind]. rewrite (payout_spec _ _ _ _ _ _ Hlimit Hratio). cbn [bind].
  rewrite Hassoc. reflexivity.
Qed.

Lemma confidence_floor (covered : bool) (exclusion_count risk_count : Z) :
  (1 # 10 <= _calculate_evaluation_confidence covered exclusion_count risk_count)%Q.
Proof.
  unfold _calculate_evaluation_confidence. rewrite pymax_Qmax. apply Q.le_max_r.
Qed.

End EvaluatorFacts.

(** C10. Whatever the contract terms, the policy is the basic health
    insurance bundle; two evaluations that differ only in the contract
    terms give the same result, and the coverage limit of every
    evaluation is 100000 (an evaluation that raises, raises the
    [ValueError] of a non-decimal age). *)
Theorem contract_terms_are_ignored (now : datetime) (fields : gmap pystr FieldEntry)
    (claim_id : pystr) (terms1 terms2 : option pystr) :
  _parse_policy_terms terms1 = Ok health_insurance_basic
  /\ LiabilityEvaluator.name health_insurance_basic = py "基本医疗保险"
  /\ evaluate now fields terms1 = evaluate now fields terms2
  /\ evaluate_claim now claim_id terms1 = evaluate_claim now claim_id terms2
  /\ match evaluate now fields terms1 with
     | Ok evaluation => coverage_limit evaluation = Some 100000%Q
     | Raise e => e = ValueError
     end.
Proof.
  split; [apply parse_policy_terms_default|]. split; [reflexivity|].
  split; [now rewrite !evaluate_spec|].
  split; [unfold evaluate_claim; cbn [_get_claim_data]; now rewrite !evaluate_spec|].
  rewrite evaluate_spec.
  destruct (_apply_risk_rules now fields) as [risk_factors|e] eqn:E; cbn [bind].
  - reflexivity.
  - now apply apply_risk_rules_raises in E.
Qed.

(** C1, as stated, fails: the evaluation reads the clock. For a female
    insured born on 1 January 2010 with a pregnancy diagnosis, the
    gender/age rule fires on 3 November 2026 (age 16) and not on
    1 January 2030 (age 20): the reasons and the confidence differ. *)
Lemma evaluation_depends_on_the_clock :
  exists evaluation1 evaluation2,
    evaluate (noon 2026 11 3)
      (fields_of [("gender", "女"); ("birth_date", "2010年1月1日");
                  ("diagnosis", "孕期检查")]%string) None = Ok evaluation1
    /\ evaluate (noon 2030 1 1)
         (fields_of [("gender", "女"); ("birth_date", "2010年1月1日");
                     ("diagnosis", "孕期检查")]%string) None = Ok evaluation2
    /\ evaluation_reasons evaluation1
       = [py "案件在保险保障范围内"; py "检测到1个风险点: 性别年龄不符"]
    /\ evaluation_reasons evaluation2
       = [py "案件在保险保障范围内"; py "未发现明显风险或免责情况"]
    /\ (le_confidence evaluation1 == 8 # 10)%Q
    /\ (le_confidence evaluation2 == 9 # 10)%Q.
Proof.
  eexists _, _.
  split; [vm_compute; reflexivity|].
  split; [vm_compute; reflexivity|].
  repeat split.
Qed.

(** C1, amended. Two evaluations of the same fields and policy terms
    give the same result when they derive the same age from the
    birth-date field, in particular when the age field is all digits or
    the birth-date field is missing or empty (the clock is then not
    read), or when the clock readings are the same; and [evaluate_claim],
    which reads the fields of the mock claim store, does not depend on
    the clock at all. *)
Theorem evaluation_is_determined_by_inputs_and_age (now1 now2 : datetime)
    (fields : gmap pystr FieldEntry) (contract_terms : option pystr) (claim_id : pystr) :
  (isdigit (get_value fields "age" []) = true
   \/ get_value fields "birth_date" [] = []
   \/ age_from_birth_date now1 (get_value fields "birth_date" [])
      = age_from_birth_date now2 (get_value fields "birth_date" []) ->
   evaluate now1 fields contract_terms = evaluate now2 fields contract_terms)
  /\ evaluate_claim now1 claim_id contract_terms
     = evaluate_claim now2 claim_id contract_terms.
Proof.
  assert (Hgen : forall fs : gmap pystr FieldEntry,
             isdigit (get_value fs "age" []) = true
             \/ get_value fs "birth_date" [] = []
             \/ age_from_birth_date now1 (get_value fs "birth_date" [])
                = age_from_birth_date now2 (get_value fs "birth_date" []) ->
             evaluate now1 fs contract_terms = evaluate now2 fs contract_terms).
  { intros fs H. rewrite !evaluate_spec.
    rewrite (apply_risk_rules_clock now1 now2); [reflexivity|].
    unfold _check_gender_age_inconsistency.
    destruct H as [H|[H|H]]; rewrite H; [reflexivity | |].
    - now destruct (negb (isdigit _)).
    - reflexivity. }
  split; [apply Hgen|].
  unfold evaluate_claim. cbn [_get_claim_data]. apply Hgen.
  right. left. reflexivity.
Qed.

Lemma evaluation_is_determined_by_inputs_and_age_witness :
  evaluate (noon 2026 11 3)
    (fields_of [("gender", "女"); ("age", "16"); ("diagnosis", "孕期检查")]%string) None
  = evaluate (noon 2030 1 1)
      (fields_of [("gender", "女"); ("age", "16"); ("diagnosis", "孕期检查")]%string) None.
Proof.
  apply (proj1 (evaluation_is_determined_by_inputs_and_age
                  (noon 2026 11 3) (noon 2030 1 1) _ None [])).
  left. vm_compute. reflexivity.
Defined.

(** * Further properties *)

Import DocumentClassifier. Import KeywordExtractor.

(** ** Classifier: confidence, alternatives, documents of a claim *)

Section ClassifierMore.

Import Documents.

Lemma presence_score_le_keywords (t : DocumentType) (content : pystr) :
  (Spec.presence_score t content <= Z.of_nat (length (Spec.keywords_of t)))%Z.
Proof. unfold Spec.presence_score. apply inj_le, filter_length_le. Qed.

Lemma basename_no_slash (b : pystr) :
  existsb (N.eqb 47) b = false -> basename b = b.
Proof. destruct b as [|c b]; [reflexivity|]. cbn [basename]. now intros ->. Qed.

Lemma basename_after_slash (a b : pystr) :
  existsb (N.eqb 47) b = false -> basename (a ++ 47 :: b) = b.
Proof.
  intros Hb. induction a as [|c a IH]; cbn [app basename].
  - cbn [existsb]. rewrite N.eqb_refl. cbn [orb]. now apply basename_no_slash.
  - replace (existsb (N.eqb 47) (c :: a ++ 47 :: b)) with true; [exact IH|].
    symmetry. apply existsb_exists. exists 47. split; [|apply N.eqb_refl].
    right. apply in_or_app. right. now left.
Qed.

Lemma endswith_txt_pdf (a : pystr) : endswith (py ".txt") (a ++ py ".pdf") = false.
Proof. unfold endswith. rewrite rev_app_distr. reflexivity. Qed.

Lemma predicted_is_maximum (content : pystr) (t : DocumentType) :
  (Spec.presence_score t content
   <= Spec.presence_score
        (max_from (scores_of keyword_mapping content) MEDICAL_RECORD
           [ACCIDENT_REPORT; INVOICE; IDENTITY_CARD; BANK_STATEMENT; INSURANCE_CONTRACT])
        content)%Z.
Proof.
  destruct (max_from_first_maximum (scores_of keyword_mapping content)
              [ACCIDENT_REPORT; INVOICE; IDENTITY_CARD; BANK_STATEMENT;
               INSURANCE_CONTRACT] MEDICAL_RECORD) as [_ [Hmax _]].
  { repeat constructor. }
  rewrite <- !scores_get_presence. apply Hmax. destruct t; simpl; tauto.
Qed.

(** Classifying the documents of a claim gives three times the fallback
    classification. *)
Lemma classify_claim_documents_spec (fs : Documents.filesystem)
    (fresh : Documents.uuids) (claim_id : pystr) :
  Documents.Classifier.classify_claim_documents fs fresh claim_id
  = Ok (List.map
          (fun rank =>
             {| cr_document_id := fresh rank;
                predicted_type := MEDICAL_RECORD;
                cr_confidence := 1 # 10;
                alternative_types := Some [ACCIDENT_REPORT; INVOICE; IDENTITY_CARD] |})
          [0; 1; 2]%nat).
Proof.
  assert (Hdoc : forall doc_id i,
             In i [1; 2; 3]%nat ->
             Documents.Classifier.classify_document_at fs doc_id
               (py "/tmp/claims/" ++ claim_id ++ py "/doc_" ++ str_of_nat i ++ py ".pdf")
             = Ok {| cr_document_id := doc_id;
                     predicted_type := MEDICAL_RECORD;
                     cr_confidence := 1 # 10;
                     alternative_types :=
                       Some [ACCIDENT_REPORT; INVOICE; IDENTITY_CARD] |}).
  { intros doc_id i Hi.
    unfold Documents.Classifier.classify_document_at,
      Documents.Classifier._extract_text_from_document.
    replace (py "/tmp/claims/" ++ claim_id ++ py "/doc_" ++ str_of_nat i ++ py ".pdf")
      with ((py "/tmp/claims/" ++ claim_id ++ py "/doc_" ++ str_of_nat i) ++ py ".pdf")
      by (now rewrite <- !app_assoc).
    rewrite endswith_txt_pdf.
    replace ((py "/tmp/claims/" ++ claim_id ++ py "/doc_" ++ str_of_nat i) ++ py ".pdf")
      with ((py "/tmp/claims/" ++ claim_id)
            ++ 47 :: (py "doc_" ++ str_of_nat i ++ py ".pdf"))
      by (now rewrite <- !app_assoc).
    rewrite basename_after_slash.
    - cbn [bind]. simpl in Hi.
      destruct Hi as [<-|[<-|[<-|[]]]]; vm_compute; reflexivity.
    - simpl in Hi. destruct Hi as [<-|[<-|[<-|[]]]]; reflexivity. }
  unfold Documents.Classifier.classify_claim_documents,
    Documents.Classifier._get_claim_documents.
  cbn [List.map Documents.Classifier.classify_loop].
  rewrite !Hdoc by (simpl; tauto). reflexivity.
Qed.

End ClassifierMore.

(** X1. The confidence of a classification lies between 0.1 and 1: it
    is 0.1 with the fallback type when no keyword occurs, and otherwise
    the score of the predicted type divided by 7 (the 44 keywords over
    the 6 types, rounded down), capped at 1. *)
Theorem classifier_confidence_range (content : pystr) :
  exists t c,
    _classify_content content = Ok (t, c)
    /\ (1 # 10 <= c)%Q /\ (c <= 1)%Q
    /\ ((Spec.presence_score t content = 0%Z /\ t = MEDICAL_RECORD /\ c = (1 # 10)%Q)
        \/ ((0 < Spec.presence_score t content)%Z
            /\ c = Qmin (inject_Z (Spec.presence_score t content) / 7) 1)).
Proof.
  unfold _classify_content. rewrite max_key_scores. cbn [bind].
  set (r := max_from _ _ _). rewrite scores_get_presence.
  change (Z.max 1 _) with 7%Z.
  pose proof (presence_score_nonneg r content) as Hnn.
  destruct (Z.eqb_spec (Spec.presence_score r content) 0) as [Hz|Hnz].
  - exists MEDICAL_RECORD, (1 # 10)%Q. split; [reflexivity|].
    split; [apply Qle_refl|]. split; [easy|]. left.
    assert (Hall : forall t, Spec.presence_score t content = 0%Z).
    { intros t. pose proof (presence_score_nonneg t content).
      pose proof (predicted_is_maximum content t) as Hmax. fold r in Hmax. lia. }
    now rewrite Hall.
  - eexists r, _. split; [reflexivity|]. rewrite pymin_Qmin.
    assert (Hpos : (1 <= Spec.presence_score r content)%Z) by lia.
    assert (Hq : (1 # 7 <= inject_Z (Spec.presence_score r content) / 7)%Q).
    { unfold Qle, Qdiv, Qmult, Qinv, inject_Z. simpl. lia. }
    split; [apply Q.min_glb; [apply Qle_trans with (1 # 7)%Q; [easy | exact Hq] | easy]|].
    split; [apply Q.le_min_r|].
    right. split; [lia | reflexivity].
Qed.

(** X2. Whatever the primary type, there are exactly three alternative
    types; they are distinct, differ from the primary type and come in
    enumeration order; insurance_contract is never one of them. *)
Theorem alternative_types_shape (primary_type : DocumentType) :
  length (_get_alternative_types primary_type) = 3%nat
  /\ ~ In primary_type (_get_alternative_types primary_type)
  /\ StronglySorted lt (List.map Spec.enum_index (_get_alternative_types primary_type))
  /\ ~ In INSURANCE_CONTRACT (_get_alternative_types primary_type).
Proof.
  destruct primary_type; vm_compute;
    (split; [reflexivity|]);
    (split; [intros H; repeat (destruct H as [H|H]; [discriminate H|]); exact H|]);
    (split; [repeat constructor|]);
    intros H; repeat (destruct H as [H|H]; [discriminate H|]); exact H.
Qed.

(** X3. Classifying the documents of a claim never reads a file: the
    three document paths end in ".pdf", each text is the placeholder
    with the base name of the path, no keyword occurs in it, and the
    result is three times the fallback classification, whatever the
    claim and whatever the file system holds. *)
Theorem classify_claim_documents_is_fallback (fs : Documents.filesystem)
    (fresh : Documents.uuids) (claim_id : pystr) :
  Documents.Classifier.classify_claim_documents fs fresh claim_id
  = Ok (List.map
          (fun rank =>
             {| cr_document_id := fresh rank;
                predicted_type := MEDICAL_RECORD;
                cr_confidence := 1 # 10;
                alternative_types := Some [ACCIDENT_REPORT; INVOICE; IDENTITY_CARD] |})
          [0; 1; 2]%nat).
Proof. apply classify_claim_documents_spec. Qed.

(** ** Evaluator: exclusions, risk rules, confidence, payout, reasons *)

Section EvaluatorMore.

Import EvaluatorSpec.

Lemma fold_append_filter {A} (f : A -> bool) (l : list A) :
  forall acc,
    fold_left (fun acc x => if f x then acc ++ [x] else acc) l acc
    = acc ++ List.filter f l.
Proof.
  induction l as [|x l IH]; intros acc; simpl; [now rewrite app_nil_r|].
  rewrite IH. destruct (f x); [now rewrite <- app_assoc | reflexivity].
Qed.

Lemma check_exclusions_filter (fields : gmap pystr FieldEntry) (p : PolicyTerms) :
  _check_exclusions fields p
  = List.filter
      (fun e => str_in (lower e) (lower (get_value fields "diagnosis" []))
                || str_in (lower e) (lower (get_value fields "treatment_details" [])))
      (exclusions p).
Proof. unfold _check_exclusions. now rewrite fold_append_filter. Qed.

Lemma filter_sublist {A} (f : A -> bool) (l : list A) : sublist (List.filter f l) l.
Proof.
  induction l as [|x l IH]; simpl; [constructor|].
  destruct (f x); now constructor.
Qed.

Lemma digits_value_none (s : pystr) :
  forall acc, digits_value acc s = None <-> forallb is_decimal s = false.
Proof.
  induction s as [|c s IH]; intros acc; cbn [digits_value forallb]; [easy|].
  unfold is_decimal at 1. destruct (decimal_value c) as [d|]; [apply IH | easy].
Qed.



Lemma inject_Z_pos (z : Z) : (1 <= z)%Z -> (1 <= inject_Z z)%Q.
Proof. intros H. change 1%Q with (inject_Z 1). now rewrite <- Zle_Qle. Qed.




Lemma gender_rule_raise_iff (now : datetime) (fields : gmap pystr FieldEntry) (e : exn) :
  _check_gender_age_inconsistency now fields = Raise e
  <-> e = ValueError
      /\ isdigit (get_value fields "age" []) = true
      /\ (forallb is_decimal (get_value fields "age" []) = false
          \/ (4300 < Z.of_nat (length (get_value fields "age" [])))%Z).
Proof.
  unfold _check_gender_age_inconsistency.
  set (check := fun age : Z => _).
  assert (Hcheck : forall age x, check age <> Raise x).
  { intros age x. unfold check.
    destruct (_ && _); [|discriminate]. destruct (existsb _ _); discriminate. }
  destruct (isdigit (get_value fields "age" [])) eqn:Hd; cbn [negb].
  - unfold pyint. destruct (get_value fields "age" []) as [|c s] eqn:Hage;
      [discriminate|].
    destruct (4300 <? Z.of_nat (length (c :: s)))%Z eqn:Hlen.
    { apply Z.ltb_lt in Hlen.
      split; [intros [= <-]; now repeat split; right | intros [-> _]; reflexivity]. }
    apply Z.ltb_ge in Hlen.
    destruct (digits_value 0 (c :: s)) as [n|] eqn:Hv; cbn [bind].
    + split; [intros H; now elim (Hcheck _ _ H)|].
      intros [_ [_ [Hn|Hn]]]; [|lia].
      apply (digits_value_none _ 0) in Hn. congruence.
    + apply digits_value_none in Hv.
      split; [intros [= <-]; now repeat split; left | intros [-> _]; reflexivity].
  - split; [|intros [_ [H _]]; discriminate H].
    destruct (nonempty _); [|discriminate].
    destruct (age_from_birth_date now _) as [age|]; [|discriminate].
    intros H. now elim (Hcheck _ _ H).
Qed.

Lemma apply_risk_rules_raise_iff (now : datetime) (fields : gmap pystr FieldEntry)
    (e : exn) :
  _apply_risk_rules now fields = Raise e
  <-> _check_gender_age_inconsistency now fields = Raise e.
Proof.
  unfold _apply_risk_rules, risk_rules. cbn [apply_rules condition].
  destruct (_check_gender_age_inconsistency now fields) as [g|e']; cbn [bind].
  - destruct (abnormal_cost_spec fields) as [c ->]. cbn [bind]. easy.
  - split; intros [= ->]; reflexivity.
Qed.

Lemma evaluate_raise_iff (now : datetime) (fields : gmap pystr FieldEntry)
    (contract_terms : option pystr) (e : exn) :
  evaluate now fields contract_terms = Raise e
  <-> e = ValueError
      /\ isdigit (get_value fields "age" []) = true
      /\ (forallb is_decimal (get_value fields "age" []) = false
          \/ (4300 < Z.of_nat (length (get_value fields "age" [])))%Z).
Proof.
  rewrite evaluate_spec, <- (gender_rule_raise_iff now), <- apply_risk_rules_raise_iff.
  destruct (_apply_risk_rules now fields) as [rfs|e']; cbn [bind].
  - split; intros H; discriminate H.
  - split; intros [= ->]; reflexivity.
Qed.

(** The loop of the risk rules: the factors of the rules whose condition
    holds, in the order of the rules. *)
Lemma apply_rules_spec (now : datetime) (fields : gmap pystr FieldEntry)
    (rules : list RiskRule) :
  forall acc rfs,
    apply_rules rules now fields acc = Ok rfs ->
    rfs = acc ++ List.map (fun rule => {| rf_name := rule_name rule;
                                          rf_severity := severity rule;
                                          rf_description := rule_description rule |})
                   (List.filter (fun rule =>
                                   match condition rule now fields with
                                   | Ok fired => fired
                                   | Raise _ => false
                                   end) rules).
Proof.
  induction rules as [|rule rules IH]; intros acc rfs; cbn [apply_rules List.filter].
  - intros [= <-]. cbn. now rewrite app_nil_r.
  - destruct (condition rule now fields) as [fired|e]; cbn [bind]; [|discriminate].
    intros H. apply IH in H. destruct fired; [|exact H].
    rewrite H, <- app_assoc. reflexivity.
Qed.



End EvaluatorMore.

(** X4. The exclusion factors are the exclusion labels of the policy
    that occur, case-insensitively, in the diagnosis or in the treatment
    details, in the order of the policy; with the default policy no
    label is reported twice. *)
Theorem exclusion_factors_are_occurring_labels (fields : gmap pystr FieldEntry)
    (policy_info : PolicyTerms) :
  sublist (_check_exclusions fields policy_info) (exclusions policy_info)
  /\ (forall label,
        In label (_check_exclusions fields policy_info)
        <-> In label (exclusions policy_info)
            /\ (Spec.occurs_ci label (get_value fields "diagnosis" [])
                \/ Spec.occurs_ci label (get_value fields "treatment_details" [])))
  /\ NoDup (_check_exclusions fields health_insurance_basic).
Proof.
  rewrite !check_exclusions_filter. split; [apply filter_sublist|]. split.
  - intros label. rewrite filter_In, orb_true_iff, !str_in_lower_occurs. reflexivity.
  - apply (sublist_NoDup _ (exclusions health_insurance_basic));
      [|apply filter_sublist].
    apply (bool_decide_unpack _). vm_compute. exact I.
Qed.



(** X7. An evaluation raises exactly when the age field passes
    [isdigit] and [int] refuses it: it holds a digit that is not a
    decimal digit (a superscript, a circled digit, ...), or it has more
    than 4300 digits, the limit of the interpreter on the conversion of
    a string to an int. The exception is the [ValueError] of [int], and
    nothing else makes an evaluation fail. *)
Theorem evaluation_raises_when_int_refuses_the_age (now : datetime)
    (fields : gmap pystr FieldEntry) (contract_terms : option pystr) (e : exn) :
  evaluate now fields contract_terms = Raise e
  <-> e = ValueError
      /\ isdigit (get_value fields "age" []) = true
      /\ (forallb is_decimal (get_value fields "age" []) = false
          \/ (4300 < Z.of_nat (length (get_value fields "age" [])))%Z).
Proof. apply evaluate_raise_iff. Qed.

Lemma evaluation_raises_when_int_refuses_the_age_witness :
  evaluate (noon 2026 11 3) (fields_of [("gender", "女"); ("age", "²")]%string) None
  = Raise ValueError
  /\ evaluate (noon 2026 11 3)
       {[ py "age" := {| value := repeat 49 4301; entry_confidence := 9 # 10 |} ]} None
     = Raise ValueError
  /\ exists evaluation,
       evaluate (noon 2026 11 3)
         {[ py "age" := {| value := repeat 49 4300; entry_confidence := 9 # 10 |} ]} None
       = Ok evaluation.
Proof.
  split; [|split].
  - apply (proj2 (evaluation_raises_when_int_refuses_the_age
                    (noon 2026 11 3) _ None ValueError)).
    split; [reflexivity|]. split; [reflexivity|]. left. reflexivity.
  - apply (proj2 (evaluation_raises_when_int_refuses_the_age
                    (noon 2026 11 3) _ None ValueError)).
    split; [reflexivity|]. split; [vm_compute; reflexivity|]. right.
    vm_compute. reflexivity.
  - eexists. vm_compute. reflexivity.
Defined.





(** X10. The triggered risk factors are the rules whose condition
    holds, each once and in the order of the rule table, with the
    severity and the description of the table: at most four. *)
Theorem risk_factors_are_fired_rules (now : datetime) (fields : gmap pystr FieldEntry)
    (risk_factors : list RiskFactor) :
  _apply_risk_rules now fields = Ok risk_factors ->
  sublist (List.map rf_name risk_factors) (List.map rule_name risk_rules)
  /\ (forall rule, In rule risk_rules ->
        (In {| rf_name := rule_name rule; rf_severity := severity rule;
               rf_description := rule_description rule |} risk_factors
         <-> condition rule now fields = Ok true))
  /\ Forall (fun rf => exists rule,
               In rule risk_rules /\ rf_name rf = rule_name rule
               /\ rf_severity rf = severity rule
               /\ rf_description rf = rule_description rule) risk_factors
  /\ (length risk_factors <= 4)%nat.
Proof.
  intros H. apply apply_rules_spec in H. cbn [app] in H.
  set (factor := fun rule : RiskRule => _) in H.
  set (fired := fun rule : RiskRule => _) in H.
  assert (Hsub : sublist (List.map rf_name risk_factors) (List.map rule_name risk_rules)).
  { rewrite H, map_map. change (fun x => rf_name (factor x)) with rule_name.
    apply (fmap_sublist rule_name), filter_sublist. }
  split; [exact Hsub|]. split; [|split].
  - intros rule Hin. rewrite H, in_map_iff. split.
    + intros [rule' [Heq Hin']]. apply filter_In in Hin' as [Hin' Hfired].
      assert (rule' = rule); [|subst rule'].
      { assert (Hname : rule_name rule' = rule_name rule)
          by (injection Heq; auto).
        clear - Hin Hin' Hname. unfold risk_rules in *. cbn [In] in *.
        intuition (subst; try reflexivity; vm_compute in Hname; discriminate Hname). }
      unfold fired in Hfired. destruct (condition rule now fields) as [[]|];
        [reflexivity | discriminate | discriminate].
    + intros Hc. exists rule. split; [reflexivity|]. apply filter_In.
      split; [exact Hin|]. unfold fired. now rewrite Hc.
  - rewrite H. apply List.Forall_forall. intros rf Hrf. apply in_map_iff in Hrf
      as [rule [<- Hin]]. apply filter_In in Hin as [Hin _]. now exists rule.
  - apply sublist_length in Hsub. rewrite !length_map in Hsub. exact Hsub.
Qed.

Lemma risk_factors_are_fired_rules_witness :
  (length [{| rf_name := py "费用异常高"; rf_severity := py "medium";
              rf_description := py "费用超出合理范围" |}] <= 4)%nat.
Proof.
  refine (proj2 (proj2 (proj2 (risk_factors_are_fired_rules (noon 2026 11 3)
            (fields_of [("diagnosis", "阑尾炎"); ("invoice_amount", "¥25,000.00")]%string)
            _ _)))).
  vm_compute. reflexivity.
Defined.

Section MergeMore.

Import EvaluatorSpec.

Lemma merge_lookup (results : list ExtractionResult) (n : pystr) :
  _merge_extraction_results results !! n
  = option_map entry_of (last_with_name n (fields_in_order results)).
Proof.
  rewrite merge_is_fold, fold_write_lookup.
  destruct (last_with_name n _); [reflexivity | apply lookup_empty].
Qed.

Lemma fields_in_order_app (a b : list ExtractionResult) :
  fields_in_order (a ++ b) = fields_in_order a ++ fields_in_order b.
Proof. unfold fields_in_order. apply flat_map_app. Qed.

Lemma in_fields_in_order (results : list ExtractionResult) (f : ExtractedField) :
  In f (fields_in_order results)
  <-> exists r, In r results /\ In f (extracted_fields r).
Proof. unfold fields_in_order. apply in_flat_map. Qed.

End MergeMore.

(** X11. Merging a concatenation of result lists is the merge of the
    second list completed by the merge of the first; a name is bound in
    the merged map exactly when some result holds a field of that name,
    and every entry is the value and confidence of such a field. The
    document ids and the accuracies play no part. *)
Theorem merge_of_concatenation (a b : list ExtractionResult) :
  _merge_extraction_results (a ++ b)
  = _merge_extraction_results b ∪ _merge_extraction_results a
  /\ (forall n entry,
        _merge_extraction_results a !! n = Some entry ->
        exists r f, In r a /\ In f (extracted_fields r) /\ field_name f = n
                    /\ entry = {| value := field_value f;
                                  entry_confidence := confidence f |})
  /\ (forall r f, In r a -> In f (extracted_fields r) ->
        is_Some (_merge_extraction_results a !! field_name f))
  /\ (List.map extracted_fields a = List.map extracted_fields b ->
      _merge_extraction_results a = _merge_extraction_results b).
Proof.
  split; [|split; [|split]].
  - apply map_eq. intros n.
    rewrite lookup_union, !merge_lookup, fields_in_order_app, last_with_name_app.
    destruct (EvaluatorSpec.last_with_name n (EvaluatorSpec.fields_in_order b));
      destruct (EvaluatorSpec.last_with_name n (EvaluatorSpec.fields_in_order a));
      reflexivity.
  - intros n entry. rewrite merge_lookup.
    destruct (EvaluatorSpec.last_with_name n _) as [f|] eqn:E; [|discriminate].
    intros [= <-]. apply last_with_name_in in E as [Hin Hn].
    apply in_fields_in_order in Hin as [r [Hr Hf]]. now exists r, f.
  - intros r f Hr Hf. rewrite merge_lookup.
    destruct (last_with_name_some (field_name f) (EvaluatorSpec.fields_in_order a) f)
      as [g [-> _]]; [|reflexivity|now eexists].
    apply in_fields_in_order. now exists r.
  - intros H. rewrite !merge_is_fold. f_equal.
    unfold EvaluatorSpec.fields_in_order. rewrite !flat_map_concat_map. now rewrite H.
Qed.

Lemma merge_of_concatenation_witness :
  _merge_extraction_results
    [{| er_document_id := py "a";
        extracted_fields := [field "diagnosis" "感冒"];
        extraction_accuracy := 1 |}]
  = _merge_extraction_results
      [{| er_document_id := py "b";
          extracted_fields := [field "diagnosis" "感冒"];
          extraction_accuracy := 0 |}].
Proof.
  apply (proj2 (proj2 (proj2 (merge_of_concatenation _ _)))). reflexivity.
Defined.

(** ** Extractor: accuracy, field names, composition with the merge *)

Section ExtractorMore.

Import ExtractorSpec.

Lemma field_of_first_match_confidence (content : pystr) (defs : list FieldDef) :
  Forall (fun f => confidence f = (9 # 10)%Q)
    (flat_map (field_of_first_match content) defs).
Proof.
  induction defs as [|d defs IH]; cbn [flat_map]; [constructor|].
  apply Forall_app. split; [|exact IH].
  unfold field_of_first_match. destruct (Re.compile (pattern d)) as [[r g]|]; [|constructor].
  destruct (Re.search true r content); repeat constructor.
Qed.

Lemma field_of_first_match_names (content : pystr) (defs : list FieldDef) :
  sublist (List.map field_name (flat_map (field_of_first_match content) defs))
    (List.map name defs).
Proof.
  induction defs as [|d defs IH]; cbn [flat_map List.map]; [constructor|].
  rewrite map_app. unfold field_of_first_match at 1.
  destruct (Re.compile (pattern d)) as [[r g]|]; [|now constructor].
  destruct (Re.search true r content); [|now constructor].
  cbn [List.map app field_name]. now constructor.
Qed.

(** The sum of the confidences, as [sum] computes it. *)
Lemma sum_of_confidences (fields : list ExtractedField) :
  Forall (fun f => confidence f = (9 # 10)%Q) fields ->
  forall a,
    (fold_left Qplus (List.map confidence fields) a
     == a + (9 # 10) * inject_Z (Z.of_nat (length fields)))%Q.
Proof.
  induction 1 as [|f fields Hf _ IH]; intros a; cbn [List.map fold_left length].
  - change (inject_Z (Z.of_nat 0)) with 0%Q. lra.
  - rewrite IH, Hf, Nat2Z.inj_succ. unfold Z.succ. rewrite inject_Z_plus.
    change (inject_Z 1) with 1%Q. lra.
Qed.


Lemma length_pos_Q {A} (l : list A) :
  l <> [] -> (1 <= inject_Z (Z.of_nat (length l)))%Q.
Proof.
  intros H. apply inject_Z_pos. destruct l; [contradiction | cbn [length]; lia].
Qed.

(** The accuracy of fields that all have the confidence 0.9. *)
Lemma accuracy_of_extracted (fields : list ExtractedField) :
  Forall (fun f => confidence f = (9 # 10)%Q) fields -> fields <> [] ->
  (_calculate_extraction_accuracy fields
   == (63 # 100) + (3 # 10) * Qmin (inject_Z (Z.of_nat (length fields)) / 5) 1)%Q.
Proof.
  intros Hall Hne. pose proof (length_pos_Q fields Hne) as Hlen.
  unfold _calculate_extraction_accuracy. destruct fields as [|f fields]; [contradiction|].
  rewrite (sum_of_confidences _ Hall), pymin_Qmin.
  generalize dependent (inject_Z (Z.of_nat (length (f :: fields)))). intros n Hn.
  generalize (Qmin (n / 5) 1). intros m. field. lra.
Qed.

End ExtractorMore.



Section ExtractionAndMerge.

Import ExtractorSpec EvaluatorSpec.

Lemma flat_map_bind {A B} (f : A -> list B) (l : list A) : flat_map f l = l ≫= f.
Proof. induction l as [|x l IH]; [reflexivity|]. cbn [flat_map]. now rewrite bind_cons, IH. Qed.

Lemma extract_from_document_fields (doc_id content : pystr) (t : DocumentType)
    (r : ExtractionResult) :
  extract_from_document doc_id content t = Ok r ->
  extracted_fields r = flat_map (field_of_first_match content) (definitions_of t).
Proof.
  unfold extract_from_document. rewrite extract_fields_spec. cbn [bind].
  now intros [= <-].
Qed.

Lemma definitions_in_table (t : DocumentType) (d : FieldDef) :
  In d (definitions_of t) -> In d (flat_map snd field_definitions).
Proof.
  intros Hd. apply in_flat_map. exists (t, definitions_of t). split; [|exact Hd].
  destruct t; cbn [field_definitions In];
    repeat (first [left; reflexivity | right]).
Qed.

(** The names of all configured fields are pairwise distinct, also
    across document types. *)
Lemma configured_names_distinct :
  NoDup ([MEDICAL_RECORD; ACCIDENT_REPORT; INVOICE; IDENTITY_CARD; BANK_STATEMENT;
          INSURANCE_CONTRACT] ≫= (fun t => List.map name (definitions_of t))).
Proof. apply (bool_decide_unpack _). vm_compute. exact I. Qed.

Lemma submseteq_NoDup {A} (l k : list A) : l ⊆+ k -> NoDup k -> NoDup l.
Proof.
  intros Hsub Hk. apply submseteq_sublist_r in Hsub as [l' [Hperm Hsub]].
  rewrite Hperm. now apply (sublist_NoDup _ k).
Qed.

Lemma extracted_names_distinct (docs : list (pystr * pystr * DocumentType))
    (results : list ExtractionResult) :
  Forall2 (fun '(doc_id, content, t) r => extract_from_document doc_id content t = Ok r)
    docs results ->
  NoDup (List.map snd docs) ->
  NoDup (List.map field_name (fields_in_order results)).
Proof.
  intros Hall Htypes.
  apply submseteq_NoDup
    with (k := List.map snd docs ≫= (fun t => List.map name (definitions_of t))).
  - clear Htypes. induction Hall as [|[[doc_id content] t] r docs results Hr _ IH];
      [reflexivity|].
    unfold fields_in_order in *. cbn [flat_map List.map snd].
    rewrite map_app, bind_cons. apply submseteq_app; [|exact IH].
    apply sublist_submseteq. rewrite (extract_from_document_fields _ _ _ _ Hr).
    apply field_of_first_match_names.
  - eapply submseteq_NoDup; [|apply configured_names_distinct].
    apply bind_submseteq, NoDup_submseteq; [exact Htypes|].
    intros t _. destruct t; repeat constructor.
Qed.

Lemma last_with_name_unique (fs : list ExtractedField) (f : ExtractedField) :
  NoDup (List.map field_name fs) -> In f fs ->
  last_with_name (field_name f) fs = Some f.
Proof.
  induction fs as [|x fs IH]; intros Hnd Hin; [destruct Hin|].
  cbn [List.map] in Hnd. apply NoDup_cons in Hnd as [Hx Hnd].
  cbn [last_with_name]. destruct Hin as [->|Hin].
  - rewrite last_with_name_none.
    + now destruct (decide (field_name f = field_name f)).
    + intros g Hg Heq. apply Hx. rewrite <- Heq.
      apply list_elem_of_In, in_map, Hg.
  - now rewrite IH.
Qed.

Lemma extracted_name_configured (results : list ExtractionResult) (n : pystr) :
  Forall (fun r => exists doc_id content t,
            extract_from_document doc_id content t = Ok r) results ->
  _merge_extraction_results results !! n <> None ->
  In n (List.map name (flat_map snd field_definitions)).
Proof.
  intros Hall Hn. rewrite merge_lookup in Hn.
  destruct (last_with_name n (fields_in_order results)) as [f|] eqn:E; [|contradiction].
  apply last_with_name_in in E as [Hin <-].
  apply in_fields_in_order in Hin as [r [Hr Hf]].
  rewrite List.Forall_forall in Hall.
  destruct (Hall r Hr) as [doc_id [content [t Hext]]].
  rewrite (extract_from_document_fields _ _ _ _ Hext) in Hf.
  apply in_flat_map in Hf as [d [Hd Hf]].
  assert (Hname : field_name f = name d).
  { unfold field_of_first_match in Hf.
    destruct (Re.compile (pattern d)) as [[rx g]|]; [|destruct Hf].
    destruct (Re.search true rx content); [|destruct Hf].
    destruct Hf as [<-|[]]. reflexivity. }
  rewrite Hname. apply in_map, (definitions_in_table t), Hd.
Qed.

Lemma get_value_unconfigured (results : list ExtractionResult) (key : string) :
  Forall (fun r => exists doc_id content t,
            extract_from_document doc_id content t = Ok r) results ->
  py key ∉ List.map name (flat_map snd field_definitions) ->
  get_value (_merge_extraction_results results) key [] = [].
Proof.
  intros Hall Hkey. unfold get_value.
  destruct (_merge_extraction_results results !! py key) eqn:E; [|reflexivity].
  exfalso. apply Hkey, list_elem_of_In, (extracted_name_configured results); [exact Hall|].
  now rewrite E.
Qed.

End ExtractionAndMerge.

(** X14. Field names are distinct across all document types. Hence,
    when the documents of a claim have pairwise different types, no
    extracted field is lost in the merge: every field of every result is
    found in the merged map under its name, with its value and its
    confidence. *)
Theorem distinct_types_merge_without_loss (docs : list (pystr * pystr * DocumentType))
    (results : list ExtractionResult) :
  Forall2 (fun '(doc_id, content, t) r => extract_from_document doc_id content t = Ok r)
    docs results ->
  NoDup (List.map snd docs) ->
  NoDup (List.map field_name (EvaluatorSpec.fields_in_order results))
  /\ (forall r f, In r results -> In f (extracted_fields r) ->
        _merge_extraction_results results !! field_name f
        = Some {| value := field_value f; entry_confidence := 9 # 10 |})
  /\ size (_merge_extraction_results results)
     = length (EvaluatorSpec.fields_in_order results).
Proof.
  intros Hall Htypes.
  pose proof (extracted_names_distinct docs results Hall Htypes) as Hnd.
  split; [exact Hnd|]. split.
  - intros r f Hr Hf.
    assert (Hin : In f (EvaluatorSpec.fields_in_order results))
      by (apply in_fields_in_order; now exists r).
    rewrite merge_lookup, (last_with_name_unique _ _ Hnd Hin). cbn [option_map].
    unfold EvaluatorSpec.entry_of. f_equal. f_equal.
    clear Hin Hnd Htypes. induction Hall as [|[[doc_id content] t] r' docs results Hr' _ IH];
      [destruct Hr|].
    destruct Hr as [->|Hr]; [|now apply IH].
    rewrite (extract_from_document_fields _ _ _ _ Hr') in Hf.
    pose proof (field_of_first_match_confidence content (ExtractorSpec.definitions_of t))
      as Hc.
    rewrite List.Forall_forall in Hc. now apply Hc.
  - rewrite merge_is_fold. revert Hnd.
    generalize (EvaluatorSpec.fields_in_order results). intros fs.
    induction fs as [|f fs IH] using rev_ind; intros Hnd; [reflexivity|].
    rewrite fold_left_app. cbn [fold_left]. unfold EvaluatorSpec.write at 1.
    rewrite map_app in Hnd. apply NoDup_app in Hnd as [Hfs [Hdisj _]].
    rewrite map_size_insert_None, IH, length_app by
      (try exact Hfs;
       try (rewrite fold_write_lookup, lookup_empty;
            rewrite last_with_name_none; [reflexivity|];
            intros g Hg Heq; apply (Hdisj (field_name f));
            [rewrite <- Heq; apply list_elem_of_In, in_map, Hg | left])).
    cbn [length]. lia.
Qed.

Lemma distinct_types_merge_without_loss_witness :
  size (_merge_extraction_results
          [{| er_document_id := py "a";
              extracted_fields := [field "patient_name" "张三"];
              extraction_accuracy := (3450 # 5000)%Q |};
           {| er_document_id := py "b";
              extracted_fields := [field "name" "李四"; field "gender" "女"];
              extraction_accuracy := (75000 # 100000)%Q |}])
  = 3%nat.
Proof.
  refine (proj2 (proj2 (distinct_types_merge_without_loss
            [(py "a", py "患者：张三", MEDICAL_RECORD);
             (py "b", py "姓名：李四" ++ [LF] ++ py "性别：女", IDENTITY_CARD)]
            _ _ _))).
  - repeat constructor; vm_compute; reflexivity.
  - apply (bool_decide_unpack _). vm_compute. exact I.
Defined.

(** X15. On fields merged from extraction results the evaluation
    never raises: no pattern yields an age, a medical history, a list of
    medications or treatment details, so that the age comes from the
    birth date only, the rules on pre-existing conditions and on
    medication never fire, and an exclusion is found in the diagnosis
    only. *)
Theorem evaluation_after_extraction (now : datetime) (results : list ExtractionResult)
    (contract_terms : option pystr) :
  Forall (fun r => exists doc_id content t,
            extract_from_document doc_id content t = Ok r) results ->
  (exists ev, evaluate now (_merge_extraction_results results) contract_terms = Ok ev)
  /\ _check_pre_existing_conditions (_merge_extraction_results results) = false
  /\ _check_medication_diagnosis_match (_merge_extraction_results results) = false
  /\ (forall label,
        In label (_check_exclusions (_merge_extraction_results results)
                    health_insurance_basic) ->
        Spec.occurs_ci label (get_value (_merge_extraction_results results) "diagnosis" [])).
Proof.
  intros Hall.
  assert (Hage : get_value (_merge_extraction_results results) "age" [] = []).
  { apply get_value_unconfigured; [exact Hall|].
    apply (bool_decide_unpack _). vm_compute. exact I. }
  assert (Hhistory : get_value (_merge_extraction_results results) "medical_history" [] = []).
  { apply get_value_unconfigured; [exact Hall|].
    apply (bool_decide_unpack _). vm_compute. exact I. }
  assert (Hmed : get_value (_merge_extraction_results results) "medications" [] = []).
  { apply get_value_unconfigured; [exact Hall|].
    apply (bool_decide_unpack _). vm_compute. exact I. }
  assert (Htreat : get_value (_merge_extraction_results results) "treatment_details" [] = []).
  { apply get_value_unconfigured; [exact Hall|].
    apply (bool_decide_unpack _). vm_compute. exact I. }
  split; [|split; [|split]].
  - destruct (evaluate now (_merge_extraction_results results) contract_terms)
      as [ev|e] eqn:E; [now exists ev|].
    apply evaluate_raise_iff in E. destruct E as [_ [Hd _]].
    rewrite Hage in Hd. discriminate Hd.
  - unfold _check_pre_existing_conditions. now rewrite Hhistory.
  - unfold _check_medication_diagnosis_match. now rewrite Hmed.
  - intros label Hlabel. rewrite check_exclusions_filter in Hlabel.
    apply filter_In in Hlabel as [Hin Hlabel]. rewrite Htreat in Hlabel.
    apply orb_true_iff in Hlabel as [H|H]; [now apply str_in_lower_occurs|].
    exfalso. vm_compute in Hin.
    repeat (destruct Hin as [Hin|Hin]; [subst label; vm_compute in H; discriminate H|]).
    exact Hin.
Qed.

Lemma evaluation_after_extraction_witness :
  _check_pre_existing_conditions
    (_merge_extraction_results
       [{| er_document_id := py "a";
           extracted_fields := [field "patient_name" "张三"];
           extraction_accuracy := (3450 # 5000)%Q |}]) = false.
Proof.
  refine (proj1 (proj2 (evaluation_after_extraction (noon 2026 11 3) _ None _))).
  repeat constructor. exists (py "a"), (py "患者：张三"), MEDICAL_RECORD.
  vm_compute. reflexivity.
Defined.

(** ** The numeric functions as the interpreter computes them *)

Section Binary64Facts.

Import EvaluatorSpec.

Lemma eqb_eq (x y : Binary64.float) : Binary64.eqb x y = true -> x = y.
Proof.
  destruct x as [s|s| |s m e], y as [t|t| |t n f]; cbn [Binary64.eqb];
    try discriminate.
  - intros H. apply Bool.eqb_prop in H. now subst.
  - intros H. apply Bool.eqb_prop in H. now subst.
  - reflexivity.
  - intros H. apply andb_true_iff in H as [H He]. apply andb_true_iff in H as [Hs Hm].
    apply Bool.eqb_prop in Hs. apply Pos.eqb_eq in Hm. apply Z.eqb_eq in He. now subst.
Qed.

(** [float] reads the text of a well-formed token as the double nearest
    to its value. *)
Lemma pyfloat_token_binary64 (tok : pystr * pystr) :
  fst tok <> [] -> forallb is_decimal (fst tok) = true ->
  forallb is_decimal (snd tok) = true ->
  Binary64.LiabilityEvaluator.pyfloat (token_text tok)
  = Ok (Binary64.of_Q (numeral_value tok)).
Proof.
  destruct tok as [int_part frac_part]. cbn [fst snd]. intros Hne Hint Hfrac.
  assert (Hall : forallb is_decimal (int_part ++ frac_part) = true).
  { rewrite forallb_app, Hint, Hfrac. reflexivity. }
  assert (Hof : forall n d,
             Binary64.of_Q (Qmake (Z.of_N n) d) = Binary64.of_ratio false n d).
  { intros n d. unfold Binary64.of_Q. cbn [Qnum Qden]. rewrite Zabs2N.id.
    replace (Z.of_N n <? 0)%Z with false; [reflexivity|].
    symmetry. apply Z.ltb_ge. apply N2Z.is_nonneg. }
  unfold Binary64.LiabilityEvaluator.pyfloat, numeral_value, token_text, digits_to_N.
  cbn [fst snd]. rewrite Hof.
  destruct frac_part as [|f frac_part].
  - rewrite <- (app_nil_r int_part) at 1. rewrite (split_point_digits _ _ Hint).
    cbn [split_point fst snd default]. rewrite !app_nil_r in *.
    destruct int_part as [|c int_part]; [contradiction|].
    now rewrite (digits_value_digits _ Hint).
  - rewrite (split_point_digits _ _ Hint). cbn [split_point fst snd default].
    rewrite N.eqb_refl, app_nil_r. cbn [default].
    destruct int_part as [|c int_part]; [contradiction|].
    cbn [app] in *. now rewrite (digits_value_digits _ Hall).
Qed.

Lemma first_number_binary64 (text : pystr) :
  Binary64.LiabilityEvaluator.first_number text
  = Ok (option_map (fun tok => Binary64.of_Q (numeral_value tok))
          (first_numeric_token (remove_commas text))).
Proof.
  unfold Binary64.LiabilityEvaluator.first_number. rewrite replace_commas.
  destruct (findall_head number_pattern (remove_commas text) false _ _
              compile_number_pattern) as [items [-> Hhd]].
  cbn [bind]. rewrite search_number in Hhd.
  destruct (first_numeric_token (remove_commas text)) as [tok|] eqn:E;
    cbn [option_map] in *.
  - destruct items as [|first items]; [discriminate|].
    injection Hhd as ->. cbn [Re.item_of Re.m_text].
    destruct (first_numeric_token_digits _ _ E) as [Hne [Hint Hfrac]].
    now rewrite pyfloat_token_binary64.
  - destruct items; [reflexivity | discriminate].
Qed.

(** The amount used by the payout and by the abnormal-cost rule: the
    double nearest to the number read. *)
Lemma read_invoice_amount_binary64 (fields : gmap pystr FieldEntry) :
  exists numbers,
    Binary64.LiabilityEvaluator.first_number (get_value fields "invoice_amount" (py "0"))
    = Ok numbers
    /\ match numbers with Some x => x | None => S754_zero false end
       = Binary64.of_Q (invoice_amount fields).
Proof.
  eexists. split; [apply first_number_binary64|].
  unfold get_value, invoice_amount.
  destruct (fields !! py "invoice_amount") as [e|]; [|reflexivity].
  now destruct (first_numeric_token (remove_commas (value e))).
Qed.

Lemma abnormal_cost_binary64 (fields : gmap pystr FieldEntry) :
  Binary64.LiabilityEvaluator._check_abnormal_cost fields
  = Ok (Binary64.gt (Binary64.Float (Binary64.of_Q (invoice_amount fields)))
          (Binary64.Int 20000)).
Proof.
  unfold Binary64.LiabilityEvaluator._check_abnormal_cost.
  destruct (read_invoice_amount_binary64 fields) as [numbers [-> Hamount]]. cbn [bind].
  rewrite <- Hamount. now destruct numbers.
Qed.

(** A float exceeds an int when its exact value does. *)
Lemma gt_int_spec (x : Binary64.float) (z : Z) :
  Binary64.gt (Binary64.Float x) (Binary64.Int z) = true
  <-> match Binary64.to_Q x with
      | Some q => (inject_Z z < q)%Q
      | None => x = S754_infinity false
      end.
Proof.
  unfold Binary64.gt, Binary64.lt, Binary64.compare, Binary64.compare_float_int.
  destruct x as [s|[]| |s m e]; cbn [Binary64.to_Q option_map CompOpp];
    try (split; [discriminate | intros H; discriminate H]);
    try (split; reflexivity).
  - rewrite Qlt_alt, <- (Qcompare_antisym 0 (inject_Z z)).
    destruct (0 ?= inject_Z z)%Q; cbn [CompOpp]; split; congruence.
  - rewrite Qlt_alt. set (q := Qred _). rewrite <- (Qcompare_antisym q (inject_Z z)).
    destruct (q ?= inject_Z z)%Q; cbn [CompOpp]; split; congruence.
Qed.

(** The rule engine in binary64 fails as the first rule fails. *)
Lemma apply_risk_rules_binary64_raise (now : datetime) (fields : gmap pystr FieldEntry)
    (e : exn) :
  Binary64.LiabilityEvaluator._apply_risk_rules now fields = Raise e
  <-> _check_gender_age_inconsistency now fields = Raise e.
Proof.
  unfold Binary64.LiabilityEvaluator._apply_risk_rules,
    Binary64.LiabilityEvaluator.risk_rules.
  cbn [apply_rules condition].
  destruct (_check_gender_age_inconsistency now fields) as [g|e']; cbn [bind].
  - rewrite abnormal_cost_binary64. cbn [bind]. easy.
  - split; intros [= ->]; reflexivity.
Qed.

Lemma apply_risk_rules_binary64_length (now : datetime) (fields : gmap pystr FieldEntry)
    (risk_factors : list RiskFactor) :
  Binary64.LiabilityEvaluator._apply_risk_rules now fields = Ok risk_factors ->
  (length risk_factors <= 4)%nat.
Proof.
  intros H. apply apply_rules_spec in H. cbn [app] in H. rewrite H, length_map.
  etransitivity; [apply sublist_length, filter_sublist | reflexivity].
Qed.

Lemma check_exclusions_length (fields : gmap pystr FieldEntry) :
  (length (_check_exclusions fields health_insurance_basic) <= 4)%nat.
Proof.
  rewrite check_exclusions_filter.
  etransitivity; [apply sublist_length, filter_sublist | reflexivity].
Qed.

(** The confidence for up to fifty factors of each kind, computed
    case by case: the function returns the value of the rule evaluated
    in binary64, which is within 2^-53 of the exact rule and not below
    the double 0.1. *)
Lemma confidence_table :
  forallb
    (fun covered =>
       forallb
         (fun exclusions =>
            forallb
              (fun risks =>
                 match
                   Binary64.LiabilityEvaluator._calculate_evaluation_confidence covered
                     (Z.of_nat exclusions) (Z.of_nat risks)
                 with
                 | Ok x =>
                     Binary64.eqb x (Binary64.Rules.confidence_rule covered exclusions risks)
                     && Binary64.Rules.within (1 # 9007199254740992) x
                          (confidence_rule covered exclusions risks)
                     && Binary64.leb (Binary64.of_Q (1 # 10)) x
                 | Raise _ => false
                 end)
              (seq 0 51))
         (seq 0 51))
    [true; false]
  = true.
Proof. vm_compute. reflexivity. Qed.

Lemma confidence_binary64 (covered : bool) (exclusions risks : nat) :
  (exclusions <= 50)%nat -> (risks <= 50)%nat ->
  Binary64.LiabilityEvaluator._calculate_evaluation_confidence covered
    (Z.of_nat exclusions) (Z.of_nat risks)
  = Ok (Binary64.Rules.confidence_rule covered exclusions risks)
  /\ Binary64.Rules.within (1 # 9007199254740992)
       (Binary64.Rules.confidence_rule covered exclusions risks)
       (confidence_rule covered exclusions risks) = true
  /\ Binary64.leb (Binary64.of_Q (1 # 10))
       (Binary64.Rules.confidence_rule covered exclusions risks) = true.
Proof.
  intros He Hr. pose proof confidence_table as H.
  rewrite List.forallb_forall in H.
  assert (Hc : In covered [true; false]) by (destruct covered; cbn; auto).
  specialize (H covered Hc). cbv beta in H.
  rewrite List.forallb_forall in H.
  specialize (H exclusions ltac:(apply List.in_seq; lia)). cbv beta in H.
  rewrite List.forallb_forall in H.
  specialize (H risks ltac:(apply List.in_seq; lia)). cbv beta in H.
  destruct (Binary64.LiabilityEvaluator._calculate_evaluation_confidence _ _ _)
    as [x|]; [|discriminate H].
  apply andb_true_iff in H as [H Hleb]. apply andb_true_iff in H as [Heq Hwithin].
  apply eqb_eq in Heq. subst x. now repeat split.
Qed.

Lemma minus_self_pay_ratio :
  Binary64.minus (Binary64.Int 1) (Binary64.literal (1 # 10))
  = Ok (Binary64.Float (Binary64.sub (Binary64.of_Z 1) (Binary64.of_Q (1 # 10)))).
Proof. vm_compute. reflexivity. Qed.

(** The payout is the rule of the specification evaluated in binary64,
    for every policy with a numeric limit and ratio. *)
Lemma payout_binary64 (fields : gmap pystr FieldEntry) (policy_info : PolicyTerms)
    (limit ratio : Q) :
  assoc (py "年度报销上限") (limits policy_info) = Some (VNum limit) ->
  assoc (py "自付比例") (limits policy_info) = Some (VNum ratio) ->
  Binary64.LiabilityEvaluator._calculate_recommended_payout fields policy_info true []
  = Binary64.Rules.payout_rule (invoice_amount fields)
      (Binary64.literal ratio) (Binary64.literal limit).
Proof.
  intros Hlimit Hratio.
  unfold Binary64.LiabilityEvaluator._calculate_recommended_payout,
    Binary64.Rules.payout_rule.
  cbn [negb nonempty orb].
  destruct (read_invoice_amount_binary64 fields) as [numbers [-> <-]]. cbn [bind].
  unfold Binary64.LiabilityEvaluator.limits_get. rewrite Hlimit, Hratio.
  cbn [Binary64.numeric bind].
  destruct (Binary64.minus _ _) as [kept|]; cbn [bind]; [|reflexivity].
  destruct (Binary64.times _ _) as [payout|]; reflexivity.
Qed.

Lemma payout_default_binary64 (fields : gmap pystr FieldEntry) (covered : bool)
    (exclusion_factors : list pystr) :
  (try payout <-
     Binary64.LiabilityEvaluator._calculate_recommended_payout fields
       health_insurance_basic covered exclusion_factors;
   Binary64.LiabilityEvaluator.validated payout)
  = Ok (if negb covered || nonempty exclusion_factors then S754_zero false
        else Binary64.Rules.default_payout (invoice_amount fields)).
Proof.
  destruct (negb covered || nonempty exclusion_factors) eqn:Hzero.
  - unfold Binary64.LiabilityEvaluator._calculate_recommended_payout.
    rewrite Hzero. reflexivity.
  - apply orb_false_iff in Hzero as [Hc Hf]. apply negb_false_iff in Hc. subst covered.
    destruct exclusion_factors; [|discriminate].
    rewrite (payout_binary64 fields health_insurance_basic 100000 (1 # 10) eq_refl eq_refl).
    unfold Binary64.Rules.payout_rule. rewrite minus_self_pay_ratio. cbn [bind].
    unfold Binary64.times, Binary64.arith. cbn [Binary64.to_float bind].
    change (Binary64.literal 100000) with (Binary64.Int 100000).
    unfold Binary64.Rules.default_payout, Binary64.pymin.
    destruct (Binary64.lt _ _); reflexivity.
Qed.

(** The evaluation in binary64, once the policy is known to be the
    default one. *)
Lemma evaluate_binary64 (now : datetime) (fields : gmap pystr FieldEntry)
    (contract_terms : option pystr) :
  Binary64.LiabilityEvaluator.evaluate now fields contract_terms
  = (try risk_factors <- Binary64.LiabilityEvaluator._apply_risk_rules now fields;
     let exclusion_factors := _check_exclusions fields health_insurance_basic in
     let coverage_issues :=
       if covered fields then []
       else [py "缺少诊断信息，无法确认是否在保障范围内"] in
     Ok {| Binary64.LiabilityEvaluator.coverage_applicable := covered fields;
           Binary64.LiabilityEvaluator.exclusion_factors := exclusion_factors;
           Binary64.LiabilityEvaluator.coverage_limit := Some (Binary64.of_Z 100000);
           Binary64.LiabilityEvaluator.recommended_payout :=
             if negb (covered fields) || nonempty exclusion_factors
             then S754_zero false
             else Binary64.Rules.default_payout (invoice_amount fields);
           Binary64.LiabilityEvaluator.evaluation_reasons :=
             _generate_evaluation_reasons (covered fields) coverage_issues
               exclusion_factors risk_factors;
           Binary64.LiabilityEvaluator.le_confidence :=
             Binary64.Rules.confidence_rule (covered fields)
               (length exclusion_factors) (length risk_factors) |}).
Proof.
  unfold Binary64.LiabilityEvaluator.evaluate. rewrite parse_policy_terms_default.
  cbn [bind].
  assert (Hcov : _check_coverage fields health_insurance_basic
                 = (covered fields,
                    if covered fields then []
                    else [py "缺少诊断信息，无法确认是否在保障范围内"])).
  { unfold _check_coverage, covered. now destruct (nonempty _). }
  rewrite Hcov.
  destruct (Binary64.LiabilityEvaluator._apply_risk_rules now fields)
    as [risk_factors|e] eqn:Hrules; [|reflexivity].
  cbn [bind].
  pose proof (payout_default_binary64 fields (covered fields)
                (_check_exclusions fields health_insurance_basic)) as Hpay.
  destruct (Binary64.LiabilityEvaluator._calculate_recommended_payout _ _ _ _)
    as [payout|]; cbn [bind] in Hpay |- *; [|discriminate Hpay].
  destruct (confidence_binary64 (covered fields)
              (length (_check_exclusions fields health_insurance_basic))
              (length risk_factors)) as [Hconf _].
  { pose proof (check_exclusions_length fields). lia. }
  { pose proof (apply_risk_rules_binary64_length _ _ _ Hrules). lia. }
  unfold len. rewrite Hconf. cbn [bind].
  change (assoc (py "年度报销上限") (limits health_insurance_basic))
    with (Some (VNum 100000)).
  change (Binary64.LiabilityEvaluator.validated (Binary64.literal 100000))
    with (Ok (Binary64.of_Z 100000)).
  cbn [bind]. rewrite Hpay. reflexivity.
Qed.

Lemma evaluate_binary64_raise (now : datetime) (fields : gmap pystr FieldEntry)
    (contract_terms : option pystr) (e : exn) :
  Binary64.LiabilityEvaluator.evaluate now fields contract_terms = Raise e
  <-> e = ValueError
      /\ isdigit (get_value fields "age" []) = true
      /\ (forallb is_decimal (get_value fields "age" []) = false
          \/ (4300 < Z.of_nat (length (get_value fields "age" [])))%Z).
Proof.
  rewrite evaluate_binary64, <- (gender_rule_raise_iff now),
    <- apply_risk_rules_binary64_raise.
  destruct (Binary64.LiabilityEvaluator._apply_risk_rules now fields) as [rfs|e'];
    cbn [bind].
  - split; intros H; discriminate H.
  - split; intros [= ->]; reflexivity.
Qed.

Lemma to_Q_nonneg (x : Binary64.float) (q : Q) :
  Binary64.to_Q x = Some q -> Binary64.sign_of x = false -> (0 <= q)%Q.
Proof.
  destruct x as [s|s| |s m e]; cbn [Binary64.to_Q Binary64.sign_of];
    try discriminate.
  - intros [= <-] _. apply Qle_refl.
  - intros [= <-] ->. rewrite Qred_correct.
    apply Qmult_le_0_compat; [easy|].
    destruct e as [|p|p]; cbn [Binary64.pow2Q]; [easy | | easy].
    change 0%Q with (inject_Z 0). rewrite <- Zle_Qle. apply Z.pow_nonneg. lia.
Qed.

Lemma round_half_even_nonneg (q : Q) : (0 <= q)%Q -> (0 <= round_half_even q)%Z.
Proof.
  intros H. unfold round_half_even.
  assert (Hf : (0 <= Qfloor q)%Z).
  { change 0%Z with (Qfloor 0). now apply Qfloor_resp_le. }
  destruct (_ ?= _)%Q; [destruct (Z.even _) | |]; lia.
Qed.

(** [round(x, 2)] of a non-negative double: the double nearest to the
    exact value of [x] rounded to cents. *)
Lemma round2_binary64 (x : Binary64.float) (q : Q) :
  Binary64.to_Q x = Some q -> Binary64.sign_of x = false ->
  Binary64.round2 x = Binary64.of_Q (round2 q) /\ rounded_to_cents q (round2 q).
Proof.
  intros Hq Hs. split; [|apply round2_rounded].
  unfold Binary64.round2, Binary64.of_Q, round2. rewrite Hq, Hs. cbn [Qnum Qden].
  replace (round_half_even (q * 100) <? 0)%Z with false; [reflexivity|].
  symmetry. apply Z.ltb_ge, round_half_even_nonneg.
  apply Qmult_le_0_compat; [now apply (to_Q_nonneg x) | easy].
Qed.

(** The accuracy of up to six fields that all have the confidence 0.9. *)
Lemma accuracy_binary64 (fields : list ExtractedField) :
  Forall (fun f => confidence f = (9 # 10)%Q) fields -> (length fields <= 6)%nat ->
  Binary64.KeywordExtractor._calculate_extraction_accuracy fields
  = Ok (Binary64.Rules.accuracy_of_count (length fields)).
Proof.
  intros Hall Hlen.
  unfold Binary64.KeywordExtractor._calculate_extraction_accuracy,
    Binary64.KeywordExtractor.sum_of_confidences.
  do 7 (destruct fields as [|? fields];
        [cbn [fold_left length];
         repeat match goal with
                | H : Forall _ (_ :: _) |- _ =>
                    let Hc := fresh in
                    apply Forall_cons in H; destruct H as [Hc H]; rewrite Hc; clear Hc
                end;
         vm_compute; reflexivity|]).
  cbn [length] in Hlen. lia.
Qed.

Lemma definitions_count (t : DocumentType) :
  (length (ExtractorSpec.definitions_of t) <= 6)%nat.
Proof. destruct t; vm_compute; lia. Qed.

Lemma extract_from_document_binary64 (doc_id content : pystr) (t : DocumentType) :
  let fields := flat_map (ExtractorSpec.field_of_first_match content)
                  (ExtractorSpec.definitions_of t) in
  Binary64.KeywordExtractor.extract_from_document doc_id content t
  = Ok {| Binary64.KeywordExtractor.er_document_id := doc_id;
          Binary64.KeywordExtractor.extracted_fields := fields;
          Binary64.KeywordExtractor.extraction_accuracy :=
            Binary64.Rules.accuracy_of_count (length fields) |}
  /\ (length fields <= 6)%nat.
Proof.
  intros fields.
  assert (Hlen : (length fields <= 6)%nat).
  { pose proof (field_of_first_match_names content (ExtractorSpec.definitions_of t))
      as Hsub.
    apply sublist_length in Hsub. rewrite !length_map in Hsub.
    pose proof (definitions_count t). unfold fields. lia. }
  split; [|exact Hlen].
  unfold Binary64.KeywordExtractor.extract_from_document.
  rewrite extract_fields_spec. cbn [bind]. fold fields.
  rewrite accuracy_binary64; [reflexivity | | exact Hlen].
  apply field_of_first_match_confidence.
Qed.

Lemma gender_rule_without_fields (now : datetime) :
  _check_gender_age_inconsistency now ∅ = Ok false.
Proof.
  unfold _check_gender_age_inconsistency, get_value. rewrite !lookup_empty.
  reflexivity.
Qed.

Lemma risk_rules_without_fields (now : datetime) :
  Binary64.LiabilityEvaluator._apply_risk_rules now ∅ = Ok [].
Proof.
  unfold Binary64.LiabilityEvaluator._apply_risk_rules,
    Binary64.LiabilityEvaluator.risk_rules.
  cbn [apply_rules condition].
  rewrite gender_rule_without_fields, abnormal_cost_binary64. cbn [bind].
  vm_compute. reflexivity.
Qed.

(** The evaluation of a claim in binary64: the mock of the claim store
    holds nothing, and the confidence is what 0.9 - 0.3 gives. *)
Lemma evaluate_claim_binary64 (now : datetime) (claim_id : pystr)
    (contract_terms : option pystr) :
  Binary64.LiabilityEvaluator.evaluate_claim now claim_id contract_terms
  = Ok {| Binary64.LiabilityEvaluator.coverage_applicable := false;
          Binary64.LiabilityEvaluator.exclusion_factors := [];
          Binary64.LiabilityEvaluator.coverage_limit := Some (Binary64.of_Z 100000);
          Binary64.LiabilityEvaluator.recommended_payout := S754_zero false;
          Binary64.LiabilityEvaluator.evaluation_reasons :=
            [py "案件可能不在保障范围内";
             py "缺少诊断信息，无法确认是否在保障范围内"];
          Binary64.LiabilityEvaluator.le_confidence :=
            Binary64.of_Q (6000000000000001 # 10000000000000000) |}.
Proof.
  unfold Binary64.LiabilityEvaluator.evaluate_claim. cbn [_get_claim_data].
  rewrite evaluate_binary64.
  change (_merge_extraction_results []) with (∅ : gmap pystr FieldEntry).
  rewrite risk_rules_without_fields. cbn [bind]. vm_compute. reflexivity.
Qed.

End Binary64Facts.




(** C4, as stated, fails: the payout is computed in binary64. For the
    invoice amount 3879.383333333333 the exact product with 0.9 is
    3491.4449999999997, which rounds to 3491.44, and so does the product
    of 0.9 and the double nearest to the amount; the evaluation pays
    3491.45, more than half a cent above the exact product, because the
    product of the doubles is rounded up past 3491.445 before it is
    rounded to cents. *)
Lemma payout_is_not_the_exact_rule :
  let fields :=
    fields_of [("diagnosis", "阑尾炎"); ("invoice_amount", "3879.383333333333")]%string in
  exists evaluation paid amount,
    Binary64.LiabilityEvaluator.evaluate (noon 2026 11 3) fields None = Ok evaluation
    /\ Binary64.LiabilityEvaluator.coverage_applicable evaluation = true
    /\ Binary64.LiabilityEvaluator.exclusion_factors evaluation = []
    /\ Binary64.LiabilityEvaluator.recommended_payout evaluation
       = Binary64.of_Q (349145 # 100)
    /\ Binary64.to_Q (Binary64.LiabilityEvaluator.recommended_payout evaluation)
       = Some paid
    /\ (EvaluatorSpec.invoice_amount fields == 3879383333333333 # 1000000000000)%Q
    /\ (EvaluatorSpec.payout_rule fields true [] (1 # 10) 100000 == 349144 # 100)%Q
    /\ (1 # 200 < paid - EvaluatorSpec.invoice_amount fields * (1 - (1 # 10)))%Q
    /\ Binary64.to_Q (Binary64.of_Q (EvaluatorSpec.invoice_amount fields)) = Some amount
    /\ (round2 (Qmin (amount * (1 - (1 # 10))) 100000) == 349144 # 100)%Q.
Proof.
  eexists _, _, _. split; [vm_compute; reflexivity|].
  split; [reflexivity|]. split; [reflexivity|].
  split; [vm_compute; reflexivity|]. split; [vm_compute; reflexivity|].
  split; [vm_compute; reflexivity|]. split; [vm_compute; reflexivity|].
  split; [vm_compute; reflexivity|]. split; [vm_compute; reflexivity|].
  vm_compute. reflexivity.
Qed.

(** C4, amended. The payout is the float 0.0 when the claim is not
    covered or an exclusion factor is present, whatever the invoice
    amount. Otherwise, for a policy with a numeric annual limit and
    self-pay ratio, it is the rule evaluated in binary64: the double
    nearest to the parsed amount (the first numeric token of the field
    without its commas, 0 when the field is missing or holds no number)
    times 1 minus the ratio, both operations rounded, then the smaller
    of this product and the limit, rounded to two places. The payout of
    every evaluation follows this rule with the ratio 0.1 and the limit
    100000 of the default policy; an evaluation that does not return
    raises the [ValueError] of [int] on an age field of digits. Rounding
    a non-negative double to two places gives the double nearest to the
    multiple of 1/100 that is nearest to its exact value. *)
Theorem payout_follows_rule_in_binary64 (fields : gmap pystr FieldEntry)
    (policy_info : PolicyTerms) (covered : bool) (factors : list pystr) :
  (covered = false \/ factors <> [] ->
   Binary64.LiabilityEvaluator._calculate_recommended_payout fields policy_info
     covered factors
   = Ok (Binary64.Float (S754_zero false)))
  /\ (forall limit ratio,
        covered = true -> factors = [] ->
        assoc (py "年度报销上限") (limits policy_info) = Some (VNum limit) ->
        assoc (py "自付比例") (limits policy_info) = Some (VNum ratio) ->
        Binary64.LiabilityEvaluator._calculate_recommended_payout fields policy_info
          covered factors
        = Binary64.Rules.payout_rule (EvaluatorSpec.invoice_amount fields)
            (Binary64.literal ratio) (Binary64.literal limit))
  /\ (forall now contract_terms,
        match Binary64.LiabilityEvaluator.evaluate now fields contract_terms with
        | Ok evaluation =>
            Binary64.LiabilityEvaluator.recommended_payout evaluation
            = if negb (Binary64.LiabilityEvaluator.coverage_applicable evaluation)
                 || nonempty (Binary64.LiabilityEvaluator.exclusion_factors evaluation)
              then S754_zero false
              else Binary64.Rules.default_payout (EvaluatorSpec.invoice_amount fields)
        | Raise e => e = ValueError /\ isdigit (get_value fields "age" []) = true
        end)
  /\ (forall (x : Binary64.float) (value : Q),
        Binary64.to_Q x = Some value -> Binary64.sign_of x = false ->
        Binary64.round2 x = Binary64.of_Q (round2 value)
        /\ EvaluatorSpec.rounded_to_cents value (round2 value)).
Proof.
  split; [|split; [|split]].
  - intros H. unfold Binary64.LiabilityEvaluator._calculate_recommended_payout.
    destruct H as [-> | H]; [reflexivity|].
    destruct factors; [contradiction|]. now rewrite orb_true_r.
  - intros limit ratio -> -> Hlimit Hratio. now apply payout_binary64.
  - intros now contract_terms.
    destruct (Binary64.LiabilityEvaluator.evaluate now fields contract_terms)
      as [evaluation|e] eqn:E.
    + rewrite evaluate_binary64 in E.
      destruct (Binary64.LiabilityEvaluator._apply_risk_rules now fields)
        as [risk_factors|]; cbn [bind] in E; [|discriminate E].
      injection E as <-. reflexivity.
    + apply evaluate_binary64_raise in E. destruct E as [He [Hd _]]. now split.
  - intros x value. apply round2_binary64.
Qed.

Lemma payout_follows_rule_in_binary64_witness :
  Binary64.LiabilityEvaluator._calculate_recommended_payout
    (fields_of [("diagnosis", "阑尾炎"); ("invoice_amount", "¥25,000.00")]%string)
    health_insurance_basic false [] = Ok (Binary64.Float (S754_zero false))
  /\ Binary64.LiabilityEvaluator._calculate_recommended_payout
       (fields_of [("diagnosis", "阑尾炎"); ("invoice_amount", "¥25,000.00")]%string)
       health_insurance_basic true [] = Ok (Binary64.Float (Binary64.of_Z 22500)).
Proof.
  split.
  - apply (proj1 (payout_follows_rule_in_binary64 _ _ false [])). left. reflexivity.
  - rewrite (proj1 (proj2 (payout_follows_rule_in_binary64
               (fields_of [("diagnosis", "阑尾炎"); ("invoice_amount", "¥25,000.00")]%string)
               health_insurance_basic true []))
               100000%Q (1 # 10)%Q eq_refl eq_refl eq_refl eq_refl).
    vm_compute. reflexivity.
Defined.

(** X6. The abnormal-cost rule never raises. It compares the double
    nearest to the invoice amount (the first numeric token of the field
    without its commas, 0 without a field or a number) with 20000: it
    fires exactly when that double is infinite or has an exact value
    above 20000. An amount above 20000 by less than half the distance to
    the next double, such as 20000.0000000000000001, does not fire the
    rule; 20000.01 does. *)
Theorem abnormal_cost_threshold (fields : gmap pystr FieldEntry) :
  (exists fired,
      Binary64.LiabilityEvaluator._check_abnormal_cost fields = Ok fired
      /\ (fired = true
          <-> match Binary64.to_Q (Binary64.of_Q (EvaluatorSpec.invoice_amount fields)) with
              | Some amount => (20000 < amount)%Q
              | None =>
                  Binary64.of_Q (EvaluatorSpec.invoice_amount fields) = S754_infinity false
              end))
  /\ Binary64.LiabilityEvaluator._check_abnormal_cost
       (fields_of [("invoice_amount", "20000.0000000000000001")]%string) = Ok false
  /\ (20000 < EvaluatorSpec.invoice_amount
                 (fields_of [("invoice_amount", "20000.0000000000000001")]%string))%Q
  /\ Binary64.LiabilityEvaluator._check_abnormal_cost
       (fields_of [("invoice_amount", "20000.01")]%string) = Ok true
  /\ Binary64.LiabilityEvaluator._check_abnormal_cost
       (fields_of [("invoice_amount", "20000")]%string) = Ok false.
Proof.
  split.
  - eexists. split; [apply abnormal_cost_binary64|].
    apply (gt_int_spec _ 20000).
  - repeat split; vm_compute; reflexivity.
Qed.

(** X12. [extract_from_document] always returns, with the identifier
    it was given and at most six fields. Its accuracy, computed in
    binary64, depends on the number of fields only: 0.0 for none, 0.69,
    0.75, 0.81 and 0.87 for one to four, and 0.9299999999999999 from
    five fields on; it stays below 0.93. *)
Theorem extraction_accuracy_in_binary64 (doc_id content : pystr) (t : DocumentType) :
  exists r,
    Binary64.KeywordExtractor.extract_from_document doc_id content t = Ok r
    /\ Binary64.KeywordExtractor.er_document_id r = doc_id
    /\ _extract_fields_by_type content t
       = Ok (Binary64.KeywordExtractor.extracted_fields r)
    /\ (length (Binary64.KeywordExtractor.extracted_fields r) <= 6)%nat
    /\ Binary64.KeywordExtractor.extraction_accuracy r
       = Binary64.Rules.accuracy_of_count
           (length (Binary64.KeywordExtractor.extracted_fields r))
    /\ Binary64.ltb (Binary64.KeywordExtractor.extraction_accuracy r)
         (Binary64.of_Q (93 # 100)) = true
    /\ (Binary64.KeywordExtractor.extraction_accuracy r
        = Binary64.of_Q (9299999999999999 # 10000000000000000)
        <-> (5 <= length (Binary64.KeywordExtractor.extracted_fields r))%nat).
Proof.
  destruct (extract_from_document_binary64 doc_id content t) as [H Hlen].
  eexists. split; [exact H|].
  cbn [Binary64.KeywordExtractor.er_document_id
         Binary64.KeywordExtractor.extracted_fields
         Binary64.KeywordExtractor.extraction_accuracy].
  split; [reflexivity|]. split; [apply extract_fields_spec|].
  split; [exact Hlen|]. split; [reflexivity|].
  set (n := length _) in *. clearbody n.
  do 7 (destruct n as [|n];
        [split; [vm_compute; reflexivity|];
         split; [intros E; try (vm_compute in E; discriminate E); lia
                | intros E; try lia; vm_compute; reflexivity]|]).
  lia.
Qed.

(** ** Documents of a claim and the API *)

Section ApiFacts.

Import Documents Api ApiSpec.

Lemma Ok_inj {A} (a b : A) : Ok a = Ok b -> a = b.
Proof. now intros [= ->]. Qed.

Lemma extract_from_document_at_pdf (fs : filesystem) (doc_id a : pystr)
    (t : DocumentType) :
  Extractor.extract_from_document_at fs doc_id (a ++ py ".pdf") t
  = Ok {| er_document_id := doc_id;
          extracted_fields :=
            flat_map (ExtractorSpec.field_of_first_match (simulated_content (a ++ py ".pdf")))
              (ExtractorSpec.definitions_of t);
          extraction_accuracy :=
            _calculate_extraction_accuracy
              (flat_map (ExtractorSpec.field_of_first_match
                           (simulated_content (a ++ py ".pdf")))
                 (ExtractorSpec.definitions_of t)) |}.
Proof.
  unfold Extractor.extract_from_document_at, Extractor._extract_text_from_document.
  rewrite endswith_txt_pdf. cbn [bind]. unfold extract_from_document.
  now rewrite extract_fields_spec.
Qed.

(** Extracting the information of a claim never reads a file and never
    raises: the three documents are the placeholder text. *)
Lemma extract_claim_information_spec (fs : filesystem) (fresh : uuids)
    (claim_id : pystr) :
  Extractor.extract_claim_information fs fresh claim_id
  = Ok (List.map
          (fun '(rank, (path, t)) =>
             let fields :=
               flat_map (ExtractorSpec.field_of_first_match (simulated_content path))
                 (ExtractorSpec.definitions_of t) in
             {| er_document_id := fresh rank;
                extracted_fields := fields;
                extraction_accuracy := _calculate_extraction_accuracy fields |})
          (combine [0; 1; 2]%nat (Extractor._get_claim_documents_with_types claim_id))).
Proof.
  unfold Extractor.extract_claim_information, Extractor._get_claim_documents_with_types.
  cbn [Extractor.extract_loop_docs combine List.map].
  replace (py "/tmp/claims/" ++ claim_id ++ py "/medical_record.pdf")
    with ((py "/tmp/claims/" ++ claim_id ++ py "/medical_record") ++ py ".pdf")
    by (now rewrite <- !app_assoc).
  replace (py "/tmp/claims/" ++ claim_id ++ py "/invoice.pdf")
    with ((py "/tmp/claims/" ++ claim_id ++ py "/invoice") ++ py ".pdf")
    by (now rewrite <- !app_assoc).
  replace (py "/tmp/claims/" ++ claim_id ++ py "/contract.pdf")
    with ((py "/tmp/claims/" ++ claim_id ++ py "/contract") ++ py ".pdf")
    by (now rewrite <- !app_assoc).
  rewrite !extract_from_document_at_pdf. reflexivity.
Qed.

(** The evaluation of a claim reads the mock of the claim store, which
    holds nothing. *)
Lemma evaluate_claim_spec (now : datetime) (claim_id : pystr)
    (contract_terms : option pystr) :
  evaluate_claim now claim_id contract_terms
  = Ok {| coverage_applicable := false;
          exclusion_factors := [];
          coverage_limit := Some 100000%Q;
          recommended_payout := 0%Q;
          evaluation_reasons :=
            [py "案件可能不在保障范围内";
             py "缺少诊断信息，无法确认是否在保障范围内"];
          le_confidence := (60 # 100)%Q |}.
Proof. unfold evaluate_claim. cbn [_get_claim_data]. rewrite evaluate_spec. reflexivity. Qed.

Lemma perform_classification_found (fs : filesystem) (fresh : uuids) (claim_id : pystr)
    (claims_storage : gmap pystr ClaimModel) (c : ClaimModel) :
  claims_storage !! claim_id = Some c ->
  exists rs,
    Classifier.classify_claim_documents fs fresh claim_id = Ok rs
    /\ _perform_classification fs fresh claim_id claims_storage
       = (<[claim_id := set_status (set_classification_results c rs) EXTRACTING]>
            claims_storage, None).
Proof.
  intros Hc. eexists. split; [apply classify_claim_documents_spec|].
  unfold _perform_classification. rewrite classify_claim_documents_spec.
  unfold storage_get. rewrite Hc. reflexivity.
Qed.

Lemma perform_extraction_found (fs : filesystem) (fresh : uuids) (claim_id : pystr)
    (claims_storage : gmap pystr ClaimModel) (c : ClaimModel) :
  claims_storage !! claim_id = Some c ->
  exists rs,
    Extractor.extract_claim_information fs fresh claim_id = Ok rs
    /\ _perform_extraction fs fresh claim_id claims_storage
       = (<[claim_id := set_status (set_extraction_results c rs) EVALUATING]>
            claims_storage, None).
Proof.
  intros Hc. eexists. split; [apply extract_claim_information_spec|].
  unfold _perform_extraction. rewrite extract_claim_information_spec.
  unfold storage_get. rewrite Hc. reflexivity.
Qed.

Lemma run_task_missing (fs : filesystem) (fresh : uuids) (t : task)
    (claims_storage : gmap pystr ClaimModel) :
  claims_storage !! target (Background fs fresh t) = None ->
  run_task fs fresh t claims_storage = (claims_storage, Some KeyError).
Proof.
  destruct t as [claim_id|claim_id]; cbn [target run_task]; intros Hc.
  - unfold _perform_classification. rewrite classify_claim_documents_spec.
    unfold reject, storage_get. rewrite Hc. reflexivity.
  - unfold _perform_extraction. rewrite extract_claim_information_spec.
    unfold reject, storage_get. rewrite Hc. reflexivity.
Qed.

(** What a call does to the storage: nothing, or one record written
    under the claim of the call. *)
Lemma handle_cases (created_default updated_default : datetime) (r : request)
    (claims_storage : gmap pystr ClaimModel) :
  handle created_default updated_default r claims_storage = claims_storage
  \/ exists c, handle created_default updated_default r claims_storage
               = <[target r := c]> claims_storage
               /\ ((exists filenames, r = Upload (target r) filenames)
                   \/ is_Some (claims_storage !! target r)).
Proof.
  destruct r as [claim_id filenames|claim_id|claim_id|claim_id|now claim_id terms
                 |claim_id|fs fresh t]; cbn [handle target].
  - right. eexists. split; [reflexivity|]. left. now exists filenames.
  - now left.
  - unfold classify_documents.
    destruct (claims_storage !! claim_id) as [c|] eqn:Hc; [|now left].
    right. eexists. split; [reflexivity|]. right. first [now rewrite Hc | now eexists].
  - unfold extract_information.
    destruct (claims_storage !! claim_id) as [c|] eqn:Hc; [|now left].
    right. eexists. split; [reflexivity|]. right. first [now rewrite Hc | now eexists].
  - unfold evaluate_liability.
    destruct (claims_storage !! claim_id) as [c|] eqn:Hc; [|now left].
    rewrite evaluate_claim_spec. right. eexists. split.
    + cbn [fst]. apply insert_insert_eq.
    + right. first [now rewrite Hc | now eexists].
  - now left.
  - destruct (claims_storage !! target (Background fs fresh t)) as [c|] eqn:Hc.
    + right. destruct t as [claim_id|claim_id]; cbn [target run_task] in *.
      * destruct (perform_classification_found fs fresh claim_id _ c Hc) as [rs [_ ->]].
        eexists. split; [reflexivity|]. right. first [now rewrite Hc | now eexists].
      * destruct (perform_extraction_found fs fresh claim_id _ c Hc) as [rs [_ ->]].
        eexists. split; [reflexivity|]. right. first [now rewrite Hc | now eexists].
    + left. now rewrite run_task_missing.
Qed.

End ApiFacts.

Section ApiInvariant.

Import Documents Api ApiSpec.

Variables created_default updated_default : datetime.

Local Ltac fields_of_claim :=
  cbn [id status documents policy_holder insured_person incident_date claim_amount
       classification_results extraction_results liability_evaluation created_at
       updated_at set_status set_classification_results set_extraction_results
       set_liability_evaluation].

Lemma startswith_app (p s : pystr) : startswith p (p ++ s) = true.
Proof.
  induction p as [|a p IH]; [reflexivity|]. cbn [app startswith].
  now rewrite N.eqb_refl, IH.
Qed.

Lemma uploaded_claim_invariant (claim_id : pystr) (filenames : list pystr) :
  claim_invariant created_default updated_default claim_id
    {| id := claim_id; status := UPLOADED;
       documents :=
         List.map (fun filename => py "uploads/" ++ claim_id ++ py "/" ++ filename)
           filenames;
       policy_holder := None; insured_person := None; incident_date := None;
       claim_amount := None; classification_results := None;
       extraction_results := None; liability_evaluation := None;
       created_at := created_default; updated_at := updated_default |}.
Proof.
  constructor; fields_of_claim; try reflexivity; try discriminate;
    try (intros; discriminate).
  - apply List.Forall_forall. intros p Hp. apply in_map_iff in Hp as [filename [<- _]].
    replace (py "uploads/" ++ claim_id ++ py "/" ++ filename)
      with ((py "uploads/" ++ claim_id ++ py "/") ++ filename)
      by (now rewrite <- !app_assoc).
    apply startswith_app.
  - intros _. repeat split.
Qed.

Lemma status_invariant (k : pystr) (c : ClaimModel) (s : ClaimStatus) :
  claim_invariant created_default updated_default k c ->
  s = CLASSIFYING \/ s = EXTRACTING \/ s = EVALUATING ->
  claim_invariant created_default updated_default k (set_status c s).
Proof.
  intros Hc Hs. destruct Hc. constructor; fields_of_claim; try assumption;
    destruct Hs as [-> | [-> | ->] ]; discriminate.
Qed.

Lemma classification_invariant (k : pystr) (c : ClaimModel) (fs : filesystem)
    (fresh : uuids) (rs : list ClassificationResult) :
  claim_invariant created_default updated_default k c ->
  Classifier.classify_claim_documents fs fresh k = Ok rs ->
  claim_invariant created_default updated_default k
    (set_status (set_classification_results c rs) EXTRACTING).
Proof.
  intros Hc Hrs. destruct Hc. rewrite classify_claim_documents_spec in Hrs. injection Hrs as <-.
  constructor; fields_of_claim; try assumption; try discriminate.
  intros rs [= <-]. split; [reflexivity|]. repeat constructor.
Qed.

Lemma extraction_invariant (k : pystr) (c : ClaimModel) (fs : filesystem)
    (fresh : uuids) (rs : list ExtractionResult) :
  claim_invariant created_default updated_default k c ->
  Extractor.extract_claim_information fs fresh k = Ok rs ->
  claim_invariant created_default updated_default k
    (set_status (set_extraction_results c rs) EVALUATING).
Proof.
  intros Hc Hrs. destruct Hc. rewrite extract_claim_information_spec in Hrs.
  apply Ok_inj in Hrs. subst rs.
  constructor; fields_of_claim; try assumption; try discriminate.
  intros rs Hrs. apply (inj Some) in Hrs. subst rs. reflexivity.
Qed.

Lemma evaluation_invariant (k : pystr) (c : ClaimModel) (now : datetime)
    (contract_terms : option pystr) (ev : LiabilityEvaluation) :
  claim_invariant created_default updated_default k c ->
  evaluate_claim now k contract_terms = Ok ev ->
  claim_invariant created_default updated_default k
    (set_status (set_liability_evaluation (set_status c EVALUATING) ev) COMPLETED).
Proof.
  intros Hc Hev. destruct Hc. rewrite evaluate_claim_spec in Hev. injection Hev as <-.
  constructor; fields_of_claim; try assumption; try discriminate.
  intros ev [= <-]. repeat split.
Qed.

Lemma insert_invariant (claims_storage : gmap pystr ClaimModel) (claim_id : pystr)
    (c' : ClaimModel) :
  (forall k c, claims_storage !! k = Some c ->
     claim_invariant created_default updated_default k c) ->
  claim_invariant created_default updated_default claim_id c' ->
  forall k c, <[claim_id := c']> claims_storage !! k = Some c ->
    claim_invariant created_default updated_default k c.
Proof.
  intros Hinv Hc' k c. destruct (decide (claim_id = k)) as [<-|Hne].
  - rewrite lookup_insert_eq. now intros [= <-].
  - rewrite lookup_insert_ne by exact Hne. apply Hinv.
Qed.

Lemma handle_invariant (r : request) (claims_storage : gmap pystr ClaimModel) :
  (forall k c, claims_storage !! k = Some c ->
     claim_invariant created_default updated_default k c) ->
  forall k c, handle created_default updated_default r claims_storage !! k = Some c ->
    claim_invariant created_default updated_default k c.
Proof.
  intros Hinv.
  destruct r as [claim_id filenames|claim_id|claim_id|claim_id|now claim_id terms
                 |claim_id|fs fresh t]; cbn [handle].
  - apply insert_invariant; [exact Hinv | apply uploaded_claim_invariant].
  - exact Hinv.
  - unfold classify_documents.
    destruct (claims_storage !! claim_id) as [c0|] eqn:Hc; [|exact Hinv].
    cbn [fst]. apply insert_invariant; [exact Hinv|].
    apply status_invariant; [now apply Hinv | tauto].
  - unfold extract_information.
    destruct (claims_storage !! claim_id) as [c0|] eqn:Hc; [|exact Hinv].
    cbn [fst]. apply insert_invariant; [exact Hinv|].
    apply status_invariant; [now apply Hinv | tauto].
  - unfold evaluate_liability.
    destruct (claims_storage !! claim_id) as [c0|] eqn:Hc; [|exact Hinv].
    rewrite evaluate_claim_spec. cbn [fst]. rewrite insert_insert_eq.
    apply insert_invariant; [exact Hinv|].
    apply (evaluation_invariant _ _ now terms); [now apply Hinv|].
    apply evaluate_claim_spec.
  - exact Hinv.
  - destruct (claims_storage !! target (Background fs fresh t)) as [c0|] eqn:Hc.
    + destruct t as [claim_id|claim_id]; cbn [target run_task] in *.
      * destruct (perform_classification_found fs fresh claim_id _ c0 Hc) as [rs [Hrs ->]].
        cbn [fst]. apply insert_invariant; [exact Hinv|].
        apply (classification_invariant _ _ fs fresh); [now apply Hinv | exact Hrs].
      * destruct (perform_extraction_found fs fresh claim_id _ c0 Hc) as [rs [Hrs ->]].
        cbn [fst]. apply insert_invariant; [exact Hinv|].
        apply (extraction_invariant _ _ fs fresh); [now apply Hinv | exact Hrs].
    + rewrite run_task_missing by exact Hc. exact Hinv.
Qed.

Lemma run_invariant (calls : list request) :
  forall k c, run created_default updated_default calls !! k = Some c ->
    claim_invariant created_default updated_default k c.
Proof.
  unfold run. induction calls as [|r calls IH] using rev_ind.
  - intros k c H. cbn in H. now rewrite lookup_empty in H.
  - rewrite fold_left_app. cbn [fold_left]. now apply handle_invariant.
Qed.

End ApiInvariant.

(** X16. The evaluation of a claim reads the mock of the claim store,
    which holds no document: whatever the claim, the clock and the
    contract terms, and whatever was classified or extracted before, the
    result is "not covered, payout 0" with two reasons, and with the
    confidence 0.6000000000000001 that 0.9 - 0.3 gives in binary64. The
    endpoint stores the result, marks the claim as completed and changes
    nothing else. *)
Theorem evaluation_endpoint_ignores_the_documents (now : datetime) (claim_id : pystr)
    (contract_terms : option pystr) (claims_storage : gmap pystr Api.ClaimModel)
    (c : Api.ClaimModel) :
  claims_storage !! claim_id = Some c ->
  exists ev c',
    evaluate_claim now claim_id contract_terms = Ok ev
    /\ Api.evaluate_liability now claim_id contract_terms claims_storage
       = (<[claim_id := c']> claims_storage,
          Api.Done {| Api.ev_claim_id := claim_id; Api.liability_result := ev |})
    /\ Api.status c' = Api.COMPLETED
    /\ Api.liability_evaluation c' = Some ev
    /\ Api.documents c' = Api.documents c
    /\ Api.classification_results c' = Api.classification_results c
    /\ Api.extraction_results c' = Api.extraction_results c
    /\ coverage_applicable ev = false
    /\ exclusion_factors ev = []
    /\ recommended_payout ev = 0%Q
    /\ (exists evaluation,
          Binary64.LiabilityEvaluator.evaluate_claim now claim_id contract_terms
          = Ok evaluation
          /\ Binary64.LiabilityEvaluator.recommended_payout evaluation = S754_zero false
          /\ Binary64.LiabilityEvaluator.le_confidence evaluation
             = Binary64.of_Q (6000000000000001 # 10000000000000000))
    /\ evaluation_reasons ev
       = [py "案件可能不在保障范围内";
          py "缺少诊断信息，无法确认是否在保障范围内"].
Proof.
  intros Hc. eexists _, _. split; [apply evaluate_claim_spec|].
  split.
  - unfold Api.evaluate_liability. rewrite Hc, evaluate_claim_spec.
    rewrite insert_insert_eq. reflexivity.
  - do 8 (split; [reflexivity|]). split; [|reflexivity].
    eexists. split; [apply evaluate_claim_binary64|]. split; reflexivity.
Qed.

Lemma evaluation_endpoint_ignores_the_documents_witness :
  exists ev, evaluate_claim (noon 2026 11 3) (py "c1") (Some (py "意外伤害保险")) = Ok ev
             /\ recommended_payout ev = 0%Q.
Proof.
  assert (Hc : fst (Api.upload_claim_documents (noon 2026 1 1) (noon 2026 1 1) (py "c1")
                      [py "a.pdf"] (∅ : gmap pystr Api.ClaimModel)) !! py "c1"
               = Some {| Api.id := py "c1"; Api.status := Api.UPLOADED;
                         Api.documents := [py "uploads/c1/a.pdf"];
                         Api.policy_holder := None; Api.insured_person := None;
                         Api.incident_date := None; Api.claim_amount := None;
                         Api.classification_results := None;
                         Api.extraction_results := None;
                         Api.liability_evaluation := None;
                         Api.created_at := noon 2026 1 1;
                         Api.updated_at := noon 2026 1 1 |})
    by (vm_compute; reflexivity).
  destruct (evaluation_endpoint_ignores_the_documents (noon 2026 11 3) (py "c1")
              (Some (py "意外伤害保险")) _ _ Hc)
    as [ev [c' [Hev [_ [_ [_ [_ [_ [_ [_ [_ [Hp _]]]]]]]]]]]].
  exists ev. split; [exact Hev | exact Hp].
Defined.

(** X17. A call touches one claim only: every other record is left as
    it was, no call removes a record, and only an upload creates one. *)
Theorem calls_touch_one_claim (created_default updated_default : datetime)
    (r : Api.request) (claims_storage : gmap pystr Api.ClaimModel) (k : pystr) :
  (k <> Api.target r ->
   Api.handle created_default updated_default r claims_storage !! k
   = claims_storage !! k)
  /\ (is_Some (claims_storage !! k) ->
      is_Some (Api.handle created_default updated_default r claims_storage !! k))
  /\ (claims_storage !! k = None ->
      is_Some (Api.handle created_default updated_default r claims_storage !! k) ->
      exists filenames, r = Api.Upload k filenames).
Proof.
  destruct (handle_cases created_default updated_default r claims_storage)
    as [->|[c [-> Hwhy]]].
  - split; [reflexivity|]. split; [tauto|]. intros -> [x Hx]. discriminate Hx.
  - split; [|split].
    + intros Hne. now apply lookup_insert_ne.
    + intros Hk. destruct (decide (Api.target r = k)) as [<-|Hne].
      * rewrite lookup_insert_eq. now eexists.
      * now rewrite lookup_insert_ne.
    + intros Hnone Hsome. destruct (decide (Api.target r = k)) as [<-|Hne].
      * destruct Hwhy as [Hup|[x Hx]]; [exact Hup | congruence].
      * rewrite lookup_insert_ne, Hnone in Hsome by exact Hne.
        destruct Hsome as [x Hx]. discriminate Hx.
Qed.

Lemma calls_touch_one_claim_witness :
  Api.handle (noon 2026 1 1) (noon 2026 1 1) (Api.Classify (py "c2"))
    (fst (Api.upload_claim_documents (noon 2026 1 1) (noon 2026 1 1) (py "c1")
            [py "a.pdf"] (∅ : gmap pystr Api.ClaimModel))) !! py "c1"
  = fst (Api.upload_claim_documents (noon 2026 1 1) (noon 2026 1 1) (py "c1")
           [py "a.pdf"] (∅ : gmap pystr Api.ClaimModel)) !! py "c1".
Proof.
  apply (proj1 (calls_touch_one_claim _ _ (Api.Classify (py "c2")) _ (py "c1"))).
  vm_compute. discriminate.
Defined.

(** X18. A background task on a stored claim never fails: the
    classification task stores three classification results and moves the
    claim to the extracting state, the extraction task stores three
    extraction results and moves it to the evaluating state, whatever the
    file system holds. On a claim that is not stored the task changes
    nothing and ends with the [KeyError] raised in its own handler. *)
Theorem background_tasks_never_reject (fs : Documents.filesystem)
    (fresh : Documents.uuids) (claim_id : pystr)
    (claims_storage : gmap pystr Api.ClaimModel) :
  (forall c, claims_storage !! claim_id = Some c ->
     exists rs rs',
       length rs = 3%nat /\ length rs' = 3%nat
       /\ Api._perform_classification fs fresh claim_id claims_storage
          = (<[claim_id := Api.set_status (Api.set_classification_results c rs)
                             Api.EXTRACTING]> claims_storage, None)
       /\ Api._perform_extraction fs fresh claim_id claims_storage
          = (<[claim_id := Api.set_status (Api.set_extraction_results c rs')
                             Api.EVALUATING]> claims_storage, None))
  /\ (claims_storage !! claim_id = None ->
      Api._perform_classification fs fresh claim_id claims_storage
      = (claims_storage, Some KeyError)
      /\ Api._perform_extraction fs fresh claim_id claims_storage
         = (claims_storage, Some KeyError)).
Proof.
  split.
  - intros c Hc.
    destruct (perform_classification_found fs fresh claim_id _ c Hc) as [rs [Hrs ->]].
    destruct (perform_extraction_found fs fresh claim_id _ c Hc) as [rs' [Hrs' ->]].
    exists rs, rs'. rewrite classify_claim_documents_spec in Hrs.
    rewrite extract_claim_information_spec in Hrs'.
    apply Ok_inj in Hrs, Hrs'. subst rs rs'. repeat split.
  - intros Hc. split.
    + apply (run_task_missing fs fresh (Api.PerformClassification claim_id)), Hc.
    + apply (run_task_missing fs fresh (Api.PerformExtraction claim_id)), Hc.
Qed.

Lemma background_tasks_never_reject_witness :
  Api._perform_classification (fun _ => Raise KeyError) (fun _ => py "u") (py "c1")
    (∅ : gmap pystr Api.ClaimModel)
  = (∅, Some KeyError).
Proof.
  apply (proj1 (proj2 (background_tasks_never_reject (fun _ => Raise KeyError)
                         (fun _ => py "u") (py "c1") ∅) (lookup_empty _))).
Defined.

(** X19. Whatever calls an application has served since its start,
    every stored claim is filed under its own id, is never rejected,
    keeps the creation and update times of the model defaults, has no
    policy holder, insured person, incident date or claim amount, holds
    document paths under its own upload directory, has an evaluation when
    it is completed, and that evaluation is "not covered, payout 0". *)
Theorem stored_claims_are_well_formed (created_default updated_default : datetime)
    (calls : list Api.request) (k : pystr) (c : Api.ClaimModel) :
  Api.run created_default updated_default calls !! k = Some c ->
  ApiSpec.claim_invariant created_default updated_default k c.
Proof. apply run_invariant. Qed.

Lemma stored_claims_are_well_formed_witness :
  exists c,
    Api.run (noon 2026 1 1) (noon 2026 1 2)
      [Api.Upload (py "c1") [py "a.pdf"]; Api.Classify (py "c1");
       Api.Background (fun _ => Raise KeyError) (fun _ => py "u")
         (Api.PerformClassification (py "c1"));
       Api.Evaluate (noon 2026 11 3) (py "c1") None] !! py "c1" = Some c
    /\ Api.status c <> Api.REJECTED.
Proof.
  eexists. split; [vm_compute; reflexivity|].
  refine (ApiSpec.inv_status _ _ _ _
            (stored_claims_are_well_formed (noon 2026 1 1) (noon 2026 1 2)
               [Api.Upload (py "c1") [py "a.pdf"]; Api.Classify (py "c1");
                Api.Background (fun _ => Raise KeyError) (fun _ => py "u")
                  (Api.PerformClassification (py "c1"));
                Api.Evaluate (noon 2026 11 3) (py "c1") None] (py "c1") _ _)).
  vm_compute. reflexivity.
Defined.

(** ** The matcher against the language of a pattern *)

Section RegexSoundness.

Import RegexSpec.

Lemma in_range_spec (lo hi c : N) : in_range lo hi c = true <-> lo <= c /\ c <= hi.
Proof. unfold in_range. now rewrite andb_true_iff, !N.leb_le. Qed.

Lemma cased_spec (c : N) :
  in_ranges cased_ranges c = true
  <-> (65 <= c /\ c <= 90) \/ (97 <= c /\ c <= 122) \/ (192 <= c /\ c <= 254)
      \/ (913 <= c /\ c <= 971) \/ (1024 <= c /\ c <= 1119)
      \/ (65313 <= c /\ c <= 65338) \/ (65345 <= c /\ c <= 65370).
Proof.
  unfold in_ranges, cased_ranges. cbn [existsb fst snd].
  rewrite !orb_true_iff, !in_range_spec. intuition discriminate.
Qed.

Lemma lower_cp_cases (c : N) :
  lower_cp c = c
  \/ (in_ranges cased_ranges c = true /\ in_ranges cased_ranges (lower_cp c) = true).
Proof.
  unfold lower_cp.
  destruct (in_range 65 90 c) eqn:E1;
    [apply in_range_spec in E1; right; rewrite !cased_spec; lia|].
  destruct (in_range 192 222 c && negb (c =? 215)) eqn:E2;
    [apply andb_true_iff in E2 as [E2 _]; apply in_range_spec in E2; right;
     rewrite !cased_spec; lia|].
  destruct (in_range 913 939 c && negb (c =? 930)) eqn:E3;
    [apply andb_true_iff in E3 as [E3 _]; apply in_range_spec in E3; right;
     rewrite !cased_spec; lia|].
  destruct (in_range 1040 1071 c) eqn:E4;
    [apply in_range_spec in E4; right; rewrite !cased_spec; lia|].
  destruct (in_range 1024 1039 c) eqn:E5;
    [apply in_range_spec in E5; right; rewrite !cased_spec; lia|].
  destruct (in_range 65313 65338 c) eqn:E6;
    [apply in_range_spec in E6; right; rewrite !cased_spec; lia|].
  now left.
Qed.

Lemma upper_cp_cases (c : N) :
  upper_cp c = c
  \/ (in_ranges cased_ranges c = true /\ in_ranges cased_ranges (upper_cp c) = true).
Proof.
  unfold upper_cp.
  destruct (in_range 97 122 c) eqn:E1;
    [apply in_range_spec in E1; right; rewrite !cased_spec; lia|].
  destruct (in_range 224 254 c && negb (c =? 247)) eqn:E2;
    [apply andb_true_iff in E2 as [E2 _]; apply in_range_spec in E2; right;
     rewrite !cased_spec; lia|].
  destruct (in_range 945 971 c && negb (c =? 962)) eqn:E3;
    [apply andb_true_iff in E3 as [E3 _]; apply in_range_spec in E3; right;
     rewrite !cased_spec; lia|].
  destruct (in_range 1072 1103 c) eqn:E4;
    [apply in_range_spec in E4; right; rewrite !cased_spec; lia|].
  destruct (in_range 1104 1119 c) eqn:E5;
    [apply in_range_spec in E5; right; rewrite !cased_spec; lia|].
  destruct (in_range 65345 65370 c) eqn:E6;
    [apply in_range_spec in E6; right; rewrite !cased_spec; lia|].
  now left.
Qed.

Lemma caseless_lower (x c : N) : caseless x = true -> lower_cp c = x -> c = x.
Proof.
  unfold caseless. intros Hx <-. destruct (lower_cp_cases c) as [->|[_ H]];
    [reflexivity|]. now rewrite H in Hx.
Qed.

Lemma caseless_upper (x c : N) : caseless x = true -> upper_cp c = x -> c = x.
Proof.
  unfold caseless. intros Hx <-. destruct (upper_cp_cases c) as [->|[_ H]];
    [reflexivity|]. now rewrite H in Hx.
Qed.

Lemma caseless_chr (ic : bool) (x c : N) :
  caseless x = true -> Re.chr_match ic x c = true -> c = x.
Proof.
  intros Hx. unfold Re.chr_match. rewrite orb_true_iff, andb_true_iff, !N.eqb_eq.
  intros [H|[_ H]]; [exact H|]. apply (caseless_lower x c Hx).
  rewrite H. destruct (lower_cp_cases x) as [E|[E _]]; [exact E|].
  unfold caseless in Hx. now rewrite E in Hx.
Qed.

Lemma literal_set_exists (items : list Re.citem) (l : list N) (c : N) :
  literal_set items = Some l ->
  existsb (Re.citem_match c) items = true -> In c l /\ caseless c = true.
Proof.
  revert l. induction items as [|it items IH]; intros l; cbn [literal_set existsb];
    [discriminate|].
  destruct it as [x| | | |]; try discriminate.
  destruct (caseless x) eqn:Hx; [|discriminate].
  destruct (literal_set items) as [l'|]; [|discriminate].
  intros [= <-]. rewrite orb_true_iff. cbn [Re.citem_match]. rewrite N.eqb_eq.
  intros [->|H]; [split; [now left | exact Hx]|].
  destruct (IH l' eq_refl H) as [Hin Hc]. split; [now right | exact Hc].
Qed.

Lemma literal_set_match (ic : bool) (items : list Re.citem) (l : list N) (c : N) :
  literal_set items = Some l -> Re.set_match ic false items c = true -> In c l.
Proof.
  intros Hl. unfold Re.set_match. cbn [xorb].
  rewrite !orb_true_iff, andb_true_iff, orb_true_iff.
  intros [H|[_ [H|H]]]; destruct (literal_set_exists _ _ _ Hl H) as [Hin Hc].
  - exact Hin.
  - now rewrite <- (caseless_lower _ c Hc eq_refl) in Hin.
  - now rewrite <- (caseless_upper _ c Hc eq_refl) in Hin.
Qed.

(** Every word of a pattern begins with one of its heads. *)
Lemma heads_sound (ic : bool) (r : Re.regex) :
  forall w, lang ic r w ->
    exists h, In h (fst (heads r))
              /\ if snd (heads r) then w = h else exists t, w = h ++ t.
Proof.
  induction r as [|x|negated items|a IHa b IHb|a IHa b IHb|lo hi a IHa|i a IHa];
    intros w; cbn [lang heads].
  - intros ->. exists []. split; [now left | reflexivity].
  - intros [c [-> Hc]]. destruct (caseless x) eqn:Hx; cbn [fst snd].
    + exists [x]. split; [now left|]. now rewrite (caseless_chr ic x c Hx Hc).
    + exists []. split; [now left | now exists [c]].
  - intros [c [-> Hc]]. destruct negated.
    + exists []. split; [now left | now exists [c]].
    + destruct (literal_set items) as [l|] eqn:Hl; cbn [fst snd].
      * exists [c]. split; [|reflexivity].
        apply in_map_iff. exists c. split; [reflexivity|].
        apply (literal_set_match ic items l c Hl Hc).
      * exists []. split; [now left | now exists [c]].
  - intros [u [v [-> [Hu Hv]]]].
    destruct (IHa u Hu) as [h1 [Hin1 Hh1]]. destruct (IHb v Hv) as [h2 [Hin2 Hh2]].
    destruct (heads a) as [la exact_a], (heads b) as [lb exact_b]. cbn [fst snd] in *.
    destruct exact_a; cbn [fst snd].
    + subst u. exists (h1 ++ h2). split.
      * apply in_flat_map. exists h1. split; [exact Hin1|].
        apply in_map_iff. now exists h2.
      * destruct exact_b; [now subst v|].
        destruct Hh2 as [t ->]. exists t. now rewrite app_assoc.
    + destruct Hh1 as [t ->]. exists h1. split; [exact Hin1|].
      exists (t ++ v). now rewrite app_assoc.
  - destruct (heads a) as [la exact_a], (heads b) as [lb exact_b]. cbn [fst snd] in *.
    intros [H|H].
    + destruct (IHa w H) as [h [Hin Hh]]. exists h. split; [apply in_or_app; now left|].
      destruct exact_a; cbn [andb].
      * subst w. destruct exact_b; [reflexivity | exists []; now rewrite app_nil_r].
      * exact Hh.
    + destruct (IHb w H) as [h [Hin Hh]]. exists h. split; [apply in_or_app; now right|].
      destruct exact_b.
      * subst w. destruct exact_a; [reflexivity | exists []; now rewrite app_nil_r].
      * now rewrite andb_false_r.
  - intros _. exists []. split; [now left | now exists w].
  - apply IHa.
Qed.

Lemma part_of_refl (s : pystr) : part_of s s.
Proof. exists [], []. now rewrite app_nil_r. Qed.

Lemma part_of_nil (s : pystr) : part_of [] s.
Proof. now exists [], s. Qed.

Lemma part_of_trans (a b c : pystr) : part_of a b -> part_of b c -> part_of a c.
Proof.
  intros [p1 [q1 ->]] [p2 [q2 ->]]. exists (p2 ++ p1), (q1 ++ q2).
  now rewrite <- !app_assoc.
Qed.

Lemma part_of_app_l (a b : pystr) : part_of a (a ++ b).
Proof. now exists [], b. Qed.

Lemma part_of_app_r (a b : pystr) : part_of b (a ++ b).
Proof. exists a, []. now rewrite app_nil_r. Qed.

Lemma rep_loop_sound {A} (L : pystr -> Prop) (body : Re.matcher A) (lo : nat)
    (hi : option nat) (k : pystr -> Re.caps -> option A) :
  sound_matcher L body ->
  forall fuel n last s cs x,
    Re.rep_loop body lo hi k fuel n last s cs = Some x ->
    exists m w s' cs',
      s = w ++ s' /\ power L m w /\ (lo <= n + m)%nat /\ k s' cs' = Some x
      /\ forall top, part_of s top ->
           Forall (fun c => part_of (snd c) top) cs ->
           Forall (fun c => part_of (snd c) top) cs'.
Proof.
  intros Hbody. induction fuel as [|fuel IH]; intros n last s cs x; cbn [Re.rep_loop];
    [discriminate|].
  assert (Hiter : forall last',
             body s cs (fun s' cs' => Re.rep_loop body lo hi k fuel (S n) last' s' cs')
             = Some x ->
             exists m w s' cs',
               s = w ++ s' /\ power L m w /\ (lo <= n + m)%nat /\ k s' cs' = Some x
               /\ forall top, part_of s top ->
                    Forall (fun c => part_of (snd c) top) cs ->
                    Forall (fun c => part_of (snd c) top) cs').
  { intros last' H. apply Hbody in H as [w1 [s1 [cs1 [-> [Hw1 [H Hcs1]]]]]].
    apply IH in H as [m [w2 [s2 [cs2 [-> [Hw2 [Hlo [Hk Hcs2]]]]]]]].
    exists (S m), (w1 ++ w2), s2, cs2. split; [now rewrite app_assoc|].
    split; [now exists w1, w2|]. split; [lia|]. split; [exact Hk|].
    intros top Htop Hcs. apply Hcs2.
    - apply part_of_trans with (w1 ++ w2 ++ s2); [apply part_of_app_r | exact Htop].
    - now apply Hcs1. }
  destruct (n <? lo)%nat eqn:Hn; [apply Hiter|].
  apply Nat.ltb_ge in Hn.
  destruct (Re.under hi n && negb (bool_decide (last = Some (length s)))).
  - destruct (body s cs _) as [y|] eqn:Hy.
    + intros [= <-]. now apply Hiter in Hy.
    + intros Hk. exists O, [], s, cs. repeat split; [lia | exact Hk | tauto].
  - intros Hk. exists O, [], s, cs. repeat split; [lia | exact Hk | tauto].
Qed.

(** The matcher is sound for the language of the pattern. *)
Lemma rmatch_sound {A} (ic : bool) (r : Re.regex) :
  sound_matcher (A := A) (lang ic r) (Re.rmatch ic r).
Proof.
  induction r as [|x|negated items|a IHa b IHb|a IHa b IHb|lo hi a IHa|i a IHa];
    intros s cs k y; cbn [Re.rmatch lang].
  - intros Hk. exists [], s, cs. repeat split; [exact Hk | tauto].
  - destruct s as [|c s]; [discriminate|].
    destruct (Re.chr_match ic x c) eqn:Hc; [|discriminate].
    intros Hk. exists [c], s, cs. split; [reflexivity|]. split; [now exists c|].
    split; [exact Hk | tauto].
  - destruct s as [|c s]; [discriminate|].
    destruct (Re.set_match ic negated items c) eqn:Hc; [|discriminate].
    intros Hk. exists [c], s, cs. split; [reflexivity|]. split; [now exists c|].
    split; [exact Hk | tauto].
  - intros H. apply IHa in H as [u [s1 [cs1 [-> [Hu [H Hcs1]]]]]].
    apply IHb in H as [v [s2 [cs2 [-> [Hv [Hk Hcs2]]]]]].
    exists (u ++ v), s2, cs2. split; [now rewrite app_assoc|].
    split; [now exists u, v|]. split; [exact Hk|].
    intros top Htop Hcs. apply Hcs2.
    + apply part_of_trans with (u ++ v ++ s2); [apply part_of_app_r | exact Htop].
    + now apply Hcs1.
  - destruct (Re.rmatch ic a s cs k) as [z|] eqn:Ha.
    + intros [= <-]. apply IHa in Ha as [w [s' [cs' [-> [Hw [Hk Hcs]]]]]].
      exists w, s', cs'. split; [reflexivity|]. split; [now left|]. now split.
    + intros Hb. apply IHb in Hb as [w [s' [cs' [-> [Hw [Hk Hcs]]]]]].
      exists w, s', cs'. split; [reflexivity|]. split; [now right|]. now split.
  - intros H.
    apply (rep_loop_sound (lang ic a) _ lo hi k IHa) in H
      as [m [w [s' [cs' [-> [Hw [Hlo [Hk Hcs]]]]]]]].
    exists w, s', cs'. split; [reflexivity|]. split; [exists m; split; [lia | exact Hw]|].
    now split.
  - intros H. apply IHa in H as [w [s' [cs' [-> [Hw [Hk Hcs]]]]]].
    exists w, s', ((i, Re.consumed (w ++ s') s') :: cs'). split; [reflexivity|].
    split; [exact Hw|]. split; [exact Hk|].
    intros top Htop Hcs0. constructor; [|now apply Hcs].
    cbn [snd]. rewrite consumed_app.
    apply part_of_trans with (w ++ s'); [apply part_of_app_l | exact Htop].
Qed.

Lemma match_here_sound (ic : bool) (r : Re.regex) (must_advance : bool) (s : pystr)
    (m : Re.rematch) (rest : pystr) :
  Re.match_here ic r must_advance s = Some (m, rest) ->
  s = Re.m_text m ++ rest
  /\ lang ic r (Re.m_text m)
  /\ Forall (fun c => part_of (snd c) s) (Re.m_caps m).
Proof.
  unfold Re.match_here. intros H.
  apply rmatch_sound in H as [w [s' [cs' [-> [Hw [Hk Hcs]]]]]].
  destruct (must_advance && _); [discriminate|]. injection Hk as <- <-.
  cbn [Re.m_text Re.m_caps]. rewrite consumed_app.
  split; [reflexivity|]. split; [exact Hw|].
  apply Hcs; [apply part_of_refl | constructor].
Qed.

Lemma search_sound (ic : bool) (r : Re.regex) (s : pystr) (m : Re.rematch) :
  Re.search ic r s = Some m ->
  part_of (Re.m_text m) s
  /\ lang ic r (Re.m_text m)
  /\ Forall (fun c => part_of (snd c) s) (Re.m_caps m).
Proof.
  induction s as [|c s IH]; cbn [Re.search].
  - destruct (Re.match_here ic r false []) as [[m' rest]|] eqn:H; [|discriminate].
    intros [= ->]. apply match_here_sound in H as [Hs [Hw Hcs]].
    split; [exists [], rest; exact Hs | now split].
  - destruct (Re.match_here ic r false (c :: s)) as [[m' rest]|] eqn:H.
    + intros [= ->]. apply match_here_sound in H as [Hs [Hw Hcs]].
      split; [exists [], rest; exact Hs | now split].
    + intros H'. destruct (IH H') as [Hp [Hw Hcs]].
      assert (Hstep : part_of s (c :: s)) by (exists [c], []; now rewrite app_nil_r).
      split; [now apply part_of_trans with s|]. split; [exact Hw|].
      eapply List.Forall_impl; [|exact Hcs]. intros x Hx. now apply part_of_trans with s.
Qed.

Lemma group_part_of (cs : Re.caps) (i : nat) (s : pystr) :
  Forall (fun c => part_of (snd c) s) cs -> part_of (Re.group cs i) s.
Proof.
  induction 1 as [|[j t] cs Ht _ IH]; cbn [Re.group]; [apply part_of_nil|].
  destruct (i =? j)%nat; [exact Ht | exact IH].
Qed.

Lemma lstrip_part_of (s : pystr) : part_of (lstrip s) s.
Proof. destruct (lstrip_suffix s) as [pre H]. rewrite H at 2. apply part_of_app_r. Qed.

Lemma rstrip_part_of (s : pystr) : part_of (rstrip s) s.
Proof.
  unfold rstrip. destruct (lstrip_suffix (rev s)) as [pre H].
  apply (f_equal (@rev N)) in H. rewrite rev_involutive, rev_app_distr in H.
  rewrite H at 2. apply part_of_app_l.
Qed.

Lemma strip_part_of (s : pystr) : part_of (strip s) s.
Proof.
  unfold strip. apply part_of_trans with (rstrip s);
    [apply lstrip_part_of | apply rstrip_part_of].
Qed.

Lemma field_of_first_match_sound (content : pystr) (d : FieldDef) (f : ExtractedField) :
  In f (ExtractorSpec.field_of_first_match content d) ->
  field_name f = name d
  /\ part_of (field_value f) content
  /\ exists h, In h (heads_of d) /\ part_of h content.
Proof.
  unfold ExtractorSpec.field_of_first_match, heads_of.
  destruct (Re.compile (pattern d)) as [[r g]|]; [|intros H; destruct H].
  destruct (Re.search true r content) as [m|] eqn:Hm; [|intros H; destruct H].
  intros [<-|H]; [|destruct H]. cbn [field_name field_value].
  apply search_sound in Hm as [Hp [Hw Hcs]].
  split; [reflexivity|]. split.
  - apply part_of_trans with (ExtractorSpec.selected_text g m); [apply strip_part_of|].
    unfold ExtractorSpec.selected_text. destruct g; [exact Hp|].
    now apply group_part_of.
  - destruct (heads_sound true r _ Hw) as [h [Hin Hh]]. exists h. split; [exact Hin|].
    apply part_of_trans with (Re.m_text m); [|exact Hp].
    destruct (snd (heads r)); [subst h; apply part_of_refl|].
    destruct Hh as [t ->]. apply part_of_app_l.
Qed.

Lemma ends_with_colon (h : pystr) :
  match rev h with
  | c :: _ :: _ => (c =? 65306) || (c =? 58)
  | _ => false
  end = true ->
  exists label, label <> [] /\ (h = label ++ [65306] \/ h = label ++ [58]).
Proof.
  destruct (rev h) as [|c [|b l]] eqn:E; try discriminate.
  apply (f_equal (@rev N)) in E. rewrite rev_involutive in E. cbn [rev] in E.
  rewrite orb_true_iff, !N.eqb_eq. intros Hc.
  exists (rev l ++ [b]). split; [now destruct (rev l)|].
  destruct Hc as [-> | ->]; [left | right]; exact E.
Qed.

Lemma configured_heads (t : DocumentType) :
  forallb (fun d =>
             match heads_of d with [] => false | _ :: _ => true end
             && forallb (fun h => match rev h with
                                  | c :: _ :: _ => (c =? 65306) || (c =? 58)
                                  | _ => false
                                  end) (heads_of d))
    (ExtractorSpec.definitions_of t) = true.
Proof. destruct t; vm_compute; reflexivity. Qed.

Lemma match_here_cannot_begin (d : FieldDef) (r : Re.regex) (g : nat)
    (must_advance : bool) (c : N) (s : pystr) :
  Re.compile (pattern d) = Some (r, g) -> cannot_begin d c = true ->
  Re.match_here true r must_advance (c :: s) = None.
Proof.
  intros Hc Hb. destruct (Re.match_here true r must_advance (c :: s)) as [[m rest]|] eqn:H;
    [|reflexivity].
  exfalso. apply match_here_sound in H as [Hs [Hw _]].
  destruct (heads_sound true r _ Hw) as [h [Hin Hh]].
  unfold cannot_begin, heads_of in Hb. rewrite Hc in Hb. cbn [fst] in Hb.
  rewrite forallb_forall in Hb. specialize (Hb h Hin).
  destruct h as [|x h]; [discriminate|].
  apply negb_true_iff, N.eqb_neq in Hb. apply Hb.
  destruct (snd (heads r)).
  - rewrite Hh in Hs. cbn [app] in Hs. now injection Hs.
  - destruct Hh as [t Ht]. rewrite Ht in Hs. cbn [app] in Hs. now injection Hs.
Qed.

Lemma field_of_first_match_skip (d : FieldDef) (pre rest : pystr) :
  forallb (cannot_begin d) pre = true ->
  ExtractorSpec.field_of_first_match (pre ++ rest) d
  = ExtractorSpec.field_of_first_match rest d.
Proof.
  intros Hpre. unfold ExtractorSpec.field_of_first_match.
  destruct (Re.compile (pattern d)) as [[r g]|] eqn:Hc; [|reflexivity].
  replace (Re.search true r (pre ++ rest)) with (Re.search true r rest); [reflexivity|].
  induction pre as [|c pre IH]; [reflexivity|].
  cbn [forallb] in Hpre. apply andb_true_iff in Hpre as [Hb Hpre].
  cbn [app Re.search]. rewrite (match_here_cannot_begin d r g false c _ Hc Hb).
  now apply IH.
Qed.

Lemma flat_map_skip (defs : list FieldDef) (pre rest : pystr) :
  forallb (fun d => forallb (cannot_begin d) pre) defs = true ->
  flat_map (ExtractorSpec.field_of_first_match (pre ++ rest)) defs
  = flat_map (ExtractorSpec.field_of_first_match rest) defs.
Proof.
  induction defs as [|d defs IH]; [reflexivity|]. cbn [forallb flat_map].
  intros H. apply andb_true_iff in H as [Hd H].
  now rewrite field_of_first_match_skip, IH.
Qed.

(** No label begins with an ASCII character, nor with a character of
    the first line of the placeholder text. *)
Lemma labels_are_not_ascii (t : DocumentType) :
  forallb (fun d =>
             forallb (fun h => match h with x :: _ => 128 <=? x | [] => false end)
               (heads_of d)
             && forallb (cannot_begin d) (py "模拟文档内容来自: "))
    (ExtractorSpec.definitions_of t) = true.
Proof. destruct t; vm_compute; reflexivity. Qed.

Lemma placeholder_skip (t : DocumentType) (path rest : pystr) :
  Forall (fun c => c < 128) path ->
  flat_map (ExtractorSpec.field_of_first_match
              ((py "模拟文档内容来自: " ++ path) ++ rest))
    (ExtractorSpec.definitions_of t)
  = flat_map (ExtractorSpec.field_of_first_match rest) (ExtractorSpec.definitions_of t).
Proof.
  intros Hascii. apply flat_map_skip.
  pose proof (labels_are_not_ascii t) as H. rewrite forallb_forall in H.
  apply forallb_forall. intros d Hd. specialize (H d Hd).
  apply andb_true_iff in H as [Hheads Hfixed].
  rewrite forallb_app, Hfixed. cbn [andb].
  apply forallb_forall. intros c Hc. rewrite List.Forall_forall in Hascii.
  specialize (Hascii c Hc). unfold cannot_begin.
  rewrite forallb_forall in Hheads. apply forallb_forall. intros h Hh.
  specialize (Hheads h Hh). destruct h as [|x h]; [discriminate|].
  apply N.leb_le in Hheads. apply negb_true_iff, N.eqb_neq. lia.
Qed.

End RegexSoundness.

(** X20. The extractor invents no text: the value of every extracted
    field is a contiguous part of the text of the document. *)
Theorem extracted_values_are_parts_of_the_text (content : pystr) (t : DocumentType) :
  exists fields,
    _extract_fields_by_type content t = Ok fields
    /\ Forall (fun f => RegexSpec.part_of (field_value f) content) fields.
Proof.
  eexists. split; [apply extract_fields_spec|].
  apply List.Forall_forall. intros f Hf. apply in_flat_map in Hf as [d [_ Hf]].
  now apply field_of_first_match_sound in Hf.
Qed.

(** X21. A field is extracted only from a text that holds one of the
    labels of its pattern immediately followed by a colon, full-width or
    ASCII: every configured pattern begins with such a label and colon.
    In particular a text without any colon yields no field. *)
Theorem fields_need_their_label (content : pystr) (t : DocumentType) :
  exists fields,
    _extract_fields_by_type content t = Ok fields
    /\ Forall (fun f => exists d h,
                 In d (ExtractorSpec.definitions_of t) /\ field_name f = name d
                 /\ In h (RegexSpec.heads_of d) /\ RegexSpec.part_of h content) fields
    /\ Forall (fun d =>
                 RegexSpec.heads_of d <> []
                 /\ Forall (fun h => exists label,
                              label <> []
                              /\ (h = label ++ [65306] \/ h = label ++ [58]))
                      (RegexSpec.heads_of d))
         (ExtractorSpec.definitions_of t)
    /\ ((forall c, In c content -> c <> 58 /\ c <> 65306) -> fields = []).
Proof.
  eexists. split; [apply extract_fields_spec|].
  assert (Hfields : Forall (fun f => exists d h,
                      In d (ExtractorSpec.definitions_of t) /\ field_name f = name d
                      /\ In h (RegexSpec.heads_of d) /\ RegexSpec.part_of h content)
                      (flat_map (ExtractorSpec.field_of_first_match content)
                         (ExtractorSpec.definitions_of t))).
  { apply List.Forall_forall. intros f Hf. apply in_flat_map in Hf as [d [Hd Hf]].
    apply field_of_first_match_sound in Hf as [Hn [_ [h [Hh Hp]]]]. now exists d, h. }
  assert (Hheads : Forall (fun d =>
                      RegexSpec.heads_of d <> []
                      /\ Forall (fun h => exists label,
                                   label <> []
                                   /\ (h = label ++ [65306] \/ h = label ++ [58]))
                           (RegexSpec.heads_of d))
                     (ExtractorSpec.definitions_of t)).
  { apply List.Forall_forall. intros d Hd.
    pose proof (configured_heads t) as H. rewrite forallb_forall in H.
    specialize (H d Hd). apply andb_true_iff in H as [Hne Hall]. split.
    - now destruct (RegexSpec.heads_of d).
    - apply List.Forall_forall. intros h Hh. rewrite forallb_forall in Hall.
      now apply ends_with_colon, Hall. }
  split; [exact Hfields|]. split; [exact Hheads|].
  intros Hno. destruct (flat_map _ _) as [|f fields]; [reflexivity|]. exfalso.
  apply Forall_inv in Hfields as [d [h [Hd [_ [Hh [pre [post Hp]]]]]]].
  rewrite List.Forall_forall in Hheads. destruct (Hheads d Hd) as [_ Hall].
  rewrite List.Forall_forall in Hall. destruct (Hall h Hh) as [label [_ Hcolon]].
  assert (Hin : forall c, h = label ++ [c] -> In c content).
  { intros c ->. rewrite Hp. apply in_or_app. right. apply in_or_app. left.
    apply in_or_app. right. now left. }
  destruct Hcolon as [E|E]; destruct (Hno _ (Hin _ E)) as [H1 H2]; congruence.
Qed.

Section PlaceholderExtraction.

(** The extraction of the placeholder text, for an ASCII claim id. *)
Lemma extract_claim_information_ascii (fs : Documents.filesystem) (fresh : Documents.uuids)
    (claim_id : pystr) :
  Forall (fun c => c < 128) claim_id ->
  exists r1 r2 r3,
    Documents.Extractor.extract_claim_information fs fresh claim_id = Ok [r1; r2; r3]
    /\ List.map er_document_id [r1; r2; r3] = [fresh 0%nat; fresh 1%nat; fresh 2%nat]
    /\ extracted_fields r1
       = [field "patient_name" "张三"; field "diagnosis" "急性阑尾炎";
          field "admission_date" "2023年10月5日"; field "discharge_date" "2023年10月10日";
          field "hospital_name" "XX市人民医院"; field "doctor_name" "李医生"]
    /\ extracted_fields r2
       = [field "invoice_number" "12345678"; field "invoice_amount" "¥5000.00";
          field "invoice_date" "2023年10月5日"]
    /\ extracted_fields r3 = [].
Proof.
  intros Hascii. rewrite extract_claim_information_spec.
  unfold Documents.Extractor._get_claim_documents_with_types. cbn [combine List.map].
  eexists _, _, _. split; [reflexivity|]. split; [reflexivity|].
  cbn [extracted_fields extraction_accuracy]. unfold simulated_content.
  assert (Hskip : forall t name rest,
             Forall (fun c => c < 128) name ->
             flat_map (ExtractorSpec.field_of_first_match
                         (py "模拟文档内容来自: "
                          ++ (py "/tmp/claims/" ++ claim_id ++ name) ++ rest))
               (ExtractorSpec.definitions_of t)
             = flat_map (ExtractorSpec.field_of_first_match rest)
                 (ExtractorSpec.definitions_of t)).
  { intros t name rest Hname. rewrite app_assoc. apply placeholder_skip.
    apply Forall_app. split; [repeat constructor|].
    apply Forall_app. split; [exact Hascii | exact Hname]. }
  rewrite (Hskip MEDICAL_RECORD (py "/medical_record.pdf")),
          (Hskip INVOICE (py "/invoice.pdf")),
          (Hskip INSURANCE_CONTRACT (py "/contract.pdf")) by (repeat constructor).
  split; [vm_compute; reflexivity|]. split; vm_compute; reflexivity.
Qed.

End PlaceholderExtraction.

(** X22. The extraction stored for a claim is fixed by the placeholder
    text, for every claim id made of ASCII characters (as every uuid is):
    the medical record yields its six fields, the invoice yields number,
    amount and a date that is the admission date (the label of the date
    pattern occurs inside the admission label first), the contract
    yields nothing; the accuracies of these fields, computed in binary64,
    are 0.9299999999999999, 0.81 and 0.0. *)
Theorem extraction_of_a_claim (fs : Documents.filesystem) (fresh : Documents.uuids)
    (claim_id : pystr) :
  Forall (fun c => c < 128) claim_id ->
  exists r1 r2 r3,
    Documents.Extractor.extract_claim_information fs fresh claim_id = Ok [r1; r2; r3]
    /\ List.map er_document_id [r1; r2; r3] = [fresh 0%nat; fresh 1%nat; fresh 2%nat]
    /\ extracted_fields r1
       = [field "patient_name" "张三"; field "diagnosis" "急性阑尾炎";
          field "admission_date" "2023年10月5日"; field "discharge_date" "2023年10月10日";
          field "hospital_name" "XX市人民医院"; field "doctor_name" "李医生"]
    /\ extracted_fields r2
       = [field "invoice_number" "12345678"; field "invoice_amount" "¥5000.00";
          field "invoice_date" "2023年10月5日"]
    /\ extracted_fields r3 = []
    /\ Binary64.KeywordExtractor._calculate_extraction_accuracy (extracted_fields r1)
       = Ok (Binary64.of_Q (9299999999999999 # 10000000000000000))
    /\ Binary64.KeywordExtractor._calculate_extraction_accuracy (extracted_fields r2)
       = Ok (Binary64.of_Q (81 # 100))
    /\ Binary64.KeywordExtractor._calculate_extraction_accuracy (extracted_fields r3)
       = Ok (S754_zero false).
Proof.
  intros Hascii.
  destruct (extract_claim_information_ascii fs fresh claim_id Hascii)
    as [r1 [r2 [r3 [H [Hid [H1 [H2 H3]]]]]]].
  exists r1, r2, r3.
  split; [exact H|]. split; [exact Hid|]. split; [exact H1|]. split; [exact H2|].
  split; [exact H3|]. rewrite H1, H2, H3.
  split; [vm_compute; reflexivity|]. split; vm_compute; reflexivity.
Qed.

Lemma extraction_of_a_claim_witness :
  exists r1 r2 r3,
    Documents.Extractor.extract_claim_information (fun _ => Raise KeyError)
      (fun _ => py "u") (py "3f2c-77") = Ok [r1; r2; r3]
    /\ extracted_fields r3 = [].
Proof.
  destruct (extraction_of_a_claim (fun _ => Raise KeyError) (fun _ => py "u")
              (py "3f2c-77") ltac:(repeat constructor))
    as [r1 [r2 [r3 [H [_ [_ [_ [H3 _]]]]]]]].
  exists r1, r2, r3. split; [exact H | exact H3].
Defined.

(** ** The whole pipeline *)

Section Pipeline.

Import Documents Api.

Variables created_default updated_default : datetime.

Lemma classify_step (claim_id : pystr) (claims_storage : gmap pystr ClaimModel)
    (c : ClaimModel) :
  claims_storage !! claim_id = Some c ->
  handle created_default updated_default (Classify claim_id) claims_storage
  = <[claim_id := set_status c CLASSIFYING]> claims_storage.
Proof. intros Hc. cbn [handle]. unfold classify_documents. now rewrite Hc. Qed.

Lemma extract_step (claim_id : pystr) (claims_storage : gmap pystr ClaimModel)
    (c : ClaimModel) :
  claims_storage !! claim_id = Some c ->
  handle created_default updated_default (Extract claim_id) claims_storage
  = <[claim_id := set_status c EXTRACTING]> claims_storage.
Proof. intros Hc. cbn [handle]. unfold extract_information. now rewrite Hc. Qed.

Lemma evaluate_step (now : datetime) (claim_id : pystr) (contract_terms : option pystr)
    (claims_storage : gmap pystr ClaimModel) (c : ClaimModel) :
  claims_storage !! claim_id = Some c ->
  exists ev,
    evaluate_claim now claim_id contract_terms = Ok ev
    /\ handle created_default updated_default (Evaluate now claim_id contract_terms)
         claims_storage
       = <[claim_id := set_status (set_liability_evaluation (set_status c EVALUATING) ev)
                         COMPLETED]> claims_storage.
Proof.
  intros Hc. eexists. split; [apply evaluate_claim_spec|].
  cbn [handle]. unfold evaluate_liability. rewrite Hc, evaluate_claim_spec. cbn [fst].
  apply insert_insert_eq.
Qed.

Lemma classification_step (fs : filesystem) (fresh : uuids) (claim_id : pystr)
    (claims_storage : gmap pystr ClaimModel) (c : ClaimModel) :
  claims_storage !! claim_id = Some c ->
  exists rs,
    handle created_default updated_default
      (Background fs fresh (PerformClassification claim_id)) claims_storage
    = <[claim_id := set_status (set_classification_results c rs) EXTRACTING]>
        claims_storage.
Proof.
  intros Hc. destruct (perform_classification_found fs fresh claim_id _ c Hc)
    as [rs [_ H]].
  exists rs. cbn [handle run_task]. now rewrite H.
Qed.

Lemma extraction_step (fs : filesystem) (fresh : uuids) (claim_id : pystr)
    (claims_storage : gmap pystr ClaimModel) (c : ClaimModel) :
  claims_storage !! claim_id = Some c ->
  exists rs,
    Extractor.extract_claim_information fs fresh claim_id = Ok rs
    /\ handle created_default updated_default
         (Background fs fresh (PerformExtraction claim_id)) claims_storage
       = <[claim_id := set_status (set_extraction_results c rs) EVALUATING]>
           claims_storage.
Proof.
  intros Hc. destruct (perform_extraction_found fs fresh claim_id _ c Hc)
    as [rs [Hrs H]].
  exists rs. split; [exact Hrs|]. cbn [handle run_task]. now rewrite H.
Qed.

(** The merge reads the fields of the results only. *)
Lemma merge_of_fields (a b : list ExtractionResult) :
  List.map extracted_fields a = List.map extracted_fields b ->
  _merge_extraction_results a = _merge_extraction_results b.
Proof.
  intros H. rewrite !merge_is_fold. f_equal.
  unfold EvaluatorSpec.fields_in_order. rewrite !flat_map_concat_map. now rewrite H.
Qed.

End Pipeline.

(** X23. In a full run of the pipeline (upload, classification,
    extraction, evaluation) on a claim with an ASCII id, the claim ends
    completed; the stored extraction holds the diagnosis and the invoice
    amount of the placeholder text, but the stored evaluation is the one
    of the empty mock store, "not covered, payout 0": the evaluation of
    the fields that were extracted would be "covered, payout 4500". *)
Theorem pipeline_evaluation_disregards_extraction
    (created_default updated_default now : datetime)
    (fs : Documents.filesystem) (fresh1 fresh2 : Documents.uuids)
    (claim_id : pystr) (filenames : list pystr) (contract_terms : option pystr) :
  Forall (fun c => c < 128) claim_id ->
  exists c rs ev ev',
    Api.run created_default updated_default
      [Api.Upload claim_id filenames;
       Api.Classify claim_id;
       Api.Background fs fresh1 (Api.PerformClassification claim_id);
       Api.Extract claim_id;
       Api.Background fs fresh2 (Api.PerformExtraction claim_id);
       Api.Evaluate now claim_id contract_terms] !! claim_id = Some c
    /\ Api.status c = Api.COMPLETED
    /\ length (Api.documents c) = length filenames
    /\ Api.extraction_results c = Some rs
    /\ get_value (_merge_extraction_results rs) "diagnosis" [] = py "急性阑尾炎"
    /\ get_value (_merge_extraction_results rs) "invoice_amount" (py "0") = py "¥5000.00"
    /\ Api.liability_evaluation c = Some ev
    /\ coverage_applicable ev = false
    /\ recommended_payout ev = 0%Q
    /\ evaluate now (_merge_extraction_results rs) contract_terms = Ok ev'
    /\ coverage_applicable ev' = true
    /\ (recommended_payout ev' == 4500)%Q.
Proof.
  intros Hascii. unfold Api.run. cbn [fold_left].
  set (st1 := Api.handle _ _ (Api.Upload claim_id filenames) ∅).
  assert (H1 : exists c1, st1 !! claim_id = Some c1
                          /\ length (Api.documents c1) = length filenames).
  { eexists. split; [apply lookup_insert_eq|]. cbn [Api.documents]. apply length_map. }
  destruct H1 as [c1 [H1 Hdocs]]. clearbody st1.
  rewrite (classify_step _ _ _ _ _ H1).
  match goal with
  | |- context [Api.handle _ _ (Api.Background _ _ _) (<[?k := ?c]> ?st)] =>
      destruct (classification_step created_default updated_default fs fresh1 claim_id
                  (<[k := c]> st) c (lookup_insert_eq st k c)) as [rs1 ->]
  end.
  match goal with
  | |- context [Api.handle _ _ (Api.Extract _) (<[?k := ?c]> ?st)] =>
      rewrite (extract_step created_default updated_default claim_id
                 (<[k := c]> st) c (lookup_insert_eq st k c))
  end.
  match goal with
  | |- context [Api.handle _ _ (Api.Background _ _ _) (<[?k := ?c]> ?st)] =>
      destruct (extraction_step created_default updated_default fs fresh2 claim_id
                  (<[k := c]> st) c (lookup_insert_eq st k c)) as [rs [Hrs ->]]
  end.
  match goal with
  | |- context [Api.handle _ _ (Api.Evaluate _ _ _) (<[?k := ?c]> ?st)] =>
      destruct (evaluate_step created_default updated_default now claim_id contract_terms
                  (<[k := c]> st) c (lookup_insert_eq st k c)) as [ev [Hev ->]]
  end.
  rewrite evaluate_claim_spec in Hev. apply Ok_inj in Hev.
  destruct (extract_claim_information_ascii fs fresh2 claim_id Hascii)
    as [r1 [r2 [r3 [Hrs' [_ [Hf1 [Hf2 Hf3]]]]]]].
  rewrite Hrs' in Hrs. apply Ok_inj in Hrs.
  assert (Hmerge : _merge_extraction_results rs
                   = _merge_extraction_results
                       [{| er_document_id := []; extracted_fields := extracted_fields r1;
                           extraction_accuracy := 0 |};
                        {| er_document_id := []; extracted_fields := extracted_fields r2;
                           extraction_accuracy := 0 |};
                        {| er_document_id := []; extracted_fields := extracted_fields r3;
                           extraction_accuracy := 0 |}]).
  { apply merge_of_fields. now rewrite <- Hrs. }
  rewrite Hf1, Hf2, Hf3 in Hmerge.
  eexists _, rs, ev, _. split; [apply lookup_insert_eq|].
  split; [reflexivity|]. split; [exact Hdocs|]. split; [reflexivity|].
  rewrite Hmerge. clear Hmerge.
  split; [vm_compute; reflexivity|]. split; [vm_compute; reflexivity|].
  split; [reflexivity|]. subst ev.
  split; [reflexivity|]. split; [reflexivity|].
  set (fields := _merge_extraction_results _).
  assert (Hrules : _apply_risk_rules now fields = Ok []).
  { unfold _apply_risk_rules, risk_rules. cbn [apply_rules condition].
    assert (Hg : _check_gender_age_inconsistency now fields = Ok false).
    { unfold _check_gender_age_inconsistency.
      replace (get_value fields "age" []) with ([] : pystr) by (vm_compute; reflexivity).
      replace (get_value fields "birth_date" []) with ([] : pystr)
        by (vm_compute; reflexivity).
      reflexivity. }
    rewrite Hg. cbn [bind]. vm_compute. reflexivity. }
  rewrite evaluate_spec, Hrules. cbn [bind].
  split; [reflexivity|]. cbn [coverage_applicable recommended_payout].
  split; vm_compute; reflexivity.
Qed.

Lemma pipeline_evaluation_disregards_extraction_witness :
  exists c rs ev ev',
    Api.run (noon 2026 1 1) (noon 2026 1 1)
      [Api.Upload (py "3f2c-77") [py "a.pdf"];
       Api.Classify (py "3f2c-77");
       Api.Background (fun _ => Raise KeyError) (fun _ => py "u")
         (Api.PerformClassification (py "3f2c-77"));
       Api.Extract (py "3f2c-77");
       Api.Background (fun _ => Raise KeyError) (fun _ => py "v")
         (Api.PerformExtraction (py "3f2c-77"));
       Api.Evaluate (noon 2026 11 3) (py "3f2c-77") None] !! py "3f2c-77" = Some c
    /\ Api.status c = Api.COMPLETED
    /\ length (Api.documents c) = length [py "a.pdf"]
    /\ Api.extraction_results c = Some rs
    /\ get_value (_merge_extraction_results rs) "diagnosis" [] = py "急性阑尾炎"
    /\ get_value (_merge_extraction_results rs) "invoice_amount" (py "0") = py "¥5000.00"
    /\ Api.liability_evaluation c = Some ev
    /\ coverage_applicable ev = false
    /\ recommended_payout ev = 0%Q
    /\ evaluate (noon 2026 11 3) (_merge_extraction_results rs) None = Ok ev'
    /\ coverage_applicable ev' = true
    /\ (recommended_payout ev' == 4500)%Q.
Proof.
  apply (pipeline_evaluation_disregards_extraction (noon 2026 1 1) (noon 2026 1 1)
           (noon 2026 11 3) (fun _ => Raise KeyError) (fun _ => py "u")
           (fun _ => py "v") (py "3f2c-77") [py "a.pdf"] None).
  repeat constructor.
Defined.

(** ** The age read from the birth date *)

Section AgeFacts.

Local Open Scope Z_scope.

Lemma strptime_midnight (s : pystr) (b : datetime) :
  strptime s = Ok b ->
  hour b = 0 /\ minute b = 0 /\ second b = 0 /\ microsecond b = 0 /\ 1 <= year b.
Proof.
  unfold strptime. destruct (Re.compile format_regex) as [[r g]|]; [|discriminate].
  destruct (Re.match_here true r false s) as [[m rest]|]; [|discriminate].
  destruct rest; [|discriminate].
  destruct (digits_value 0 _) as [y|]; [|discriminate].
  destruct (digits_value 0 _) as [mo|]; [|discriminate].
  destruct (digits_value 0 _) as [d|]; [|discriminate].
  destruct (_ && _) eqn:E; [|discriminate].
  intros [= <-]. cbn. repeat split.
  apply andb_true_iff in E as [E _]. apply andb_true_iff in E as [E _].
  now apply Z.leb_le.
Qed.

Lemma leap_flag (y : Z) :
  (if is_leap y then 1 else 0) = days_before_year (y + 1) - days_before_year y - 365.
Proof.
  unfold is_leap, days_before_year.
  destruct (Z.eqb_spec (y mod 4) 0), (Z.eqb_spec (y mod 100) 0),
    (Z.eqb_spec (y mod 400) 0); cbn [andb orb negb];
    replace (y + 1 - 1) with y by lia; Z.div_mod_to_equations; lia.
Qed.

(** Days between a date and the same day and month [k] years later:
    [k] years of 365 days and the leap days in between. *)
Lemma days_between_anniversaries (y m d k : Z) (a b : datetime) :
  year b = y -> month b = m -> day b = d ->
  year a = y + k -> month a = m -> 1 <= y -> 0 <= k <= 1000 ->
  365 * k + (day a - d) <= toordinal a - toordinal b < 365 * k + (day a - d) + 365
  /\ (8 <= k -> 365 * k + (day a - d) + 1 <= toordinal a - toordinal b).
Proof.
  intros Hy Hm Hd Hya Hma Hy1 Hk. unfold toordinal, days_before_month.
  rewrite Hy, Hm, Hd, Hya, Hma.
  generalize (nth (Z.to_nat (m - 1)) [0; 31; 59; 90; 120; 151; 181; 212; 243; 273; 304; 334] 0).
  intros base.
  pose proof (leap_flag y) as Ly. pose proof (leap_flag (y + k)) as Lyk.
  assert (Hfy : (if (2 <? m) && is_leap y then 1 else 0)
                = if 2 <? m then (if is_leap y then 1 else 0) else 0)
    by (destruct (2 <? m), (is_leap y); reflexivity).
  assert (Hfyk : (if (2 <? m) && is_leap (y + k) then 1 else 0)
                 = if 2 <? m then (if is_leap (y + k) then 1 else 0) else 0)
    by (destruct (2 <? m), (is_leap (y + k)); reflexivity).
  rewrite Hfy, Hfyk, Ly, Lyk. clear Hfy Hfyk Ly Lyk.
  unfold days_before_year. replace (y + k + 1 - 1) with (y + k) by lia.
  replace (y + 1 - 1) with y by lia.
  destruct (2 <? m); split; try (intros Hk8); Z.div_mod_to_equations; lia.
Qed.

Lemma sub_days_midnight (a b : datetime) :
  microseconds_of_day b = 0 -> 0 <= microseconds_of_day a < 86400000000 ->
  sub_days a b = toordinal a - toordinal b.
Proof.
  intros Hb Ha. unfold sub_days. rewrite Hb, Z.sub_0_r.
  generalize dependent (microseconds_of_day a). intros us Hus.
  generalize (toordinal a - toordinal b). intros n.
  symmetry. apply (Z.div_unique _ _ _ us); lia.
Qed.

Lemma age_from_birth_date_anniversaries (now : datetime) (birth_date : pystr)
    (birth : datetime) (k : Z) :
  strptime (replace (py "日") []
              (replace (py "月") (py "-") (replace (py "年") (py "-") birth_date)))
  = Ok birth ->
  year now = year birth + k -> month now = month birth -> 0 <= k <= 1000 ->
  0 <= microseconds_of_day now < 86400000000 ->
  (day now = day birth -> age_from_birth_date now birth_date = Ok k)
  /\ (8 <= k -> day now = day birth - 1 -> age_from_birth_date now birth_date = Ok k).
Proof.
  intros Hb Hy Hm Hk Hus. unfold age_from_birth_date. rewrite Hb. cbn [bind].
  destruct (strptime_midnight _ _ Hb) as [Hh [Hmi [Hs [Hmic Hy1]]]].
  rewrite sub_days_midnight by (try exact Hus; unfold microseconds_of_day;
                                rewrite Hh, Hmi, Hs, Hmic; reflexivity).
  destruct (days_between_anniversaries (year birth) (month birth) (day birth) k now birth
              eq_refl eq_refl eq_refl Hy Hm Hy1 Hk) as [[Hlo Hhi] Heve].
  split.
  - intros Hd. f_equal. rewrite Hd in *. symmetry.
    apply (Z.div_unique _ _ _ (toordinal now - toordinal birth - 365 * k)); lia.
  - intros Hk8 Hd. specialize (Heve Hk8). f_equal. rewrite Hd in *. symmetry.
    apply (Z.div_unique _ _ _ (toordinal now - toordinal birth - 365 * k)); lia.
Qed.

End AgeFacts.

(** X24. The age read from a birth date counts years of 365 days: on
    the day and month of birth, k years later, it is k (for k up to
    1000); but from eight years on it is already k on the day before,
    because of the leap days in between. A girl is thus taken for 18
    on the eve of her eighteenth birthday. *)
Theorem age_from_birth_date_runs_ahead (now : datetime) (birth_date : pystr)
    (birth : datetime) (k : Z) :
  strptime (replace (py "日") []
              (replace (py "月") (py "-") (replace (py "年") (py "-") birth_date)))
  = Ok birth ->
  year now = (year birth + k)%Z -> month now = month birth -> (0 <= k <= 1000)%Z ->
  (0 <= microseconds_of_day now < 86400000000)%Z ->
  (day now = day birth -> age_from_birth_date now birth_date = Ok k)
  /\ ((8 <= k)%Z -> day now = (day birth - 1)%Z ->
      age_from_birth_date now birth_date = Ok k).
Proof. apply age_from_birth_date_anniversaries. Qed.

Lemma age_from_birth_date_runs_ahead_witness :
  age_from_birth_date (noon 2026 11 5) (py "2008年11月6日") = Ok 18%Z.
Proof.
  assert (Hb : strptime (replace (py "日") []
                           (replace (py "月") (py "-")
                              (replace (py "年") (py "-") (py "2008年11月6日"))))
               = Ok {| year := 2008; month := 11; day := 6; hour := 0; minute := 0;
                       second := 0; microsecond := 0 |})
    by (vm_compute; reflexivity).
  refine (proj2 (age_from_birth_date_runs_ahead (noon 2026 11 5) (py "2008年11月6日")
                   _ 18 Hb eq_refl eq_refl _ _) _ _).
  - lia.
  - vm_compute. split; [discriminate | reflexivity].
  - lia.
  - reflexivity.
Defined.
